(** * Zap CLI: a shallow embedding of [zap_cli/cli.py]

    The development follows the layout of the Python module: Python values
    and exceptions first, then the name deriver ([secret_name_to_env_var]),
    the secret decryptor ([decrypt_secret]), the session store
    ([SessionFile], [ProjectContext]) and the commands that use them
    ([run], [stop]).

    Python strings are sequences of Unicode code points, [bytes] objects
    are sequences of octets.  What the module takes from outside (the
    Unicode character database behind [str.upper] and [str.isalnum], the
    [json] module, the [AESGCM] class of the cryptography package) is an
    interface here, so that the theorems hold for every implementation of
    it; a reference implementation of each interface is given to evaluate
    the code on concrete inputs. *)

From Stdlib Require Import NArith ZArith List Ascii String Bool Lia.
From Stdlib Require Import Strings.Byte Floats.PrimFloat Floats.FloatOps Floats.SpecFloat.
From Stdlib Require Import Sorting.Sorted.
From stdpp Require Import base option list gmap.
Import ListNotations.
Local Open Scope N_scope.
Set Warnings "-register-all".

(** ** Python values *)

(** A [str] is a sequence of code points, a [bytes] a sequence of octets. *)
Definition codepoint := N.
Definition pystr := list codepoint.
Definition bytes := list byte.

#[global] Instance byte_eq_dec : EqDecision byte.
Proof.
  intros x y. destruct (Byte.eqb x y) eqn:E.
  - left. by apply Byte.byte_dec_bl.
  - right. intros ->. by rewrite Byte.byte_dec_lb in E.
Defined.

(** A string literal of this file read as a Python [str] (one code point
    per character, so literals are ASCII). *)
Definition py (s : string) : pystr :=
  map N_of_ascii (list_ascii_of_string s).

Definition underscore : codepoint := 95.

(** ** The Unicode character database

    [str.upper] and [str.isalnum] are table driven.  On ASCII they are the
    functions below; beyond ASCII they consult the database of the running
    interpreter, which is an interface: [uc_isalnum c] is [c.isalnum()]
    and [uc_upper c] is [c.upper()] for a non-ASCII character [c] (the
    upper case of one character may be several, as for U+00DF). *)
Class UnicodeData := {
  uc_isalnum : codepoint -> bool;
  uc_upper : codepoint -> pystr
}.

Definition is_ascii_upper (c : codepoint) : bool := (65 <=? c) && (c <=? 90).
Definition is_ascii_lower (c : codepoint) : bool := (97 <=? c) && (c <=? 122).
Definition is_ascii_digit (c : codepoint) : bool := (48 <=? c) && (c <=? 57).
Definition is_ascii_alnum (c : codepoint) : bool :=
  is_ascii_upper c || is_ascii_lower c || is_ascii_digit c.

Section Str.
Context {UD : UnicodeData}.

(** [c.isalnum()] for a one-character string. *)
Definition isalnum (c : codepoint) : bool :=
  if c <? 128 then is_ascii_alnum c else uc_isalnum c.

(** [c.upper()] for a one-character string. *)
Definition upper_char (c : codepoint) : pystr :=
  if c <? 128 then [if is_ascii_lower c then c - 32 else c]
  else uc_upper c.

(** [s.upper()]: the characters are mapped one by one. *)
Definition upper (s : pystr) : pystr := flat_map upper_char s.
End Str.

(** [s.split("_")]: one field per separator, empty fields included;
    the empty string gives one empty field. *)
Fixpoint split (sep : codepoint) (s : pystr) : list pystr :=
  match s with
  | [] => [[]]
  | c :: s' =>
      if c =? sep then [] :: split sep s'
      else match split sep s' with
           | w :: ws => (c :: w) :: ws
           | [] => [[c]]
           end
  end.

(** [filter(None, xs)] on strings keeps the non-empty ones. *)
Definition filter_None (xs : list pystr) : list pystr :=
  List.filter (fun w => match w with [] => false | _ => true end) xs.

(** [sep.join(xs)]. *)
Fixpoint join (sep : pystr) (xs : list pystr) : pystr :=
  match xs with
  | [] => []
  | [w] => w
  | w :: ws => w ++ sep ++ join sep ws
  end.

(** ** Name deriver *)

Section NameDeriver.
Context {UD : UnicodeData}.

(** The join of [c if c.isalnum() else "_" for c in s]. *)
Definition replace_non_alnum (s : pystr) : pystr :=
  map (fun c => if isalnum c then c else underscore) s.

(** ["_".join(filter(None, s.split("_")))] *)
Definition collapse_underscores (s : pystr) : pystr :=
  join [underscore] (filter_None (split underscore s)).

(** The truth value of an optional string: [None] and the empty string
    are false. *)
Definition truthy (prefix : option pystr) : bool :=
  match prefix with
  | Some (_ :: _) => true
  | _ => false
  end.

Definition secret_name_to_env_var
    (secret_name : pystr) (prefix : option pystr) : pystr :=
  let clean_name := replace_non_alnum (upper secret_name) in
  let clean_name := collapse_underscores clean_name in
  if truthy prefix then
    let clean_prefix := replace_non_alnum (upper (default [] prefix)) in
    clean_prefix ++ [underscore] ++ clean_name
  else clean_name.
End NameDeriver.

(** ** Exceptions

    Fallible code returns a [result]: a value, or the class of the
    exception it raises.  [isinstance e c] is the subclass relation that an
    [except] clause tests. *)
Inductive exn :=
| Exception | ValueError | JSONDecodeError | UnicodeDecodeError
| UnicodeEncodeError | TypeError | KeyError | AttributeError | OSError
| InvalidTag | OverflowError | MemoryError | RecursionError.

Inductive result (A : Type) :=
| Ok (a : A)
| Raise (e : exn).
Arguments Ok {A} a.
Arguments Raise {A} e.

#[global] Instance result_ret : MRet result := fun A a => Ok a.
#[global] Instance result_bind : MBind result := fun A B k r =>
  match r with
  | Ok a => k a
  | Raise e => Raise e
  end.

#[global] Instance result_fmap : FMap result := fun A B f r =>
  match r with
  | Ok a => Ok (f a)
  | Raise e => Raise e
  end.

Definition raises {A} (r : result A) : Prop := exists e, r = Raise e.

Definition exn_eqb (a b : exn) : bool :=
  match a, b with
  | Exception, Exception | ValueError, ValueError
  | JSONDecodeError, JSONDecodeError | UnicodeDecodeError, UnicodeDecodeError
  | UnicodeEncodeError, UnicodeEncodeError | TypeError, TypeError
  | KeyError, KeyError | AttributeError, AttributeError | OSError, OSError
  | InvalidTag, InvalidTag | OverflowError, OverflowError
  | MemoryError, MemoryError | RecursionError, RecursionError => true
  | _, _ => false
  end.

(** The direct base class of an exception class ([Exception] is the root
    of what the module handles). *)
Definition base (e : exn) : option exn :=
  match e with
  | Exception => None
  | JSONDecodeError | UnicodeDecodeError | UnicodeEncodeError => Some ValueError
  | _ => Some Exception
  end.

Definition isinstance (e c : exn) : bool :=
  exn_eqb e c
  || match base e with
     | Some b => exn_eqb b c || match base b with
                                | Some b' => exn_eqb b' c
                                | None => false
                                end
     | None => false
     end.

(** [try: r except classes: handler]. *)
Definition try_except {A} (r : result A) (classes : list exn)
    (handler : exn -> result A) : result A :=
  match r with
  | Ok a => Ok a
  | Raise e => if existsb (isinstance e) classes then handler e else Raise e
  end.

(** ** [bytes.fromhex] *)

Definition byte_of_N (n : N) : byte :=
  match Byte.of_N (n mod 256) with
  | Some b => b
  | None => x00
  end.

(** The value of a hexadecimal digit. *)
Definition hex_digit (c : codepoint) : option N :=
  if is_ascii_digit c then Some (c - 48)
  else if (97 <=? c) && (c <=? 102) then Some (c - 87)
  else if (65 <=? c) && (c <=? 70) then Some (c - 55)
  else None.

(** ASCII white space: space, and the controls from tab to carriage
    return. *)
Definition is_ascii_space (c : codepoint) : bool :=
  (c =? 32) || ((9 <=? c) && (c <=? 13)).

(** [bytes.fromhex(s)]: two hexadecimal digits per octet, white space
    allowed between octets; anything else is a [ValueError]. *)
Fixpoint fromhex (s : pystr) : result bytes :=
  match s with
  | [] => Ok []
  | c :: s' =>
      if is_ascii_space c then fromhex s'
      else match hex_digit c, s' with
           | Some top, d :: s'' =>
               match hex_digit d with
               | Some bot =>
                   rest ← fromhex s'';
                   Ok (byte_of_N (16 * top + bot) :: rest)
               | None => Raise ValueError
               end
           | _, _ => Raise ValueError
           end
  end.

(** ** Values read from JSON

    What [json.loads] builds: [None], [bool], [int], [float], [str],
    [list] and [dict] objects.  A [float] is a binary64 number; a [dict]
    keeps its items in insertion order and has no two items with the same
    key. *)
Inductive json :=
| JNull
| JBool (b : bool)
| JInt (z : Z)
| JFloat (f : PrimFloat.float)
| JStr (s : pystr)
| JArr (items : list json)
| JObj (items : list (pystr * json)).

Definition str_eqb (s t : pystr) : bool := bool_decide (s = t).

(** [d.get(key)] on the items of a [dict]. *)
Fixpoint dict_get (items : list (pystr * json)) (key : pystr) : option json :=
  match items with
  | [] => None
  | (k, v) :: items' => if str_eqb k key then Some v else dict_get items' key
  end.

(** [x[key]] for a string [key]: only a [dict] can be subscripted by a
    string, and the key has to be there. *)
Definition getitem (x : json) (key : pystr) : result json :=
  match x with
  | JObj items =>
      match dict_get items key with
      | Some v => Ok v
      | None => Raise KeyError
      end
  | _ => Raise TypeError
  end.

(** [x.get(key, default)]: only a [dict] has the method. *)
Definition get (x : json) (key : pystr) (dflt : json) : result json :=
  match x with
  | JObj items => Ok (default dflt (dict_get items key))
  | _ => Raise AttributeError
  end.

(** One element of the iterable given to [bytes(...)]: an integer (a
    [bool] is one) in [range(256)]. *)
Definition byte_of_item (v : json) : result byte :=
  match v with
  | JInt z =>
      if ((0 <=? z) && (z <? 256))%Z then Ok (byte_of_N (Z.to_N z))
      else Raise ValueError
  | JBool b => Ok (if b then x01 else x00)
  | _ => Raise TypeError
  end.

Fixpoint bytes_of_items (items : list json) : result bytes :=
  match items with
  | [] => Ok []
  | v :: items' =>
      b ← byte_of_item v;
      rest ← bytes_of_items items';
      Ok (b :: rest)
  end.

Definition maxsize : Z := 2 ^ 63 - 1.

(** [bytes(n)] for an integer: [n] zero octets (memory is not bounded
    here, so no [MemoryError]). *)
Definition bytes_of_count (z : Z) : result bytes :=
  if ((z <? - maxsize - 1) || (maxsize <? z))%Z then Raise OverflowError
  else if (z <? 0)%Z then Raise ValueError
  else Ok (repeat x00 (Z.to_nat z)).

(** [bytes(x)]: the elements of a list, a count of zero octets for an
    integer, the keys of a [dict] (strings, so only the empty one
    converts); no other value converts. *)
Definition py_bytes (x : json) : result bytes :=
  match x with
  | JArr items => bytes_of_items items
  | JInt z => bytes_of_count z
  | JBool b => bytes_of_count (if b then 1 else 0)
  | JObj [] => Ok []
  | _ => Raise TypeError
  end.

(** ** UTF-8 *)

Definition is_continuation (n : N) : bool := (128 <=? n) && (n <? 192).

Definition is_surrogate (c : codepoint) : bool := (55296 <=? c) && (c <? 57344).

(** [b.decode("utf-8", errors)]: over-long forms and code points beyond
    U+10FFFF are errors; so are surrogates, unless [errors] is
    ["surrogatepass"]. *)
Fixpoint decode_utf8_with (surrogatepass : bool) (b : bytes) : result pystr :=
  match b with
  | [] => Ok []
  | b0 :: r0 =>
      let n0 := Byte.to_N b0 in
      if n0 <? 128 then (s ← decode_utf8_with surrogatepass r0; Ok (n0 :: s))
      else if n0 <? 194 then Raise UnicodeDecodeError
      else if n0 <? 224 then
        match r0 with
        | b1 :: r1 =>
            let n1 := Byte.to_N b1 in
            if is_continuation n1 then
              s ← decode_utf8_with surrogatepass r1;
              Ok ((n0 - 192) * 64 + (n1 - 128) :: s)
            else Raise UnicodeDecodeError
        | _ => Raise UnicodeDecodeError
        end
      else if n0 <? 240 then
        match r0 with
        | b1 :: b2 :: r2 =>
            let n1 := Byte.to_N b1 in
            let n2 := Byte.to_N b2 in
            let c := (n0 - 224) * 4096 + (n1 - 128) * 64 + (n2 - 128) in
            if is_continuation n1 && is_continuation n2
               && (2048 <=? c) && (surrogatepass || negb (is_surrogate c)) then
              s ← decode_utf8_with surrogatepass r2; Ok (c :: s)
            else Raise UnicodeDecodeError
        | _ => Raise UnicodeDecodeError
        end
      else if n0 <? 245 then
        match r0 with
        | b1 :: b2 :: b3 :: r3 =>
            let n1 := Byte.to_N b1 in
            let n2 := Byte.to_N b2 in
            let n3 := Byte.to_N b3 in
            let c := (n0 - 240) * 262144 + (n1 - 128) * 4096
                     + (n2 - 128) * 64 + (n3 - 128) in
            if is_continuation n1 && is_continuation n2 && is_continuation n3
               && (65536 <=? c) && (c <? 1114112) then
              s ← decode_utf8_with surrogatepass r3; Ok (c :: s)
            else Raise UnicodeDecodeError
        | _ => Raise UnicodeDecodeError
        end
      else Raise UnicodeDecodeError
  end.

(** [b.decode("utf-8")] *)
Definition decode_utf8 (b : bytes) : result pystr := decode_utf8_with false b.

(** The UTF-8 form of one code point, when it has one. *)
Definition encode_utf8_char (c : codepoint) : result bytes :=
  if c <? 128 then Ok [byte_of_N c]
  else if c <? 2048 then
    Ok [byte_of_N (192 + c / 64); byte_of_N (128 + c mod 64)]
  else if is_surrogate c then Raise UnicodeEncodeError
  else if c <? 65536 then
    Ok [byte_of_N (224 + c / 4096); byte_of_N (128 + (c / 64) mod 64);
        byte_of_N (128 + c mod 64)]
  else if c <? 1114112 then
    Ok [byte_of_N (240 + c / 262144); byte_of_N (128 + (c / 4096) mod 64);
        byte_of_N (128 + (c / 64) mod 64); byte_of_N (128 + c mod 64)]
  else Raise UnicodeEncodeError.

(** [s.encode("utf-8")]. *)
Fixpoint encode_utf8 (s : pystr) : result bytes :=
  match s with
  | [] => Ok []
  | c :: s' =>
      b ← encode_utf8_char c;
      rest ← encode_utf8 s';
      Ok (b ++ rest)
  end.

(** ** What the module imports

    [json.loads] is called on a [bytes] object and [json.load] on a text
    file (here: on the text read from it); [AESGCM] is the class of the
    cryptography package: [AESGCM_new key] is [AESGCM(key)], and
    [AESGCM_decrypt a nonce data aad] is [a.decrypt(nonce, data, aad)].
    [AESGCM_encrypt] is used by no code of the module, only by the
    reference encryption of the round-trip property. *)
Class JsonModule := {
  json_loads : bytes -> result json;
  json_load : pystr -> result json
}.

Class AesGcmModule := {
  aesgcm : Type;
  AESGCM_new : bytes -> result aesgcm;
  AESGCM_decrypt : aesgcm -> bytes -> bytes -> option bytes -> result bytes;
  AESGCM_encrypt : aesgcm -> bytes -> bytes -> option bytes -> result bytes
}.

(** ** Secret decryptor *)

Section Decryptor.
Context {JM : JsonModule} {AG : AesGcmModule}.

Definition decrypt_secret
    (hex_encrypted_data : pystr) (session_key : bytes) : result pystr :=
  (* Decode hex to get serialized EncryptedData *)
  serialized_data ← fromhex hex_encrypted_data;
  encrypted_data ← json_loads serialized_data;
  (* Extract components *)
  cipher ← getitem encrypted_data (py "cipher") ≫= py_bytes;
  nonce ← getitem encrypted_data (py "nonce") ≫= py_bytes;
  tag ← getitem encrypted_data (py "tag") ≫= py_bytes;
  (* Decrypt using AES-GCM *)
  aesgcm ← AESGCM_new session_key;
  let ciphertext := cipher ++ tag in
  decrypted ← AESGCM_decrypt aesgcm nonce ciphertext None;
  decode_utf8 decrypted.

(** The call [decrypt_secret(v, key)] on a value read from a session
    file: [bytes.fromhex] takes a [str] only. *)
Definition decrypt_secret_of (v : json) (session_key : bytes)
    : result pystr :=
  match v with
  | JStr s => decrypt_secret s session_key
  | _ => Raise TypeError
  end.
End Decryptor.

(** ** Comparing values

    [sorted] compares the [created_at] values of the session files with
    [<], which is defined between numbers, between strings and between
    lists, and raises [TypeError] otherwise. *)

(** The order of two numbers, [None] when one is a NaN.  An [int] and a
    [float] are compared exactly. *)
Definition cmp_int_float (z : Z) (f : PrimFloat.float) : option comparison :=
  match Prim2SF f with
  | S754_zero _ => Some (z ?= 0)%Z
  | S754_infinity s => Some (if s then Gt else Lt)
  | S754_nan => None
  | S754_finite s m e =>
      let v := if s then Z.neg m else Z.pos m in
      Some (if (0 <=? e)%Z then (z ?= v * 2 ^ e)%Z
            else (z * 2 ^ (- e) ?= v)%Z)
  end.

Definition cmp_float (f g : PrimFloat.float) : option comparison :=
  match PrimFloat.compare f g with
  | FEq => Some Eq
  | FLt => Some Lt
  | FGt => Some Gt
  | FNotComparable => None
  end.

Definition int_of_bool (b : bool) : Z := if b then 1%Z else 0%Z.

(** The numbers among the values ([bool] is a subclass of [int]). *)
Definition num_cmp (a b : json) : option (option comparison) :=
  match a, b with
  | JInt x, JInt y => Some (Some (x ?= y)%Z)
  | JInt x, JBool y => Some (Some (x ?= int_of_bool y)%Z)
  | JBool x, JInt y => Some (Some (int_of_bool x ?= y)%Z)
  | JBool x, JBool y => Some (Some (int_of_bool x ?= int_of_bool y)%Z)
  | JInt x, JFloat g => Some (cmp_int_float x g)
  | JBool x, JFloat g => Some (cmp_int_float (int_of_bool x) g)
  | JFloat f, JInt y => Some (CompOpp <$> cmp_int_float y f)
  | JFloat f, JBool y => Some (CompOpp <$> cmp_int_float (int_of_bool y) f)
  | JFloat f, JFloat g => Some (cmp_float f g)
  | _, _ => None
  end.

(** [a == b] *)
Fixpoint py_eq (a b : json) : bool :=
  match num_cmp a b with
  | Some c => bool_decide (c = Some Eq)
  | None =>
      match a, b with
      | JNull, JNull => true
      | JStr s, JStr t => str_eqb s t
      | JArr xs, JArr ys =>
          (fix all2 (xs ys : list json) : bool :=
             match xs, ys with
             | [], [] => true
             | x :: xs', y :: ys' => py_eq x y && all2 xs' ys'
             | _, _ => false
             end) xs ys
      | JObj d, JObj d' =>
          (length d =? length d')%nat
          && (fix all (d : list (pystr * json)) : bool :=
                match d with
                | [] => true
                | (k, v) :: rest =>
                    match dict_get d' k with
                    | Some w => py_eq v w
                    | None => false
                    end && all rest
                end) d
      | _, _ => false
      end
  end.

(** [s < t] on strings: by code points, a proper prefix first. *)
Fixpoint str_ltb (s t : pystr) : bool :=
  match s, t with
  | _, [] => false
  | [], _ :: _ => true
  | c :: s', d :: t' => (c <? d) || ((c =? d) && str_ltb s' t')
  end.

(** [a < b] *)
Fixpoint py_lt (a b : json) : result bool :=
  match num_cmp a b with
  | Some c => Ok (bool_decide (c = Some Lt))
  | None =>
      match a, b with
      | JStr s, JStr t => Ok (str_ltb s t)
      | JArr xs, JArr ys =>
          (fix lt_list (xs ys : list json) : result bool :=
             match xs, ys with
             | _, [] => Ok false
             | [], _ :: _ => Ok true
             | x :: xs', y :: ys' =>
                 if py_eq x y then lt_list xs' ys' else py_lt x y
             end) xs ys
      | _, _ => Raise TypeError
      end
  end.

(** [sorted(xs, key=key, reverse=True)]: stable, largest key first; an
    error of a comparison is the error of the call. *)
Section Sorted.
Context {A : Type} (key : A -> json).

Fixpoint insert_desc (x : A) (xs : list A) : result (list A) :=
  match xs with
  | [] => Ok [x]
  | y :: ys =>
      less ← py_lt (key x) (key y);
      if less : bool then r ← insert_desc x ys; Ok (y :: r)
      else Ok (x :: y :: ys)
  end.

Fixpoint sorted_reverse (xs : list A) : result (list A) :=
  match xs with
  | [] => Ok []
  | x :: xs' => r ← sorted_reverse xs'; insert_desc x r
  end.
End Sorted.

(** ** Paths and files

    A path is its sequence of names.  A file system state lists the
    existing paths, in the order in which a directory scan yields them,
    each with what is there: a directory, or a file that reads as a text,
    cannot be opened, or cannot be decoded. *)
Definition path := list pystr.

Inductive content :=
| Text (s : pystr)
| Unreadable
| Undecodable.

Inductive node :=
| Dir
| File (c : content).

Definition filesystem := list (path * node).

Definition path_eqb (p q : path) : bool := bool_decide (p = q).

Fixpoint fs_lookup (fs : filesystem) (p : path) : option node :=
  match fs with
  | [] => None
  | (q, n) :: fs' => if path_eqb q p then Some n else fs_lookup fs' p
  end.

(** [p.exists()] *)
Definition exists_ (fs : filesystem) (p : path) : bool :=
  match fs_lookup fs p with Some _ => true | None => false end.

Definition fs_remove (fs : filesystem) (p : path) : filesystem :=
  List.filter (fun e => negb (path_eqb (fst e) p)) fs.

(** [p.unlink(missing_ok=...)] *)
Definition unlink (fs : filesystem) (p : path) (missing_ok : bool)
    : result filesystem :=
  match fs_lookup fs p with
  | Some (File _) => Ok (fs_remove fs p)
  | Some Dir => Raise OSError
  | None => if missing_ok then Ok fs else Raise OSError
  end.

(** [with open(p, "r") as f: f.read()] *)
Definition read_text (fs : filesystem) (p : path) : result pystr :=
  match fs_lookup fs p with
  | Some (File (Text s)) => Ok s
  | Some (File Undecodable) => Raise UnicodeDecodeError
  | _ => Raise OSError
  end.

Fixpoint endswith (s suffix : pystr) : bool :=
  str_eqb s suffix
  || match s with
     | [] => false
     | _ :: s' => endswith s' suffix
     end.

(** [d.glob("*.json")]: the entries of [d] whose name ends in [.json]. *)
Definition glob_json (fs : filesystem) (d : path) : list path :=
  List.filter
    (fun p => match List.last (Some <$> p) None with
              | Some name =>
                  path_eqb p (d ++ [name]) && endswith name (py ".json")
              | None => false
              end)
    (fst <$> fs).

(** ** Path resolution *)

Inductive platform := Win32 | Darwin | Linux.

(** What the process sees of its host: [sys.platform], [Path.home()],
    the variable [APPDATA] and [Path.cwd()]. *)
Record host := {
  sys_platform : platform;
  Path_home : path;
  APPDATA : option pystr;
  Path_cwd : path
}.

Definition APP_IDENTIFIER : pystr := py "com.devtool.zap".
Definition SESSIONS_DIR : pystr := py "sessions".

Section Store.
Context {JM : JsonModule} (h : host).

Definition get_app_base_directory : path :=
  let base :=
    match sys_platform h with
    | Win32 =>
        [default (py "C:\Users\Default\AppData\Roaming") (APPDATA h)]
    | Darwin => Path_home h ++ [py "Library"] ++ [py "Application Support"]
    | Linux => Path_home h ++ [py ".config"]
    end in
  base ++ [APP_IDENTIFIER].

Definition get_sessions_directory : path :=
  get_app_base_directory ++ [SESSIONS_DIR].

Definition get_session_file_path (session_name : pystr) : path :=
  get_sessions_directory ++ [session_name ++ py ".json"].

(** *** Session files *)

Record SessionFile := {
  session_name : json;
  box_name : json;
  session_key : bytes;
  encrypted_secrets : json;
  created_at : json
}.

(** [bytes.fromhex(v)] for a value read from a file. *)
Definition fromhex_of (v : json) : result bytes :=
  match v with
  | JStr s => fromhex s
  | _ => Raise TypeError
  end.

(** [SessionFile(data)] *)
Definition SessionFile_init (data : json) : result SessionFile :=
  session_name ← getitem data (py "session_name");
  box_name ← getitem data (py "box_name");
  session_key ← getitem data (py "session_key") ≫= fromhex_of;
  encrypted_secrets ← getitem data (py "encrypted_secrets");
  created_at ← getitem data (py "created_at");
  Ok {| session_name := session_name; box_name := box_name;
        session_key := session_key;
        encrypted_secrets := encrypted_secrets;
        created_at := created_at |}.

(** The [except] clause of the loaders. *)
Definition load_errors : list exn := [JSONDecodeError; KeyError; OSError].

(** [SessionFile.load(session_name)] *)
Definition SessionFile_load (fs : filesystem) (name : pystr)
    : result (option SessionFile) :=
  let session_path := get_session_file_path name in
  if negb (exists_ fs session_path) then Ok None
  else
    try_except
      (text ← read_text fs session_path;
       data ← json_load text;
       Some <$> SessionFile_init data)
      load_errors (fun _ => Ok None).

(** The loop of [SessionFile.list_all] over the files found. *)
Fixpoint load_each (fs : filesystem) (files : list path)
    (sessions : list SessionFile) : result (list SessionFile) :=
  match files with
  | [] => Ok sessions
  | file :: files' =>
      sessions' ←
        try_except
          (text ← read_text fs file;
           data ← json_load text;
           s ← SessionFile_init data;
           Ok (sessions ++ [s]))
          load_errors (fun _ => Ok sessions);
      load_each fs files' sessions'
  end.

(** [SessionFile.list_all()] *)
Definition SessionFile_list_all (fs : filesystem)
    : result (list SessionFile) :=
  let sessions_dir := get_sessions_directory in
  if negb (exists_ fs sessions_dir) then Ok []
  else
    sessions ← load_each fs (glob_json fs sessions_dir) [];
    sorted_reverse created_at sessions.

(** *** Project context *)

Record ProjectContext := {
  app : json;
  current_session : json;
  available_secrets : json
}.

Definition zap_file : path := Path_cwd h ++ [py "zap.json"].

(** [ProjectContext(data)] *)
Definition ProjectContext_init (data : json) : result ProjectContext :=
  app ← get data (py "app") (JStr (py "zap"));
  current_session ← getitem data (py "current_session");
  available_secrets ← get data (py "available_secrets") (JArr []);
  Ok {| app := app; current_session := current_session;
        available_secrets := available_secrets |}.

(** [ProjectContext.load()] *)
Definition ProjectContext_load (fs : filesystem)
    : result (option ProjectContext) :=
  if negb (exists_ fs zap_file) then Ok None
  else
    try_except
      (text ← read_text fs zap_file;
       data ← json_load text;
       Some <$> ProjectContext_init data)
      load_errors (fun _ => Ok None).
End Store.

(** ** Commands *)

(** What a command prints, without the markup. *)
Inductive message :=
| Loaded (env_var_name : pystr)
| FailedToDecrypt (secret_name : pystr) (e : exn)
| Stopped (session_name : pystr)
| ClearedFromProject
| NotFound (session_name : pystr).

Definition console := list message.

(** The environment of the child process: a [dict] from names to values. *)
Abbreviation environ := (gmap pystr pystr).

(** [d.items()]: only a [dict] has the method. *)
Definition items (d : json) : result (list (pystr * json)) :=
  match d with
  | JObj kvs => Ok kvs
  | _ => Raise AttributeError
  end.

Section Commands.
Context {UD : UnicodeData} {JM : JsonModule} {AG : AesGcmModule} (h : host).

(** One turn of the loop of [run] that decrypts and injects the secrets:
    the [try] statement. *)
Definition inject_secret (session_key : bytes) (verbose : bool)
    (prefix : option pystr) (st : environ * console)
    (item : pystr * json) : result (environ * console) :=
  let '(env, out) := st in
  let '(secret_name, hex_encrypted) := item in
  try_except
    (decrypted_value ← decrypt_secret_of hex_encrypted session_key;
     let env_var_name := secret_name_to_env_var secret_name prefix in
     let env := <[env_var_name := decrypted_value]> env in
     Ok (env, if verbose then out ++ [Loaded env_var_name] else out))
    [Exception]
    (fun e => Ok (env, out ++ [FailedToDecrypt secret_name e])).

Fixpoint inject_loop (session_key : bytes) (verbose : bool)
    (prefix : option pystr) (kvs : list (pystr * json))
    (st : environ * console) : result (environ * console) :=
  match kvs with
  | [] => Ok st
  | item :: kvs' =>
      st' ← inject_secret session_key verbose prefix st item;
      inject_loop session_key verbose prefix kvs' st'
  end.

(** The loop of [run]: [for secret_name, hex_encrypted in
    session_file.encrypted_secrets.items(): ...], from the environment
    and the console as they are when it starts. *)
Definition inject_secrets (session_file : SessionFile) (verbose : bool)
    (prefix : option pystr) (st : environ * console)
    : result (environ * console) :=
  kvs ← items (encrypted_secrets session_file);
  inject_loop (session_key session_file) verbose prefix kvs st.

(** [stop(session_name)] *)
Definition stop (session_name : pystr) (fs : filesystem)
    : result (filesystem * console) :=
  let session_path := get_session_file_path h session_name in
  if exists_ fs session_path then
    fs ← unlink fs session_path false;
    let out := [Stopped session_name] in
    (* Clear from project context if current *)
    context ← ProjectContext_load h fs;
    match context with
    | Some ctx =>
        if py_eq (current_session ctx) (JStr session_name) then
          fs ← unlink fs (zap_file h) true;
          Ok (fs, out ++ [ClearedFromProject])
        else Ok (fs, out)
    | None => Ok (fs, out)
    end
  else Ok (fs, [NotFound session_name]).
End Commands.

(** * Reference implementations of the interfaces *)

(** ** The Latin-1 excerpt of the Unicode character database

    Faithful on U+0080..U+00FF and on the two characters outside that
    range that are upper cases of characters in it (U+0178, U+039C);
    other characters are left as they are and are not alphanumeric, so
    this instance is for inputs within Latin-1. *)
Module Latin1.
Definition isalnum (c : codepoint) : bool :=
  (c =? 170) || (c =? 178) || (c =? 179) || (c =? 181) || (c =? 185)
  || (c =? 186) || ((188 <=? c) && (c <=? 190))
  || ((192 <=? c) && (c <=? 214)) || ((216 <=? c) && (c <=? 246))
  || ((248 <=? c) && (c <=? 255)) || (c =? 376) || (c =? 924).

Definition upper (c : codepoint) : pystr :=
  if c =? 181 then [924]
  else if c =? 223 then [83; 83]
  else if c =? 255 then [376]
  else if (224 <=? c) && (c <=? 254) && negb (c =? 247) then [c - 32]
  else [c].

Definition unicode_data : UnicodeData :=
  {| uc_isalnum := isalnum; uc_upper := upper |}.
End Latin1.

(** ** A JSON decoder

    The decoder of the [json] module on a text: RFC 8259 with the
    constants [NaN], [Infinity] and [-Infinity], strings in strict mode,
    and the last value kept for a repeated key.  Every syntax error is a
    [JSONDecodeError].  The interpreter's limits on nesting depth and on
    the number of digits of an integer are not part of it. *)
Module RefJson.
Definition is_ws (c : codepoint) : bool :=
  (c =? 32) || (c =? 9) || (c =? 10) || (c =? 13).

Fixpoint skip_ws (s : pystr) : pystr :=
  match s with
  | c :: s' => if is_ws c then skip_ws s' else s
  | [] => []
  end.

Definition hex4 (a b c d : codepoint) : option N :=
  a ← hex_digit a; b ← hex_digit b; c ← hex_digit c; d ← hex_digit d;
  Some (((a * 16 + b) * 16 + c) * 16 + d).

Definition is_high_surrogate (c : N) : bool := (55296 <=? c) && (c <? 56320).
Definition is_low_surrogate (c : N) : bool := (56320 <=? c) && (c <? 57344).
Definition join_surrogates (hi lo : N) : N :=
  65536 + (hi - 55296) * 1024 + (lo - 56320).

(** A simple escape: the character after the backslash. *)
Definition unescape (e : codepoint) : option codepoint :=
  if (e =? 34) || (e =? 92) || (e =? 47) then Some e
  else if e =? 98 then Some 8
  else if e =? 102 then Some 12
  else if e =? 110 then Some 10
  else if e =? 114 then Some 13
  else if e =? 116 then Some 9
  else None.

(** The string that starts after an opening quote, and what follows
    its closing quote. *)
Fixpoint scanstring (s : pystr) : result (pystr * pystr) :=
  match s with
  | [] => Raise JSONDecodeError
  | c :: r =>
      if c =? 34 then Ok ([], r)
      else if c <? 32 then Raise JSONDecodeError
      else if negb (c =? 92) then
        '(t, rest) ← scanstring r; Ok (c :: t, rest)
      else
        match r with
        | [] => Raise JSONDecodeError
        | e :: r1 =>
            if e =? 117 then
              match r1 with
              | a :: b :: c :: d :: r2 =>
                  match hex4 a b c d with
                  | None => Raise JSONDecodeError
                  | Some u =>
                      match r2 with
                      | 92 :: 117 :: a' :: b' :: c' :: d' :: r3 =>
                          match hex4 a' b' c' d' with
                          | Some u' =>
                              if is_high_surrogate u && is_low_surrogate u'
                              then '(t, rest) ← scanstring r3;
                                   Ok (join_surrogates u u' :: t, rest)
                              else '(t, rest) ← scanstring r2;
                                   Ok (u :: t, rest)
                          | None => '(t, rest) ← scanstring r2;
                                    Ok (u :: t, rest)
                          end
                      | _ => '(t, rest) ← scanstring r2; Ok (u :: t, rest)
                      end
                  end
              | _ => Raise JSONDecodeError
              end
            else
              match unescape e with
              | Some c' => '(t, rest) ← scanstring r1; Ok (c' :: t, rest)
              | None => Raise JSONDecodeError
              end
        end
  end.

(** *** Numbers *)

Fixpoint span_digits (s : pystr) : pystr * pystr :=
  match s with
  | c :: s' =>
      if is_ascii_digit c then
        let '(ds, rest) := span_digits s' in (c :: ds, rest)
      else ([], s)
  | [] => ([], [])
  end.

Definition int_of_digits (ds : pystr) : Z :=
  fold_left (fun acc d => (10 * acc + Z.of_N (d - 48))%Z) ds 0%Z.

Definition signed_zero (neg : bool) : PrimFloat.float :=
  if neg then PrimFloat.neg_zero else PrimFloat.zero.

Definition signed_infinity (neg : bool) : PrimFloat.float :=
  if neg then PrimFloat.neg_infinity else PrimFloat.infinity.

Definition round_binary64 (neg : bool) (m e : Z) : PrimFloat.float :=
  match m with
  | Zpos p => SF2Prim (binary_round prec emax neg p e)
  | _ => signed_zero neg
  end.

(** The binary64 number nearest to [m * 10 ^ e10], ties to even, for a
    mantissa of [nd] decimal digits.  A quotient is taken with enough
    bits and a sticky bit, so that it is rounded once. *)
Definition float_of_decimal (neg : bool) (m : Z) (nd e10 : Z)
    : PrimFloat.float :=
  if (m =? 0)%Z then signed_zero neg
  else if (400 <? e10 + nd)%Z then signed_infinity neg
  else if (e10 + nd <? - 400)%Z then signed_zero neg
  else if (0 <=? e10)%Z then round_binary64 neg (m * 10 ^ e10) 0
  else
    let d := (10 ^ (- e10))%Z in
    let k := Z.max 0 (Z.log2 d - Z.log2 m + 70) in
    let q := (m * 2 ^ k / d)%Z in
    let sticky := if (m * 2 ^ k mod d =? 0)%Z then 0%Z else 1%Z in
    round_binary64 neg (2 * q + sticky) (- k - 1).

(** The integer part of a number: [0], or digits that start with a
    non-zero one. *)
Definition scan_int_part (s : pystr) : option (pystr * pystr) :=
  match s with
  | c :: r =>
      if c =? 48 then Some ([c], r)
      else if is_ascii_digit c then
        let '(ds, rest) := span_digits r in Some (c :: ds, rest)
      else None
  | [] => None
  end.

(** A fraction is a point followed by digits. *)
Definition scan_frac (s : pystr) : pystr * pystr :=
  match s with
  | 46 :: d :: r =>
      if is_ascii_digit d then span_digits (d :: r) else ([], s)
  | _ => ([], s)
  end.

(** An exponent is [e] or [E], a sign or none, and digits. *)
Definition scan_exp (s : pystr) : option (Z * pystr) :=
  match s with
  | e :: r =>
      if (e =? 101) || (e =? 69) then
        let '(neg, r') :=
          match r with
          | 45 :: x => (true, x)
          | 43 :: x => (false, x)
          | _ => (false, r)
          end in
        match span_digits r' with
        | ([], _) => None
        | (ds, rest) =>
            Some (if neg then (- int_of_digits ds)%Z else int_of_digits ds,
                  rest)
        end
      else None
  | [] => None
  end.

Definition scan_number (s : pystr) : option (json * pystr) :=
  let '(neg, s1) :=
    match s with
    | 45 :: r => (true, r)
    | _ => (false, s)
    end in
  '(ip, s2) ← scan_int_part s1;
  let '(fp, s3) := scan_frac s2 in
  let ex := scan_exp s3 in
  match fp, ex with
  | [], None =>
      Some (JInt (if neg then - int_of_digits ip else int_of_digits ip)%Z,
            s3)
  | _, _ =>
      let '(e, s4) := default (0%Z, s3) ex in
      let m := int_of_digits (ip ++ fp) in
      let nd := Z.of_nat (length (ip ++ fp)) in
      Some (JFloat (float_of_decimal neg m nd (e - Z.of_nat (length fp))), s4)
  end.

(** *** Values *)

Fixpoint strip_prefix (prefix s : pystr) : option pystr :=
  match prefix, s with
  | [], _ => Some s
  | c :: prefix', d :: s' => if c =? d then strip_prefix prefix' s' else None
  | _ :: _, [] => None
  end.

(** [d[k] = v] on the items of a [dict]. *)
Fixpoint dict_set (kvs : list (pystr * json)) (k : pystr) (v : json)
    : list (pystr * json) :=
  match kvs with
  | [] => [(k, v)]
  | (k', v') :: kvs' =>
      if str_eqb k' k then (k', v) :: kvs' else (k', v') :: dict_set kvs' k v
  end.

Definition constants : list (pystr * json) :=
  [(py "null", JNull); (py "true", JBool true); (py "false", JBool false);
   (py "NaN", JFloat PrimFloat.nan);
   (py "Infinity", JFloat PrimFloat.infinity);
   (py "-Infinity", JFloat PrimFloat.neg_infinity)].

Fixpoint scan_constant (cs : list (pystr * json)) (s : pystr)
    : option (json * pystr) :=
  match cs with
  | [] => None
  | (name, v) :: cs' =>
      match strip_prefix name s with
      | Some rest => Some (v, rest)
      | None => scan_constant cs' s
      end
  end.

(** The value at the start of [s] and what follows it.  [fuel] bounds
    the number of nested calls, each of which consumes a character. *)
Fixpoint scan_once (fuel : nat) (s : pystr) : result (json * pystr) :=
  match fuel with
  | O => Raise RecursionError
  | S fuel =>
      match s with
      | [] => Raise JSONDecodeError
      | c :: r =>
          if c =? 34 then
            '(t, rest) ← scanstring r; Ok (JStr t, rest)
          else if c =? 123 then
            match skip_ws r with
            | 125 :: rest => Ok (JObj [], rest)
            | r' => scan_members fuel r' []
            end
          else if c =? 91 then
            match skip_ws r with
            | 93 :: rest => Ok (JArr [], rest)
            | r' => scan_elements fuel r' []
            end
          else
            match scan_constant constants s with
            | Some res => Ok res
            | None =>
                match scan_number s with
                | Some res => Ok res
                | None => Raise JSONDecodeError
                end
            end
      end
  end
with scan_elements (fuel : nat) (s : pystr) (acc : list json)
    : result (json * pystr) :=
  match fuel with
  | O => Raise RecursionError
  | S fuel =>
      '(v, rest) ← scan_once fuel s;
      match skip_ws rest with
      | 93 :: rest' => Ok (JArr (acc ++ [v]), rest')
      | 44 :: rest' => scan_elements fuel (skip_ws rest') (acc ++ [v])
      | _ => Raise JSONDecodeError
      end
  end
with scan_members (fuel : nat) (s : pystr) (acc : list (pystr * json))
    : result (json * pystr) :=
  match fuel with
  | O => Raise RecursionError
  | S fuel =>
      match s with
      | 34 :: r =>
          '(k, rest) ← scanstring r;
          match skip_ws rest with
          | 58 :: rest' =>
              '(v, rest'') ← scan_once fuel (skip_ws rest');
              match skip_ws rest'' with
              | 125 :: rest3 => Ok (JObj (dict_set acc k v), rest3)
              | 44 :: rest3 =>
                  scan_members fuel (skip_ws rest3) (dict_set acc k v)
              | _ => Raise JSONDecodeError
              end
          | _ => Raise JSONDecodeError
          end
      | _ => Raise JSONDecodeError
      end
  end.

(** [JSONDecoder().decode(s)]: one value, white space around it. *)
Definition decode (s : pystr) : result json :=
  '(v, rest) ← scan_once (2 * length s + 2) (skip_ws s);
  match skip_ws rest with
  | [] => Ok v
  | _ => Raise JSONDecodeError
  end.

(** [json.load(f)] for a file that reads as [s]: a byte order mark is
    refused. *)
Definition load (s : pystr) : result json :=
  match s with
  | 65279 :: _ => Raise JSONDecodeError
  | _ => decode s
  end.

(** *** Documents given as [bytes]

    [json.loads] finds the encoding of a [bytes] document from its
    first octets and decodes it with the ["surrogatepass"] handler. *)
Inductive encoding :=
| utf_8 | utf_8_sig | utf_16 | utf_16_be | utf_16_le
| utf_32 | utf_32_be | utf_32_le.

Definition is_x00 (b : byte) : bool := Byte.to_N b =? 0.

Definition detect_encoding (b : bytes) : encoding :=
  match b with
  | x00 :: x00 :: xfe :: xff :: _ | xff :: xfe :: x00 :: x00 :: _ => utf_32
  | xfe :: xff :: _ | xff :: xfe :: _ => utf_16
  | xef :: xbb :: xbf :: _ => utf_8_sig
  | b0 :: b1 :: b2 :: b3 :: _ =>
      if is_x00 b0 then (if is_x00 b1 then utf_32_be else utf_16_be)
      else if is_x00 b1 then
        (if is_x00 b2 && is_x00 b3 then utf_32_le else utf_16_le)
      else utf_8
  | [b0; b1] =>
      if is_x00 b0 then utf_16_be
      else if is_x00 b1 then utf_16_le
      else utf_8
  | _ => utf_8
  end.

(** The 16-bit units of a document, most significant octet first when
    [big]. *)
Fixpoint units16 (big : bool) (b : bytes) : result (list N) :=
  match b with
  | [] => Ok []
  | b0 :: b1 :: r =>
      us ← units16 big r;
      let '(hi, lo) := if big then (b0, b1) else (b1, b0) in
      Ok (Byte.to_N hi * 256 + Byte.to_N lo :: us)
  | [_] => Raise UnicodeDecodeError
  end.

(** Surrogate pairs are joined; a surrogate alone passes. *)
Fixpoint join_units16 (us : list N) : pystr :=
  match us with
  | [] => []
  | u :: us' =>
      match us' with
      | u' :: us'' =>
          if is_high_surrogate u && is_low_surrogate u'
          then join_surrogates u u' :: join_units16 us''
          else u :: join_units16 us'
      | [] => [u]
      end
  end.

Definition decode_utf16 (big : bool) (b : bytes) : result pystr :=
  join_units16 <$> units16 big b.

Fixpoint decode_utf32 (big : bool) (b : bytes) : result pystr :=
  match b with
  | [] => Ok []
  | b0 :: b1 :: b2 :: b3 :: r =>
      let '(n3, n2, n1, n0) :=
        if big then (b0, b1, b2, b3) else (b3, b2, b1, b0) in
      let c := ((Byte.to_N n3 * 256 + Byte.to_N n2) * 256 + Byte.to_N n1)
               * 256 + Byte.to_N n0 in
      if c <? 1114112 then s ← decode_utf32 big r; Ok (c :: s)
      else Raise UnicodeDecodeError
  | _ => Raise UnicodeDecodeError
  end.

Definition decode_bytes (b : bytes) : result pystr :=
  match detect_encoding b with
  | utf_8 => decode_utf8_with true b
  | utf_8_sig => decode_utf8_with true (skipn 3 b)
  | utf_16 =>
      decode_utf16 (match b with xfe :: _ => true | _ => false end)
        (skipn 2 b)
  | utf_16_be => decode_utf16 true b
  | utf_16_le => decode_utf16 false b
  | utf_32 =>
      decode_utf32 (match b with x00 :: _ => true | _ => false end)
        (skipn 4 b)
  | utf_32_be => decode_utf32 true b
  | utf_32_le => decode_utf32 false b
  end.

(** [json.loads(b)] for a [bytes] object. *)
Definition loads (b : bytes) : result json :=
  decode_bytes b ≫= decode.

Definition json_module : JsonModule :=
  {| json_loads := loads; json_load := load |}.
End RefJson.

(** ** AES-GCM

    The AEAD of NIST SP 800-38D over the block cipher of FIPS 197, with
    the interface of the [AESGCM] class: keys of 128, 192 or 256 bits,
    nonces of 8 to 128 octets, a tag of 16 octets after the ciphertext.
    The limits of the class on the size of the data are not part of it. *)
Module RefAesGcm.
(** *** The block cipher *)

(** Multiplication by [x] and by any element in GF(2^8). *)
Definition xtime (a : N) : N :=
  N.lxor ((2 * a) mod 256) (if 128 <=? a then 27 else 0).

Fixpoint gmul_loop (n : nat) (a b acc : N) : N :=
  match n with
  | O => acc
  | S n' =>
      gmul_loop n' (xtime a) (b / 2)
        (if N.odd b then N.lxor acc a else acc)
  end.

Definition gmul (a b : N) : N := gmul_loop 8 a b 0.

(** The inverse in GF(2^8), zero for zero: the power 254. *)
Definition ginv (a : N) : N :=
  let a2 := gmul a a in
  let a4 := gmul a2 a2 in
  let a8 := gmul a4 a4 in
  let a16 := gmul a8 a8 in
  let a32 := gmul a16 a16 in
  let a64 := gmul a32 a32 in
  let a128 := gmul a64 a64 in
  gmul a128 (gmul a64 (gmul a32 (gmul a16 (gmul a8 (gmul a4 a2))))).

Definition rotl8 (b : N) (k : N) : N :=
  (N.shiftl b k mod 256) + N.shiftr b (8 - k).

Definition sbox_of (a : N) : N :=
  let b := ginv a in
  N.lxor b (N.lxor (rotl8 b 1) (N.lxor (rotl8 b 2)
    (N.lxor (rotl8 b 3) (N.lxor (rotl8 b 4) 99)))).

Definition sbox_table : list N :=
  Eval vm_compute in map (fun i => sbox_of (N.of_nat i)) (seq 0 256).

Definition sbox (a : N) : N := nth (N.to_nat a) sbox_table 0.

Definition xor_bytes (a b : list N) : list N :=
  map (fun p => N.lxor (fst p) (snd p)) (combine a b).

(** **** Key expansion *)

Definition rcon : list N := [1; 2; 4; 8; 16; 32; 64; 128; 27; 54].

Definition rot_word (w : list N) : list N :=
  match w with
  | a :: r => r ++ [a]
  | [] => []
  end.

Fixpoint words (bs : list N) : list (list N) :=
  match bs with
  | a :: b :: c :: d :: r => [a; b; c; d] :: words r
  | _ => []
  end.

(** The words [w[i]], [w[i+1]], ... of the schedule, [n] of them, after
    the words [ws] already there. *)
Fixpoint expand (n : nat) (nk i : nat) (ws : list (list N))
    : list (list N) :=
  match n with
  | O => ws
  | S n' =>
      let temp := nth (i - 1) ws [] in
      let temp :=
        if (i mod nk =? 0)%nat then
          xor_bytes (map sbox (rot_word temp))
            [nth (i / nk - 1) rcon 0; 0; 0; 0]
        else if (6 <? nk)%nat && (i mod nk =? 4)%nat then map sbox temp
        else temp in
      expand n' nk (S i) (ws ++ [xor_bytes (nth (i - nk) ws []) temp])
  end.

(** The round keys of a key of [4 * nk] octets: [nk + 7] of them. *)
Definition key_expansion (key : list N) : list (list N) :=
  let nk := (length key / 4)%nat in
  let w := expand (4 * (nk + 7) - nk) nk nk (words key) in
  (fix round_keys (n : nat) (w : list (list N)) : list (list N) :=
     match n with
     | O => []
     | S n' => concat (firstn 4 w) :: round_keys n' (skipn 4 w)
     end) (nk + 7)%nat w.

(** **** Rounds *)

Definition shift_rows (st : list N) : list N :=
  map (fun i => nth ((i mod 4) + 4 * ((i / 4 + i mod 4) mod 4)) st 0)
    (seq 0 16).

Definition mix_column (col : list N) : list N :=
  match col with
  | [a0; a1; a2; a3] =>
      [N.lxor (gmul 2 a0) (N.lxor (gmul 3 a1) (N.lxor a2 a3));
       N.lxor a0 (N.lxor (gmul 2 a1) (N.lxor (gmul 3 a2) a3));
       N.lxor a0 (N.lxor a1 (N.lxor (gmul 2 a2) (gmul 3 a3)));
       N.lxor (gmul 3 a0) (N.lxor a1 (N.lxor a2 (gmul 2 a3)))]
  | _ => col
  end.

Definition mix_columns (st : list N) : list N :=
  concat (map mix_column (words st)).

Fixpoint rounds (st : list N) (rks : list (list N)) : list N :=
  match rks with
  | [] => st
  | [rk] => xor_bytes (shift_rows (map sbox st)) rk
  | rk :: rks' =>
      rounds (xor_bytes (mix_columns (shift_rows (map sbox st))) rk) rks'
  end.

(** The cipher on a block of 16 octets, from the round keys. *)
Definition cipher (rks : list (list N)) (block : list N) : list N :=
  match rks with
  | rk0 :: rks' => rounds (xor_bytes block rk0) rks'
  | [] => block
  end.

(** *** Blocks as numbers *)

Definition N_of_octets (bs : list N) : N :=
  fold_left (fun acc b => acc * 256 + b) bs 0.

(** The [n] octets of [x], most significant first. *)
Fixpoint octets_of_N (n : nat) (x : N) : list N :=
  match n with
  | O => []
  | S n' => (x / 256 ^ N.of_nat n') mod 256 :: octets_of_N n' x
  end.

Definition encrypt_block (rks : list (list N)) (x : N) : N :=
  N_of_octets (cipher rks (octets_of_N 16 x)).

(** *** GHASH *)

Definition R : N := 225 * 2 ^ 120.

Fixpoint gf128_loop (n : nat) (x z v : N) : N :=
  match n with
  | O => z
  | S n' =>
      gf128_loop n' x
        (if N.testbit x (N.of_nat n') then N.lxor z v else z)
        (if N.odd v then N.lxor (v / 2) R else v / 2)
  end.

(** The product in GF(2^128), bit 127 being the coefficient of 1. *)
Definition gf128_mul (x y : N) : N := gf128_loop 128 x 0 y.

Definition ghash (hkey : N) (blocks : list N) : N :=
  fold_left (fun y x => gf128_mul (N.lxor y x) hkey) blocks 0.

(** The blocks of a string of octets, the last one padded with zeros. *)
Fixpoint blocks_loop (fuel : nat) (bs : list N) : list N :=
  match fuel, bs with
  | S fuel', _ :: _ =>
      let chunk := firstn 16 bs in
      N_of_octets chunk * 256 ^ N.of_nat (16 - length chunk)
      :: blocks_loop fuel' (skipn 16 bs)
  | _, _ => []
  end.

Definition blocks (bs : list N) : list N := blocks_loop (length bs) bs.

Definition bit_length {A} (bs : list A) : N := 8 * N.of_nat (length bs).

(** *** GCM *)

Definition inc32 (x : N) : N :=
  (x / 2 ^ 32) * 2 ^ 32 + (x mod 2 ^ 32 + 1) mod 2 ^ 32.

Definition block_bytes (x : N) : bytes := map byte_of_N (octets_of_N 16 x).

Definition byte_xor (a b : byte) : byte :=
  byte_of_N (N.lxor (Byte.to_N a) (Byte.to_N b)).

(** Counter mode: [ks] is what is left of the key stream block in use,
    [cb] the counter block that gives the next one. *)
Fixpoint gctr (rks : list (list N)) (cb : N) (ks : bytes) (data : bytes)
    : bytes :=
  match data with
  | [] => []
  | d :: data' =>
      match ks with
      | k :: ks' => byte_xor d k :: gctr rks cb ks' data'
      | [] =>
          match block_bytes (encrypt_block rks cb) with
          | k :: ks' => byte_xor d k :: gctr rks (inc32 cb) ks' data'
          | [] => []
          end
      end
  end.

Definition j0 (hkey : N) (nonce : list N) : N :=
  if (length nonce =? 12)%nat then N_of_octets nonce * 2 ^ 32 + 1
  else ghash hkey (blocks nonce ++ [bit_length nonce]).

Definition octets (b : bytes) : list N := map Byte.to_N b.

Definition gcm_tag (rks : list (list N)) (nonce aad ct : bytes) : bytes :=
  let hkey := encrypt_block rks 0 in
  let s := ghash hkey (blocks (octets aad) ++ blocks (octets ct)
                       ++ [bit_length aad * 2 ^ 64 + bit_length ct]) in
  block_bytes (N.lxor s (encrypt_block rks (j0 hkey (octets nonce)))).

Definition gcm_crypt (rks : list (list N)) (nonce data : bytes) : bytes :=
  let hkey := encrypt_block rks 0 in
  gctr rks (inc32 (j0 hkey (octets nonce))) [] data.

(** *** The class *)

(** An [AESGCM] object holds its key. *)
Definition new (key : bytes) : result bytes :=
  if bool_decide (length key ∈ [16; 24; 32]%nat) then Ok key
  else Raise ValueError.

Definition check_nonce (nonce : bytes) : result unit :=
  if ((8 <=? length nonce) && (length nonce <=? 128))%nat then Ok tt
  else Raise ValueError.

Definition encrypt (key nonce data : bytes) (aad : option bytes)
    : result bytes :=
  _ ← check_nonce nonce;
  let rks := key_expansion (octets key) in
  let ct := gcm_crypt rks nonce data in
  Ok (ct ++ gcm_tag rks nonce (default [] aad) ct).

Definition decrypt (key nonce data : bytes) (aad : option bytes)
    : result bytes :=
  _ ← check_nonce nonce;
  if (length data <? 16)%nat then Raise InvalidTag
  else
    let rks := key_expansion (octets key) in
    let ct := firstn (length data - 16) data in
    let tag := skipn (length data - 16) data in
    if bool_decide (gcm_tag rks nonce (default [] aad) ct = tag)
    then Ok (gcm_crypt rks nonce ct)
    else Raise InvalidTag.

Definition aesgcm_module : AesGcmModule :=
  {| aesgcm := bytes; AESGCM_new := new;
     AESGCM_decrypt := decrypt; AESGCM_encrypt := encrypt |}.
End RefAesGcm.


(** * Reference definitions taken from the specification *)

(** ** The transformation of the name deriver, as the specification words it *)

Section DeriveSpec.
Context {UD : UnicodeData}.

(** "uppercase; replace every character that is not alphanumeric with an
    underscore; collapse": what [secret_name_to_env_var] does to the name. *)
Definition transform (s : pystr) : pystr :=
  collapse_underscores (replace_non_alnum (upper s)).

(** "If a prefix is supplied, apply the identical transformation to the
    prefix, and prepend it followed by a single underscore." *)
Definition derive_spec (secret_name : pystr) (prefix : option pystr) : pystr :=
  match prefix with
  | Some (c :: p) => transform (c :: p) ++ [underscore] ++ transform secret_name
  | _ => transform secret_name
  end.

(** "replace every character that is not an ASCII letter or digit with an
    underscore" *)
Definition replace_non_ascii_alnum (s : pystr) : pystr :=
  map (fun c => if is_ascii_alnum c then c else underscore) s.
End DeriveSpec.

(** ** Encryption

    Modelled from the spec: the encryption routine ("only needed for test
    fixtures") is not in the module; it belongs to the application that
    writes the session files.  It is the inverse of the steps of
    [decrypt_secret]: encode the text as UTF-8, seal it with AES-GCM under
    the key and a nonce without associated data, split the result into
    the ciphertext and the 16 octets of the tag, serialise the structure
    of the three byte arrays [cipher], [nonce], [tag] as JSON, and encode
    that in hexadecimal. *)

Definition hex_digit_of (n : N) : codepoint :=
  if n <? 10 then 48 + n else 87 + n.

(** [b.hex()] *)
Definition hex (b : bytes) : pystr :=
  flat_map (fun x => [hex_digit_of (Byte.to_N x / 16);
                      hex_digit_of (Byte.to_N x mod 16)]) b.

(** The decimal digits of an octet. *)
Definition decimal (n : N) : pystr :=
  if n <? 10 then [48 + n]
  else if n <? 100 then [48 + n / 10; 48 + n mod 10]
  else [48 + n / 100; 48 + (n / 10) mod 10; 48 + n mod 10].

Definition digits (x : byte) : pystr := decimal (Byte.to_N x).

(** A byte array as a JSON array of numbers, without white space. *)
Definition dumps_bytes (b : bytes) : pystr :=
  [91] ++ join [44] (map digits b) ++ [93].

(** A member of a JSON object: the name in quotes, a colon, the value. *)
Definition dumps_member (name : string) (value : pystr) : pystr :=
  [34] ++ py name ++ [34; 58] ++ value.

Definition dumps_encrypted_data (cipher nonce tag : bytes) : pystr :=
  [123] ++ dumps_member "cipher" (dumps_bytes cipher)
  ++ [44] ++ dumps_member "nonce" (dumps_bytes nonce)
  ++ [44] ++ dumps_member "tag" (dumps_bytes tag) ++ [125].

(** The value that a JSON reader builds from that text. *)
Definition item (x : byte) : json := JInt (Z.of_N (Byte.to_N x)).

Definition json_of_bytes (b : bytes) : json := JArr (map item b).

(** The text has ASCII characters only. *)
Definition is_ascii (s : pystr) : bool := forallb (fun c => c <? 128) s.

Definition encrypted_data_value (cipher nonce tag : bytes) : json :=
  JObj [(py "cipher", json_of_bytes cipher);
        (py "nonce", json_of_bytes nonce);
        (py "tag", json_of_bytes tag)].

Section Encrypt.
Context {AG : AesGcmModule}.

Definition encrypt (plaintext : pystr) (key nonce : bytes) : result pystr :=
  data ← encode_utf8 plaintext;
  aesgcm ← AESGCM_new key;
  sealed ← AESGCM_encrypt aesgcm nonce data None;
  let n := (length sealed - 16)%nat in
  let cipher := take n sealed in
  let tag := drop n sealed in
  let serialized := map byte_of_N (dumps_encrypted_data cipher nonce tag) in
  Ok (hex serialized).
End Encrypt.

(** ** The failures of decryption, as the specification lists them

    "fails when: the hex decoding fails, the decoded bytes do not parse as
    the expected three-field structure, the AEAD authentication check
    fails (wrong key, corrupted ciphertext, or tampered tag), or the
    resulting bytes are not valid UTF-8 text."  Each is the failure of one
    stage of [decrypt_secret], the stages before it having succeeded. *)
Section Failures.
Context {JM : JsonModule} {AG : AesGcmModule}.

(** The three fields of the serialised structure, as byte arrays. *)
Definition components (serialized : bytes) : result (bytes * bytes * bytes) :=
  encrypted_data ← json_loads serialized;
  cipher ← getitem encrypted_data (py "cipher") ≫= py_bytes;
  nonce ← getitem encrypted_data (py "nonce") ≫= py_bytes;
  tag ← getitem encrypted_data (py "tag") ≫= py_bytes;
  Ok (cipher, nonce, tag).

(** The authenticated decryption of [cipher || tag] under the key. *)
Definition open_sealed (key nonce cipher tag : bytes) : result bytes :=
  aesgcm ← AESGCM_new key;
  AESGCM_decrypt aesgcm nonce (cipher ++ tag) None.

Definition hex_decoding_fails (payload : pystr) : Prop :=
  raises (fromhex payload).

Definition structure_fails (payload : pystr) : Prop :=
  exists serialized,
    fromhex payload = Ok serialized /\ raises (components serialized).

Definition authentication_fails (payload : pystr) (key : bytes) : Prop :=
  exists serialized cipher nonce tag,
    fromhex payload = Ok serialized
    /\ components serialized = Ok (cipher, nonce, tag)
    /\ raises (open_sealed key nonce cipher tag).

Definition not_utf8 (payload : pystr) (key : bytes) : Prop :=
  exists serialized cipher nonce tag decrypted,
    fromhex payload = Ok serialized
    /\ components serialized = Ok (cipher, nonce, tag)
    /\ open_sealed key nonce cipher tag = Ok decrypted
    /\ raises (decode_utf8 decrypted).
End Failures.

(** ** The entry that decides the value of a variable

    The loop of [run] writes the environment entry by entry, so a later
    entry overwrites an earlier one that derives the same name.
    [last_for key prefix kvs i var]: no entry after the [i]-th decrypts
    and derives the name [var]. *)
Section LastWriter.
Context {UD : UnicodeData} {JM : JsonModule} {AG : AesGcmModule}.

Definition last_for (key : bytes) (prefix : option pystr)
    (kvs : list (pystr * json)) (i : nat) (var : pystr) : Prop :=
  forall j name payload value,
    (i < j)%nat -> kvs !! j = Some (name, payload) ->
    decrypt_secret_of payload key = Ok value ->
    secret_name_to_env_var name prefix <> var.
End LastWriter.

(** ** What the round trip needs of the imported modules *)

(** The AEAD opens what it sealed: with a key of 256 bits the object is
    built, with a nonce of 96 bits it seals, and it opens the result under
    the same nonce to the same data. *)
Class AesGcmLaws (AG : AesGcmModule) : Prop := {
  aesgcm_new_256 : forall key,
    length key = 32%nat -> exists a, AESGCM_new key = Ok a;
  aesgcm_seals : forall a nonce data,
    length nonce = 12%nat ->
    exists sealed, AESGCM_encrypt a nonce data None = Ok sealed;
  aesgcm_opens : forall a nonce data sealed,
    AESGCM_encrypt a nonce data None = Ok sealed ->
    AESGCM_decrypt a nonce sealed None = Ok data
}.

(** The JSON reader reads the serialised structure back. *)
Class JsonLaws (JM : JsonModule) : Prop := {
  json_loads_encrypted_data : forall cipher nonce tag,
    json_loads (map byte_of_N (dumps_encrypted_data cipher nonce tag))
    = Ok (encrypted_data_value cipher nonce tag)
}.

(** * Concrete sessions and file systems

    Inputs on which the code is evaluated, with the reference
    implementations of the interfaces.  The payloads were sealed with
    AES-256-GCM under [key] and are the hexadecimal form of the serialised
    structure. *)
Module Examples.

(** A text written with an apostrophe where it has a quotation mark. *)
Definition text (s : string) : pystr :=
  map (fun c => if c =? 39 then 34 else c) (py s).

Definition key_hex : string :=
  "000102030405060708090a0b0c0d0e0f101112131415161718191a1b1c1d1e1f".

Definition key : bytes := map (fun i => byte_of_N (N.of_nat i)) (seq 0 32).

(** The nonces used to seal the four payloads. *)
Definition nonce_from (n : nat) : bytes :=
  map (fun i => byte_of_N (N.of_nat i)) (seq n 12).

(** ["hunter2"], sealed with the nonce [a0 .. ab]. *)
Definition payload_hunter2 : string :=
  "7b22636970686572223a5b3134322c3130392c31382c38392c33322c3138352c34385d2c226e6f6e6365223a5b3136302c3136312c3136322c3136332c3136342c3136352c3136362c3136372c3136382c3136392c3137302c3137315d2c22746167223a5b33392c3230332c3232392c3137302c32372c3131362c3235312c32322c3138302c3130382c3234392c3130332c3234332c3230322c3134322c3136335d7d".

(** ["s3cr3t"], sealed with the nonce [b0 .. bb]. *)
Definition payload_s3cr3t : string :=
  "7b22636970686572223a5b3233342c3130322c35372c3231372c3232332c3138355d2c226e6f6e6365223a5b3137362c3137372c3137382c3137392c3138302c3138312c3138322c3138332c3138342c3138352c3138362c3138375d2c22746167223a5b3139312c39362c3131332c3138392c3138312c3132302c3131352c3232332c39332c3231312c3235322c3135342c3230362c3136342c34312c31345d7d".

(** ["first"], sealed with the nonce [c0 .. cb]. *)
Definition payload_first : string :=
  "7b22636970686572223a5b3130322c33332c38352c32302c335d2c226e6f6e6365223a5b3139322c3139332c3139342c3139352c3139362c3139372c3139382c3139392c3230302c3230312c3230322c3230335d2c22746167223a5b3137322c3135392c38302c3235332c39392c302c3234362c3137382c3232382c34352c3235352c3136392c3131372c38372c3133382c37375d7d".

(** ["second"], sealed with the nonce [d0 .. db]. *)
Definition payload_second : string :=
  "7b22636970686572223a5b39352c3139342c3133332c312c362c3139355d2c226e6f6e6365223a5b3230382c3230392c3231302c3231312c3231322c3231332c3231342c3231352c3231362c3231372c3231382c3231395d2c22746167223a5b3231392c3130322c3133382c39322c31362c35352c36312c3133382c3132362c3231342c322c3137352c32362c3137382c35312c3134365d7d".

Definition session (secrets : list (pystr * json)) : SessionFile :=
  {| session_name := JStr (py "dev"); box_name := JStr (py "work");
     session_key := key; encrypted_secrets := JObj secrets;
     created_at := JStr (py "2025-01-02T00:00:00Z") |}.

(** Three secrets, the second of which is not a payload. *)
Definition session_one_corrupt : SessionFile :=
  session [(py "db password", JStr (py payload_hunter2));
           (py "broken", JStr (py "zz"));
           (py "api--key!!", JStr (py payload_s3cr3t))].

(** Two secrets whose names derive the same variable name. *)
Definition session_collision : SessionFile :=
  session [(py "api-key", JStr (py payload_first));
           (py "api_key", JStr (py payload_second))].

(** A host and its files. *)
Definition linux : host :=
  {| sys_platform := Linux; Path_home := [py "home"; py "dev"];
     APPDATA := None;
     Path_cwd := [py "home"; py "dev"; py "project"] |}.

Definition sessions_dir : path :=
  [py "home"; py "dev"; py ".config"; py "com.devtool.zap"; py "sessions"].

Definition session_text (name key_hex created_at : string) : pystr :=
  text "{'session_name':'" ++ py name
  ++ text "','box_name':'work','session_key':'" ++ py key_hex
  ++ text "','encrypted_secrets':{},'created_at':'" ++ py created_at
  ++ text "'}".

Definition dev_json : pystr := session_text "dev" key_hex "2025-01-02T00:00:00Z".
Definition old_json : pystr := session_text "old" key_hex "2024-06-30T12:00:00Z".

(** A session file whose key is not hexadecimal. *)
Definition badkey_json : pystr := session_text "bad" "zz" "2025-01-01T00:00:00Z".

Definition zap_json : pystr :=
  text "{'app':'zap','current_session':'dev','available_secrets':[]}".

(** The sessions directory with two well-formed files and one that is not
    JSON, and a project bound to the session [dev]. *)
Definition fs_garbage : filesystem :=
  [(sessions_dir, Dir);
   (sessions_dir ++ [py "old.json"], File (Text old_json));
   (sessions_dir ++ [py "garbage.json"], File (Text (py "{not json")));
   (sessions_dir ++ [py "dev.json"], File (Text dev_json));
   (Path_cwd linux ++ [py "zap.json"], File (Text zap_json))].

(** The same with a file whose key is not hexadecimal in the place of
    the one that is not JSON. *)
Definition fs_badkey : filesystem :=
  [(sessions_dir, Dir);
   (sessions_dir ++ [py "old.json"], File (Text old_json));
   (sessions_dir ++ [py "bad.json"], File (Text badkey_json));
   (sessions_dir ++ [py "dev.json"], File (Text dev_json))].

(** A project file without the key [current_session], and one with that
    key only. *)
Definition fs_zap (content : string) : filesystem :=
  [(Path_cwd linux ++ [py "zap.json"], File (Text (text content)))].

End Examples.

(** * The other commands

    [start], [list], [use], [run] as a whole, [clear] and [status], with
    [ProjectContext.save].  What they take from outside is an interface
    again: the formatting of the values that are not strings,
    [json.dump], and the process around the command (what it may write,
    its environment, its children and its user). *)

(** ** More of Python's values *)

(** The truth value of a value: [None], [False], zero and the empty
    string, list and [dict] are false. *)
Definition py_bool (v : json) : bool :=
  match v with
  | JNull => false
  | JBool b => b
  | JInt z => negb (z =? 0)%Z
  | JFloat f => negb (PrimFloat.eqb f PrimFloat.zero)
  | JStr [] | JArr [] | JObj [] => false
  | JStr _ | JArr _ | JObj _ => true
  end.

(** [len(v)]: strings, lists and [dict] objects have a length. *)
Definition len (v : json) : result nat :=
  match v with
  | JStr s => Ok (length s)
  | JArr items => Ok (length items)
  | JObj kvs => Ok (length kvs)
  | _ => Raise TypeError
  end.

(** [d.keys()]: only a [dict] has the method. *)
Definition keys (d : json) : result (list pystr) :=
  match d with
  | JObj kvs => Ok (map fst kvs)
  | _ => Raise AttributeError
  end.

(** What [for x in v] goes through: the elements of a list, the keys of
    a [dict], the characters of a string. *)
Definition iter (v : json) : result (list json) :=
  match v with
  | JArr items => Ok items
  | JObj kvs => Ok (map (fun kv => JStr (fst kv)) kvs)
  | JStr s => Ok (map (fun c => JStr [c]) s)
  | _ => Raise TypeError
  end.

(** [str(v)], as an f-string formats a value: a string is itself;
    for the other values [str] is [repr], which needs the shortest
    decimal of a [float] and the table of the printable characters, and
    is an interface like the other tables. *)
Class Formatting := {
  str_other : json -> pystr
}.

Definition str {FM : Formatting} (v : json) : pystr :=
  match v with
  | JStr s => s
  | _ => str_other v
  end.

(** [xs.sort()] for a list of strings: ascending, stable. *)
Fixpoint insert_str (x : pystr) (xs : list pystr) : list pystr :=
  match xs with
  | [] => [x]
  | y :: ys => if str_ltb y x then y :: insert_str x ys else x :: y :: ys
  end.

Definition sort (xs : list pystr) : list pystr := foldr insert_str [] xs.

(** ** Writing a file

    [json.dump(obj, f, indent=indent)] is an interface as [json.load]
    is: [json_dump obj indent] is the text that the call writes to the
    file and the exception that ends it, if one does. *)
Class JsonDumpModule := {
  json_dump : json -> nat -> pystr * option exn
}.

(** What the process has around it: whether a path can be opened for
    writing, [os.environ], [subprocess.run(args, env=env, check=check)]
    with the return code of the child as its result, [subprocess.Popen],
    and the answer to [click.confirm(text)]. *)
Class System := {
  can_write : path -> bool;
  os_environ : environ;
  subprocess_run : list pystr -> option environ -> bool -> result Z;
  subprocess_Popen : list pystr -> result unit;
  click_confirm : pystr -> result bool
}.

(** ** Numbers as text *)

(** The decimal digits of a natural number. *)
Fixpoint uint_codes (d : Decimal.uint) : pystr :=
  match d with
  | Decimal.Nil => []
  | Decimal.D0 d => 48 :: uint_codes d
  | Decimal.D1 d => 49 :: uint_codes d
  | Decimal.D2 d => 50 :: uint_codes d
  | Decimal.D3 d => 51 :: uint_codes d
  | Decimal.D4 d => 52 :: uint_codes d
  | Decimal.D5 d => 53 :: uint_codes d
  | Decimal.D6 d => 54 :: uint_codes d
  | Decimal.D7 d => 55 :: uint_codes d
  | Decimal.D8 d => 56 :: uint_codes d
  | Decimal.D9 d => 57 :: uint_codes d
  end.

(** [str(n)] for a natural number. *)
Definition str_of_N (n : N) : pystr := uint_codes (N.to_uint n).

(** [str(n)] for the length of a collection. *)
Definition str_of_nat (n : nat) : pystr := str_of_N (N.of_nat n).

(** [repr(z)] for an integer. *)
Definition int_repr (z : Z) : pystr :=
  match z with
  | Zneg p => 45 :: str_of_N (Npos p)
  | _ => str_of_N (Z.to_N z)
  end.

(** ** [repr] of a float

    The shortest decimal that reads back as the number, and among those
    the nearest to it (ties to the even digit); fixed notation for the
    exponents from -4 to 15, scientific notation otherwise. *)
Module RefFloat.

(** [x < 10 ^ k] for [x = num / den]. *)
Definition lt_pow10 (num den k : Z) : bool :=
  if (0 <=? k)%Z then (num <? den * 10 ^ k)%Z
  else (num * 10 ^ (- k) <? den)%Z.

(** The least [k] from [k0] on with [x < 10 ^ k]. *)
Fixpoint decpt_from (fuel : nat) (num den k : Z) : Z :=
  match fuel with
  | O => k
  | S fuel =>
      if lt_pow10 num den k then k else decpt_from fuel num den (k + 1)%Z
  end.

Definition decpt (num den : Z) : Z :=
  let est := ((Z.log2 num - Z.log2 den) * 1233 / 4096)%Z in
  decpt_from 6 num den (est - 1)%Z.

(** The decimal [c * 10 ^ e10] reads back as [x]. *)
Definition reads_back (x : PrimFloat.float) (c n e10 : Z) : bool :=
  PrimFloat.eqb (RefJson.float_of_decimal false c n e10) x.

(** The digits of the shortest decimal with at least [n] digits, as a
    number [c] with [c * 10 ^ (k - n')] the decimal, [n'] digits. *)
Fixpoint shortest_from (fuel : nat) (x : PrimFloat.float) (num den k n : Z)
    : Z * Z :=
  let t := (n - k)%Z in
  let p := if (0 <=? t)%Z then (num * 10 ^ t)%Z else num in
  let q := if (0 <=? t)%Z then den else (den * 10 ^ (- t))%Z in
  let lo := (p / q)%Z in
  let r := (p mod q)%Z in
  match fuel with
  | O => (lo, n)
  | S fuel =>
      if (r =? 0)%Z then (lo, n)
      else
        let hi := (lo + 1)%Z in
        let dl := reads_back x lo n (k - n) in
        let dh := reads_back x hi n (k - n) in
        if dl && dh then
          if (2 * r <? q)%Z then (lo, n)
          else if (q <? 2 * r)%Z then (hi, n)
          else if Z.even lo then (lo, n) else (hi, n)
        else if dl then (lo, n)
        else if dh then (hi, n)
        else shortest_from fuel x num den k (n + 1)%Z
  end.

Fixpoint strip_zeros (fuel : nat) (c : Z) (dropped : Z) : Z * Z :=
  match fuel with
  | O => (c, dropped)
  | S fuel =>
      if ((c mod 10 =? 0) && negb (c =? 0))%Z
      then strip_zeros fuel (c / 10)%Z (dropped + 1)%Z
      else (c, dropped)
  end.

(** The digits of the number and the position of the decimal point
    after them: the value is [0.d1d2... * 10 ^ decpt]. *)
Definition digits_of (x : PrimFloat.float) (m : positive) (e : Z)
    : pystr * Z :=
  let num := if (0 <=? e)%Z then (Zpos m * 2 ^ e)%Z else Zpos m in
  let den := if (0 <=? e)%Z then 1%Z else (2 ^ (- e))%Z in
  let k := decpt num den in
  let '(c, n) := shortest_from 17 x num den k 1 in
  let '(c', _) := strip_zeros 20 c 0 in
  let ds := str_of_N (Z.to_N c') in
  (* a carry makes the number of digits before the stripping [n + 1] *)
  let k' := if (10 ^ n <=? c)%Z then (k + 1)%Z else k in
  (ds, k').

Definition zeros (n : Z) : pystr := repeat 48 (Z.to_nat n).

Definition format_short (ds : pystr) (k : Z) : pystr :=
  if ((k <=? -4) || (16 <? k))%Z then
    let e := (k - 1)%Z in
    let mant := match ds with
                | d :: (_ :: _) as rest => d :: 46 :: rest
                | _ => ds
                end in
    let ex := str_of_N (Z.to_N (Z.abs e)) in
    mant ++ [101; if (e <? 0)%Z then 45 else 43]
    ++ (match ex with [_] => [48] | _ => [] end) ++ ex
  else if (k <=? 0)%Z then [48; 46] ++ zeros (- k) ++ ds
  else if (Z.of_nat (length ds) <=? k)%Z then
    ds ++ zeros (k - Z.of_nat (length ds)) ++ [46; 48]
  else take (Z.to_nat k) ds ++ [46] ++ drop (Z.to_nat k) ds.

(** [repr(x)] *)
Definition repr (x : PrimFloat.float) : pystr :=
  match Prim2SF x with
  | S754_nan => py "nan"
  | S754_infinity s => if s then py "-inf" else py "inf"
  | S754_zero s => if s then py "-0.0" else py "0.0"
  | S754_finite s m e =>
      let '(ds, k) := digits_of (PrimFloat.abs x) m e in
      (if s then [45] else []) ++ format_short ds k
  end.
End RefFloat.

(** ** A JSON encoder

    [json.dump(obj, f, indent=indent)] with the other settings at their
    defaults: strings in ASCII with escapes, an item per line.  The
    interpreter's limits on nesting depth and on the number of digits of
    an integer are not part of it, so it raises nothing. *)
Module RefJsonDump.

Definition hex4_of (n : N) : pystr :=
  [hex_digit_of (n / 4096 mod 16); hex_digit_of (n / 256 mod 16);
   hex_digit_of (n / 16 mod 16); hex_digit_of (n mod 16)].

(** A backslash, [u], and four hexadecimal digits. *)
Definition u_escape (n : N) : pystr := [92; 117] ++ hex4_of n.

(** One character of a string: the escapes of [ESCAPE_DCT], the
    printable characters of ASCII as they are, the others as [u]
    escapes, in two halves beyond the basic plane. *)
Definition escape (c : codepoint) : pystr :=
  if c =? 34 then [92; 34]
  else if c =? 92 then [92; 92]
  else if c =? 10 then [92; 110]
  else if c =? 13 then [92; 114]
  else if c =? 9 then [92; 116]
  else if c =? 12 then [92; 102]
  else if c =? 8 then [92; 98]
  else if (32 <=? c) && (c <=? 126) then [c]
  else if c <? 65536 then u_escape c
  else
    let v := c - 65536 in
    u_escape (55296 + (v / 1024) mod 1024) ++ u_escape (56320 + v mod 1024).

(** [encode_basestring_ascii(s)] *)
Definition encode_string (s : pystr) : pystr :=
  [34] ++ flat_map escape s ++ [34].

Definition floatstr (f : PrimFloat.float) : pystr :=
  match Prim2SF f with
  | S754_nan => py "NaN"
  | S754_infinity s => if s then py "-Infinity" else py "Infinity"
  | _ => RefFloat.repr f
  end.

(** A new line and the indentation of a level. *)
Definition newline_indent (indent level : nat) : pystr :=
  10 :: repeat 32 (indent * level).

Fixpoint encode (indent level : nat) (v : json) : pystr :=
  match v with
  | JNull => py "null"
  | JBool true => py "true"
  | JBool false => py "false"
  | JInt z => int_repr z
  | JFloat f => floatstr f
  | JStr s => encode_string s
  | JArr [] => py "[]"
  | JArr items =>
      [91] ++ newline_indent indent (S level)
      ++ join (44 :: newline_indent indent (S level))
           (map (encode indent (S level)) items)
      ++ newline_indent indent level ++ [93]
  | JObj [] => py "{}"
  | JObj kvs =>
      [123] ++ newline_indent indent (S level)
      ++ join (44 :: newline_indent indent (S level))
           (map (fun kv => encode_string (fst kv) ++ [58; 32]
                           ++ encode indent (S level) (snd kv)) kvs)
      ++ newline_indent indent level ++ [125]
  end.

Definition dump (obj : json) (indent : nat) : pystr * option exn :=
  (encode indent 0 obj, None).

Definition json_dump_module : JsonDumpModule :=
  {| json_dump := dump |}.
End RefJsonDump.

(** ** [str] and [repr] of values

    [repr] of a string needs [str.isprintable], which is table driven
    beyond ASCII.  As for the other tables, the excerpt is Latin-1: the
    characters beyond U+00FF are taken as printable. *)
Module RefStr.
Definition isprintable (c : codepoint) : bool :=
  if c <? 128 then (32 <=? c) && (c <=? 126)
  else negb (c <=? 160) && negb (c =? 173).

Definition hex_of (width : nat) (n : N) : pystr :=
  map (fun i => hex_digit_of (n / 16 ^ N.of_nat i mod 16)) (rev (seq 0 width)).

Definition repr_char (quote : codepoint) (c : codepoint) : pystr :=
  if (c =? quote) || (c =? 92) then [92; c]
  else if c =? 9 then [92; 116]
  else if c =? 10 then [92; 110]
  else if c =? 13 then [92; 114]
  else if isprintable c then [c]
  else if c <? 256 then [92; 120] ++ hex_of 2 c
  else if c <? 65536 then [92; 117] ++ hex_of 4 c
  else [92; 85] ++ hex_of 8 c.

(** [repr(s)] for a string: in apostrophes, unless it holds one and no
    quotation mark. *)
Definition repr_str (s : pystr) : pystr :=
  let quote :=
    if bool_decide (39 ∈ s) && negb (bool_decide (34 ∈ s)) then 34 else 39 in
  [quote] ++ flat_map (repr_char quote) s ++ [quote].

Fixpoint repr (v : json) : pystr :=
  match v with
  | JNull => py "None"
  | JBool true => py "True"
  | JBool false => py "False"
  | JInt z => int_repr z
  | JFloat f => RefFloat.repr f
  | JStr s => repr_str s
  | JArr items => [91] ++ join [44; 32] (map repr items) ++ [93]
  | JObj kvs =>
      [123]
      ++ join [44; 32]
           (map (fun kv => repr_str (fst kv) ++ [58; 32] ++ repr (snd kv)) kvs)
      ++ [125]
  end.

Definition formatting : Formatting :=
  {| str_other := repr |}.
End RefStr.

(** ** Files written *)

(** [open(p, "w")]: a directory cannot be opened, nor a path that the
    process may not write. *)
Definition open_w {SY : System} (fs : filesystem) (p : path) : result unit :=
  match fs_lookup fs p with
  | Some Dir => Raise OSError
  | _ => if can_write p then Ok () else Raise OSError
  end.

(** The files after [text] has been written to the file [p], opened
    with [open_w]: a new file is listed last; a file that cannot be
    opened for reading still cannot. *)
Fixpoint fs_write (fs : filesystem) (p : path) (text : pystr) : filesystem :=
  match fs with
  | [] => [(p, File (Text text))]
  | (q, n) :: fs' =>
      if path_eqb q p then
        (q, match n with
            | File Unreadable => File Unreadable
            | _ => File (Text text)
            end) :: fs'
      else (q, n) :: fs_write fs' p text
  end.

(** ** The commands as programs

    A command runs in a world of files and of what has been given to
    [console.print]: a text with its markup, a message of the loop of
    [run] or of [stop], the failure of a launch, a table.  It ends by
    returning, by [sys.exit(code)], or by an exception that nothing
    handles.  Printing is taken to succeed. *)

(** A row of the table of [list]: the cells as they are given to
    [table.add_row], and the style.  What the table does with a cell
    that is not a string is not part of the model. *)
Record table_row := {
  cells : pystr * pystr * json;
  style : pystr
}.

Inductive notice :=
| Line (text : pystr)
| Message (m : message)
| FailedToLaunch (e : exn)
| Table (rows : list table_row).

Record world := {
  files : filesystem;
  printed : list notice
}.

Inductive ending :=
| SystemExit (code : Z)
| Uncaught (e : exn).

Inductive step (A : Type) :=
| Next (a : A)
| Stop (e : ending).
Arguments Next {A} a.
Arguments Stop {A} e.

Definition cmd (A : Type) : Type := world -> world * step A.

#[global] Instance cmd_ret : MRet cmd := fun A a w => (w, Next a).
#[global] Instance cmd_bind : MBind cmd := fun A B k m w =>
  match m w with
  | (w', Next a) => k a w'
  | (w', Stop e) => (w', Stop e)
  end.

(** [console.print(...)] *)
Definition print (n : notice) : cmd unit := fun w =>
  ({| files := files w; printed := printed w ++ [n] |}, Next ()).

Definition say (text : pystr) : cmd unit := print (Line text).

Fixpoint print_each (ns : list notice) : cmd unit :=
  match ns with
  | [] => mret ()
  | n :: ns' => _ ← print n; print_each ns'
  end.

(** [sys.exit(code)] *)
Definition sys_exit {A} (code : Z) : cmd A := fun w =>
  (w, Stop (SystemExit code)).

(** The result of a call, or its exception. *)
Definition lift {A} (r : result A) : cmd A := fun w =>
  (w, match r with
      | Ok a => Next a
      | Raise e => Stop (Uncaught e)
      end).

(** A call that reads the files. *)
Definition with_files {A} (f : filesystem -> result A) : cmd A := fun w =>
  lift (f (files w)) w.

(** A call that changes the files. *)
Definition change_files (f : filesystem -> result filesystem) : cmd unit :=
  fun w =>
    match f (files w) with
    | Ok fs => ({| files := fs; printed := printed w |}, Next ())
    | Raise e => (w, Stop (Uncaught e))
    end.

(** [try: m except classes as e: handler e] *)
Definition catch {A} (m : cmd A) (classes : list exn)
    (handler : exn -> cmd A) : cmd A := fun w =>
  match m w with
  | (w', Stop (Uncaught e)) =>
      if existsb (isinstance e) classes then handler e w'
      else (w', Stop (Uncaught e))
  | r => r
  end.

Definition check_mark : pystr := [10003].
Definition check_mark_button : pystr := [9989].

Section Commands2.
Context {UD : UnicodeData} {JM : JsonModule} {JD : JsonDumpModule}.
Context {AG : AesGcmModule} {FM : Formatting} {SY : System} (h : host).

(** [self.save()] *)
Definition ProjectContext_save (self : ProjectContext) : cmd unit :=
  let zap_file := zap_file h in
  _ ← with_files (fun fs => open_w fs zap_file);
  let '(text, error) :=
    json_dump
      (JObj [(py "app", app self);
             (py "current_session", current_session self);
             (py "available_secrets", available_secrets self)])
      2 in
  _ ← change_files (fun fs => Ok (fs_write fs zap_file text));
  match error with
  | None => mret ()
  | Some e => lift (Raise e)
  end.

(** The two lines for a session that [SessionFile.load] does not find. *)
Definition session_not_found (session_name : pystr) : cmd unit :=
  _ ← say (py "[red]Session '" ++ session_name ++ py "' not found[/red]");
  say (py "[dim]Use 'zap list' to see available sessions[/dim]").

(** [start()] *)
Fixpoint try_paths (paths : list pystr) : cmd unit :=
  match paths with
  | [] => mret ()
  | path :: paths' =>
      launched ←
        catch (_ ← lift (subprocess_Popen [path]); mret true)
          [OSError] (fun _ => mret false);
      if launched : bool then mret () else try_paths paths'
  end.

Definition start : cmd unit :=
  _ ← say (py "[cyan bold]Opening Zap desktop app...[/cyan bold]");
  catch
    (_ ← match sys_platform h with
         | Darwin =>
             _ ← lift (subprocess_run [py "open"; py "-a"; py "Zap"] None true);
             mret ()
         | Win32 =>
             (* Try common Windows paths *)
             try_paths [py "Zap.exe"; py "C:\Program Files\Zap\Zap.exe"]
         | Linux => lift (subprocess_Popen [py "zap"])
         end;
     _ ← say (check_mark_button ++ py " Zap app launched successfully!");
     say (py "[dim]Create a new session in the app's Dev Mode[/dim]"))
    [Exception]
    (fun e =>
       _ ← print (FailedToLaunch e);
       say (py "[yellow]Make sure Zap desktop app is installed[/yellow]")).

(** [list(session_name)] *)
Definition list_rows (sessions : list SessionFile) (current_session : json)
    : result (list table_row) :=
  mapM (fun session =>
          let is_current := py_eq (session_name session) current_session in
          let marker := if is_current then py "* " else py "  " in
          let style := if is_current then py "green bold" else [] in
          n ← len (encrypted_secrets session);
          Ok {| cells := (marker ++ str (session_name session), str_of_nat n,
                          box_name session);
                style := style |})
       sessions.

Definition list_ (session_name : option pystr) : cmd unit :=
  if truthy session_name then
    let session_name := default [] session_name in
    (* List secrets in specific session *)
    session ← with_files (fun fs => SessionFile_load h fs session_name);
    match session with
    | None => session_not_found session_name
    | Some session =>
        _ ← say ([10] ++ py "[cyan bold]Secrets in session '" ++ session_name
                 ++ py "':[/cyan bold]" ++ [10]);
        if negb (py_bool (encrypted_secrets session)) then
          say (py "  [dim]No secrets in this session[/dim]")
        else
          names ← lift (keys (encrypted_secrets session));
          _ ← print_each
                (map (fun secret_name =>
                        let env_var := secret_name_to_env_var secret_name None in
                        Line (py "  [cyan]" ++ secret_name ++ py "[/cyan] -> [green]"
                              ++ env_var ++ py "[/green]"))
                   names);
          n ← lift (len (encrypted_secrets session));
          say ([10] ++ py "[dim](" ++ str_of_nat n ++ py " secrets total)[/dim]")
    end
  else
    (* List all sessions *)
    sessions ← with_files (SessionFile_list_all h);
    match sessions with
    | [] =>
        _ ← say (py "[dim]No active sessions found.[/dim]");
        say (py "Use 'zap start' to create a new session")
    | _ =>
        _ ← say ([10] ++ py "[cyan bold]Active Zap Sessions[/cyan bold]" ++ [10]);
        (* Check current project session *)
        context ← with_files (ProjectContext_load h);
        let current_session :=
          match context with
          | Some context => current_session context
          | None => JNull
          end in
        rows ← lift (list_rows sessions current_session);
        _ ← print (Table rows);
        if py_bool current_session then
          say ([10] ++ py "[dim]Current session: " ++ str current_session
               ++ py "[/dim]")
        else mret ()
    end.

(** [use(session_name)] *)
Definition use (session_name : pystr) : cmd unit :=
  session ← with_files (fun fs => SessionFile_load h fs session_name);
  match session with
  | None =>
      _ ← session_not_found session_name;
      sys_exit 1
  | Some session =>
      (* Build list of available secrets as env var names *)
      names ← lift (keys (encrypted_secrets session));
      let available_secrets :=
        sort (map (fun name => secret_name_to_env_var name None) names) in
      context ←
        lift (ProjectContext_init
                (JObj [(py "app", JStr (py "zap"));
                       (py "current_session", JStr session_name);
                       (py "available_secrets",
                        JArr (map JStr available_secrets))]));
      _ ← ProjectContext_save context;
      _ ← say (py "[green]" ++ check_mark
               ++ py "[/green] Switched to session '[green bold]"
               ++ session_name ++ py "[/green bold]'");
      say (py "[dim]Now you can run 'zap run -- <command>' in this project[/dim]")
  end.

(** [run(command, session, verbose, prefix)], in three parts: the session
    name is resolved, the session is loaded and its secrets are injected,
    the command is executed. *)
Definition resolve_session (session : option pystr) : cmd json :=
  if truthy session then mret (JStr (default [] session))
  else
    context ← with_files (ProjectContext_load h);
    match context with
    | None =>
        _ ← say (py "[red]No current session set[/red]");
        _ ← say (py "[dim]Use 'zap use <session-name>' to set a session for this project[/dim]");
        sys_exit 1
    | Some context => mret (current_session context)
    end.

Definition run_session (command : list pystr) (verbose : bool)
    (prefix : option pystr) (session_name : json) : cmd unit :=
  (* Load session *)
  session_file ← with_files (fun fs => SessionFile_load h fs (str session_name));
  match session_file with
  | None =>
      _ ← session_not_found (str session_name);
      sys_exit 1
  | Some session_file =>
      (* Prepare environment *)
      let env := os_environ in
      _ ← (if verbose then
             _ ← say (py "[cyan bold]Loading secrets into environment...[/cyan bold]"
                      ++ [10]);
             _ ← say (py "  Using session: [green bold]" ++ str session_name
                      ++ py "[/green bold]");
             n ← lift (len (encrypted_secrets session_file));
             say (py "  Loading [yellow]" ++ str_of_nat n ++ py "[/yellow] secrets"
                  ++ [10])
           else mret ());
      (* Decrypt and inject secrets *)
      '(env, out) ← lift (inject_secrets session_file verbose prefix (env, []));
      _ ← print_each (map Message out);
      _ ← (if verbose then
             say ([10] ++ py "[cyan bold]Executing:[/cyan bold] "
                  ++ join [32] command ++ [10])
           else mret ());
      (* Execute command *)
      result ← lift (subprocess_run command (Some env) false);
      sys_exit result
  end.

Definition run (command : list pystr) (session : option pystr)
    (verbose : bool) (prefix : option pystr) : cmd unit :=
  _ ← match command with
      | [] =>
          _ ← say (py "[red]No command provided[/red]");
          _ ← say (py "[dim]Usage: zap run -- npm start[/dim]");
          sys_exit 1
      | _ => mret ()
      end;
  (* Resolve session *)
  session_name ← resolve_session session;
  run_session command verbose prefix session_name.

(** [clear()] *)
Fixpoint unlink_each (files : list path) (cleared : nat) : cmd nat :=
  match files with
  | [] => mret cleared
  | file :: files' =>
      _ ← change_files (fun fs => unlink fs file false);
      unlink_each files' (S cleared)
  end.

Definition clear : cmd unit :=
  sessions ← with_files (SessionFile_list_all h);
  match sessions with
  | [] => say (py "[dim]No active sessions to clear[/dim]")
  | _ =>
      confirmed ←
        lift (click_confirm
                (py "Are you sure you want to clear "
                 ++ str_of_nat (length sessions) ++ py " session(s)?"));
      if negb confirmed then say (py "Cancelled")
      else
        let sessions_dir := get_sessions_directory h in
        files ← with_files (fun fs => Ok (glob_json fs sessions_dir));
        cleared ← unlink_each files 0;
        _ ← say (py "[green]" ++ check_mark ++ py "[/green] Cleared "
                 ++ str_of_nat cleared ++ py " session(s)");
        (* Clear project context *)
        _ ← change_files (fun fs => unlink fs (zap_file h) true);
        say (py "  [dim]Cleared from current project[/dim]")
  end.

(** [status()] *)
Definition status : cmd unit :=
  context ← with_files (ProjectContext_load h);
  match context with
  | None =>
      _ ← say (py "[dim]No current session set for this project[/dim]");
      _ ← say (py "Use 'zap use <session-name>' to set a session");
      say (py "Use 'zap list' to see available sessions")
  | Some context =>
      session ←
        with_files (fun fs =>
                      SessionFile_load h fs (str (current_session context)));
      match session with
      | None =>
          _ ← say (py "[red]Current session '" ++ str (current_session context)
                   ++ py "' not found[/red]");
          _ ← say (py "Use 'zap list' to see available sessions");
          say (py "Use 'zap use <session-name>' to set a different session")
      | Some session =>
          _ ← say ([10] ++ py "[cyan bold]Current Session Status[/cyan bold]"
                   ++ [10]);
          _ ← say (py "  Session: [green]" ++ str (session_name session)
                   ++ py "[/green]");
          _ ← say (py "  Box: [cyan]" ++ str (box_name session) ++ py "[/cyan]");
          n ← lift (len (encrypted_secrets session));
          _ ← say (py "  Secrets: [yellow]" ++ str_of_nat n ++ py "[/yellow]"
                   ++ [10]);
          _ ← say (py "[cyan]Available Environment Variables:[/cyan]");
          env_vars ← lift (iter (available_secrets context));
          _ ← print_each
                (map (fun env_var =>
                        Line (py "  [green]" ++ str env_var ++ py "[/green]"))
                   env_vars);
          say ([10] ++ py "[green]Ready to run commands with 'zap run -- <command>'[/green]")
      end
  end.
End Commands2.

(** ** What the round trip through the project file needs of the JSON
    module *)

(** A text that the JSON module reads back as it was written: code
    points of Unicode, and no high surrogate right before a low one (the
    reader would join the two escapes into one character). *)
Fixpoint json_text (s : pystr) : bool :=
  match s with
  | [] => true
  | c :: s' =>
      (c <? 1114112)
      && negb (RefJson.is_high_surrogate c
               && match s' with
                  | d :: _ => RefJson.is_low_surrogate d
                  | [] => false
                  end)
      && json_text s'
  end.

(** What [ProjectContext.save] writes for a context of strings. *)
Definition context_object (session_name : pystr)
    (available_secrets : list pystr) : json :=
  JObj [(py "app", JStr (py "zap"));
        (py "current_session", JStr session_name);
        (py "available_secrets", JArr (map JStr available_secrets))].

(** The object is written without an exception and is read back. *)
Class JsonDumpLaws (JM : JsonModule) (JD : JsonDumpModule) : Prop := {
  json_dump_load_context : forall session_name available_secrets,
    json_text session_name = true ->
    forallb json_text available_secrets = true ->
    exists text,
      json_dump (context_object session_name available_secrets) 2 = (text, None)
      /\ json_load text = Ok (context_object session_name available_secrets)
}.

(** A command that leaves the files as they are. *)
Definition read_only {A} (m : cmd A) : Prop :=
  forall w w' r, m w = (w', r) -> files w' = files w.

(** A command that leaves the files outside of [P] as they are. *)
Definition touches_only {A} (P : path -> Prop) (m : cmd A) : Prop :=
  forall w w' r, m w = (w', r) ->
  forall p, ~ P p -> fs_lookup (files w') p = fs_lookup (files w) p.

(** Ascending: no string is less than one before it. *)
Definition ascending (xs : list pystr) : Prop :=
  StronglySorted (fun a b => str_ltb b a = false) xs.

(** A command that does not end by [sys.exit]. *)
Definition no_exit {A} (m : cmd A) : Prop :=
  forall w w' code, m w <> (w', Stop (SystemExit code)).

(** A command that does not return. *)
Definition never_returns {A} (m : cmd A) : Prop :=
  forall w w' a, m w <> (w', Next a).

(** * What the statements about the commands speak of *)

(** ** Name deriver *)

Section NameDeriverWords.
Context {UD : UnicodeData}.

(** [filter(None, clean_name.split("_"))]: the words of the name. *)
Definition name_words (secret_name : pystr) : list pystr :=
  filter_None (split underscore (replace_non_alnum (upper secret_name))).

(** The derived names that [use] records. *)
Definition recorded_names (names : list pystr) : list pystr :=
  sort (map (fun name => secret_name_to_env_var name None) names).

(** The project context that [use] leaves. *)
Definition recorded_context (session_name : pystr) (names : list pystr)
    : ProjectContext :=
  {| app := JStr (py "zap"); current_session := JStr session_name;
     available_secrets := JArr (map JStr (recorded_names names)) |}.
End NameDeriverWords.

(** A capital letter or a digit of ASCII. *)
Definition is_ascii_capital_or_digit (c : codepoint) : bool :=
  is_ascii_upper c || is_ascii_digit c.

(** A character of a variable name that every shell accepts. *)
Definition portable (c : codepoint) : Prop :=
  is_ascii_capital_or_digit c = true \/ c = underscore.

(** ** Session store *)

Section Store2.
Context {JM : JsonModule}.

(** [with open(file, "r") as f: cls(json.load(f))], the body of the [try]
    statements of [SessionFile.load] and [SessionFile.list_all]. *)
Definition read_session (fs : filesystem) (file : path) : result SessionFile :=
  text ← read_text fs file;
  data ← json_load text;
  SessionFile_init data.

(** What the [except] clause of the loaders handles. *)
Definition handled (e : exn) : bool := existsb (isinstance e) load_errors.

(** The sessions that [read_session] gives for the files, in their order. *)
Definition readable_sessions (fs : filesystem) (files : list path)
    : list SessionFile :=
  omap (fun file => match read_session fs file with
                    | Ok s => Some s
                    | Raise _ => None
                    end) files.
End Store2.

(** Newest first: no session is older than one that follows it. *)
Definition newest_first (l : list SessionFile) : Prop :=
  forall i j s t a b,
    (i < j)%nat -> l !! i = Some s -> l !! j = Some t ->
    created_at s = JStr a -> created_at t = JStr b ->
    str_ltb a b = false.

Section SortedKeys.
Context {A : Type} (key : A -> json).

(** The keys are strings. *)
Definition str_keys (xs : list A) : Prop :=
  Forall (fun x => exists a, key x = JStr a) xs.

(** [x] does not come before [y] in the order of the keys. *)
Definition not_before (x y : A) : Prop :=
  forall a b, key x = JStr a -> key y = JStr b -> str_ltb a b = false.
End SortedKeys.

(** The files that [read_session] cannot read fail with an exception that
    the [except] clause names. *)
Definition all_handled {JM : JsonModule} (fs : filesystem)
    (files : list path) : Prop :=
  Forall (fun file => forall e, read_session fs file = Raise e -> handled e = true)
    files.

(** The files without the paths [l]. *)
Definition remove_all (fs : filesystem) (l : list path) : filesystem :=
  foldl fs_remove fs l.

(** ** Commands *)

(** The session that [run] resolves: the one of the option, or the one
    of the project context. *)
Definition resolved {JM : JsonModule} (h : host) (session : option pystr)
    (fs : filesystem) (session_name : json) : Prop :=
  if truthy session then session_name = JStr (default [] session)
  else exists context,
      ProjectContext_load h fs = Ok (Some context)
      /\ session_name = current_session context.

(** The text of the question of [clear]. *)
Definition clear_prompt (n : nat) : pystr :=
  py "Are you sure you want to clear " ++ str_of_nat n ++ py " session(s)?".

(** ** The reader of strings, step by step *)

Section ReaderSteps.
Import RefJson.

(** What the reader does after a [u] escape of value [u]: it looks for
    a second escape to join a pair of surrogates. *)
Definition after_u (u : N) (r2 : pystr) : result (pystr * pystr) :=
  match r2 with
  | 92 :: 117 :: a' :: b' :: c' :: d' :: r3 =>
      match hex4 a' b' c' d' with
      | Some u' =>
          if is_high_surrogate u && is_low_surrogate u'
          then '(t, rest) ← scanstring r3;
               Ok (join_surrogates u u' :: t, rest)
          else '(t, rest) ← scanstring r2;
               Ok (u :: t, rest)
      | None => '(t, rest) ← scanstring r2;
                Ok (u :: t, rest)
      end
  | _ => '(t, rest) ← scanstring r2; Ok (u :: t, rest)
  end.

(** The character [c] followed by the string that is read from [r]. *)
Definition cons_read (c : codepoint) (r : pystr) : result (pystr * pystr) :=
  '(t, rest) ← scanstring r; Ok (c :: t, rest).
End ReaderSteps.

(** * Concrete runs of the commands

    A session with two secrets, a process around the commands, and the
    worlds in which they start. *)
Module Scenario.
Import Examples.

Definition work_json : pystr :=
  text "{'session_name':'work','box_name':'office','session_key':'"
  ++ py key_hex
  ++ text "','encrypted_secrets':{'db password':'" ++ py payload_hunter2
  ++ text "','api--key!!':'" ++ py payload_s3cr3t
  ++ text "'},'created_at':'2025-03-01T08:00:00Z'}".

(** What the three session files read as. *)
Definition work_session : SessionFile :=
  {| session_name := JStr (py "work"); box_name := JStr (py "office");
     session_key := key;
     encrypted_secrets :=
       JObj [(py "db password", JStr (py payload_hunter2));
             (py "api--key!!", JStr (py payload_s3cr3t))];
     created_at := JStr (py "2025-03-01T08:00:00Z") |}.

Definition dev_session : SessionFile := session [].

Definition old_session : SessionFile :=
  {| session_name := JStr (py "old"); box_name := JStr (py "work");
     session_key := key; encrypted_secrets := JObj [];
     created_at := JStr (py "2024-06-30T12:00:00Z") |}.

(** The sessions directory with the session [work] and an older one; the
    project is bound to no session. *)
Definition fs_work : filesystem :=
  [(sessions_dir, Dir);
   (sessions_dir ++ [py "old.json"], File (Text old_json));
   (sessions_dir ++ [py "work.json"], File (Text work_json))].

(** What [json.dump] writes to [zap.json] for the session [work]. *)
Definition zap_work_json : pystr :=
  text "{" ++ [10]
  ++ text "  'app': 'zap'," ++ [10]
  ++ text "  'current_session': 'work'," ++ [10]
  ++ text "  'available_secrets': [" ++ [10]
  ++ text "    'API_KEY'," ++ [10]
  ++ text "    'DB_PASSWORD'" ++ [10]
  ++ text "  ]" ++ [10]
  ++ text "}".

(** [fs_garbage] after [stop] of the session [dev]. *)
Definition fs_stopped : filesystem :=
  [(sessions_dir, Dir);
   (sessions_dir ++ [py "old.json"], File (Text old_json));
   (sessions_dir ++ [py "garbage.json"], File (Text (py "{not json")))].

(** A process that may write every path, whose children end with the
    code 3, and whose user gives [answer] to every question. *)
Definition system (answer : bool) : System :=
  {| can_write := fun _ => true;
     os_environ := {[py "HOME" := py "/home/dev"]};
     subprocess_run := fun _ _ _ => Ok 3%Z;
     subprocess_Popen := fun _ => Ok ();
     click_confirm := fun _ => Ok answer |}.

(** A Windows host, and a process in which no program can be started. *)
Definition windows : host :=
  {| sys_platform := Win32; Path_home := [py "C:"; py "Users"; py "dev"];
     APPDATA := None;
     Path_cwd := [py "C:"; py "work"] |}.

Definition system_without_app : System :=
  {| can_write := fun _ => true;
     os_environ := ∅;
     subprocess_run := fun _ _ _ => Raise OSError;
     subprocess_Popen := fun _ => Raise OSError;
     click_confirm := fun _ => Ok true |}.

(** The world of a command that starts with the files [fs]. *)
Definition at_start (fs : filesystem) : world :=
  {| files := fs; printed := [] |}.
End Scenario.

(** * Properties *)

(** ** Arithmetic and the monad *)

Ltac nlia := zify; Z.to_euclidean_division_equations; lia.

Ltac ltb_lia :=
  repeat match goal with
    | |- context [?a <? ?b] =>
        first [ rewrite (proj2 (N.ltb_lt a b)) by nlia
              | rewrite (proj2 (N.ltb_ge a b)) by nlia ]
    | |- context [?a <=? ?b] =>
        first [ rewrite (proj2 (N.leb_le a b)) by nlia
              | rewrite (proj2 (N.leb_gt a b)) by nlia ]
    end.

Lemma bind_Ok {A B} (a : A) (k : A -> result B) : Ok a ≫= k = k a.
Proof. reflexivity. Qed.

(** ** Name deriver *)

Section NameDeriverFacts.
Context {UD : UnicodeData}.

Lemma isalnum_ascii (c : codepoint) :
  c < 128 -> isalnum c = is_ascii_alnum c.
Proof. intros Hc. unfold isalnum. by rewrite (proj2 (N.ltb_lt _ _) Hc). Qed.

Lemma isalnum_non_ascii (c : codepoint) :
  128 <= c -> isalnum c = uc_isalnum c.
Proof. intros Hc. unfold isalnum. by rewrite (proj2 (N.ltb_ge _ _) Hc). Qed.

Lemma split_Forall (P : codepoint -> Prop) (sep : codepoint) (s : pystr) :
  Forall P s -> Forall (Forall P) (split sep s).
Proof.
  induction 1 as [|c s Hc Hs IH]; simpl.
  - by repeat constructor.
  - destruct (c =? sep).
    + by constructor.
    + destruct (split sep s) as [|w ws]; inversion IH; subst;
        by repeat constructor.
Qed.

Lemma join_Forall (P : codepoint -> Prop) (sep : pystr) (xs : list pystr) :
  Forall P sep -> Forall (Forall P) xs -> Forall P (join sep xs).
Proof.
  intros Hsep. induction 1 as [|w ws Hw Hws IH]; simpl; [constructor|].
  destruct ws as [|w' ws']; [done|].
  apply Forall_app; split; [done|]. apply Forall_app; by split.
Qed.

Lemma filter_None_Forall (P : pystr -> Prop) (xs : list pystr) :
  Forall P xs -> Forall P (filter_None xs).
Proof.
  unfold filter_None. induction 1 as [|w ws Hw Hws IH]; simpl; [constructor|].
  destruct w; [done | by constructor].
Qed.

Lemma replace_non_alnum_Forall (s : pystr) :
  Forall (fun c => isalnum c = true \/ c = underscore) (replace_non_alnum s).
Proof.
  unfold replace_non_alnum. induction s as [|c s IH]; simpl; constructor; [|done].
  destruct (isalnum c) eqn:E; [by left | by right].
Qed.

(** What the code does with a prefix: the prefix is upper-cased and its
    other characters are replaced, and that is all. *)
Lemma secret_name_to_env_var_prefix (secret_name : pystr) (c : codepoint)
    (p : pystr) :
  secret_name_to_env_var secret_name (Some (c :: p))
  = replace_non_alnum (upper (c :: p)) ++ [underscore] ++ transform secret_name.
Proof. reflexivity. Qed.

Lemma secret_name_to_env_var_no_prefix (secret_name : pystr)
    (prefix : option pystr) :
  truthy prefix = false ->
  secret_name_to_env_var secret_name prefix = transform secret_name.
Proof. unfold secret_name_to_env_var. by intros ->. Qed.

(** C8. The three examples of the specification:
    derive("db password") is "DB_PASSWORD", derive("api--key!!") is
    "API_KEY", and derive("DB_PASSWORD", prefix="app") is
    "APP_DB_PASSWORD", whatever the Unicode database. *)
Theorem derive_examples :
  secret_name_to_env_var (py "db password") None = py "DB_PASSWORD"
  /\ secret_name_to_env_var (py "api--key!!") None = py "API_KEY"
  /\ secret_name_to_env_var (py "DB_PASSWORD") (Some (py "app"))
     = py "APP_DB_PASSWORD".
Proof. repeat split; vm_compute; reflexivity. Qed.

(** C1. On the name ["key"] with the prefix ["my--app"] the code returns
    ["MY__APP_KEY"]: the run of underscores of the prefix is not collapsed,
    where the transformation applied to the name, applied to the prefix,
    gives ["MY_APP_KEY"]. *)
Theorem prefix_not_collapsed :
  secret_name_to_env_var (py "key") (Some (py "my--app")) = py "MY__APP_KEY"
  /\ derive_spec (py "key") (Some (py "my--app")) = py "MY_APP_KEY".
Proof. split; vm_compute; reflexivity. Qed.

(** The code and the specification agree on the prefixes that the
    collapse leaves as they are. *)
Lemma derive_spec_agrees (secret_name : pystr) (c : codepoint) (p : pystr) :
  collapse_underscores (replace_non_alnum (upper (c :: p)))
  = replace_non_alnum (upper (c :: p)) ->
  secret_name_to_env_var secret_name (Some (c :: p))
  = derive_spec secret_name (Some (c :: p)).
Proof.
  intros H. rewrite secret_name_to_env_var_prefix. unfold derive_spec, transform.
  by rewrite H.
Qed.

End NameDeriverFacts.


(** ** Secret decryptor *)

Section DecryptorFacts.
Context {JM : JsonModule} {AG : AesGcmModule}.

Lemma raises_Raise {A} (e : exn) : raises (@Raise A e).
Proof. by exists e. Qed.

(** [decrypt_secret] is its four stages in a row. *)
Lemma decrypt_secret_stages (payload : pystr) (key : bytes) :
  decrypt_secret payload key
  = (serialized ← fromhex payload;
     '(cipher, nonce, tag) ← components serialized;
     decrypted ← open_sealed key nonce cipher tag;
     decode_utf8 decrypted).
Proof.
  unfold decrypt_secret, components, open_sealed.
  cbv beta iota delta [mbind result_bind].
  repeat case_match; simplify_eq; congruence.
Qed.


End DecryptorFacts.

(** ** UTF-8 *)

Lemma to_N_byte_of_N (n : N) : n < 256 -> Byte.to_N (byte_of_N n) = n.
Proof.
  intros Hn. unfold byte_of_N. rewrite N.mod_small by done.
  destruct (Byte.of_N n) as [b|] eqn:E.
  - by apply Byte.to_of_N.
  - apply Byte.of_N_None_iff in E. lia.
Qed.

Lemma byte_of_N_to_N (b : byte) : byte_of_N (Byte.to_N b) = b.
Proof.
  unfold byte_of_N. pose proof (Byte.to_N_bounded b).
  rewrite N.mod_small by lia. by rewrite Byte.of_to_N.
Qed.

Section Utf8.
Variable sp : bool.

Lemma decode_utf8_1 (b0 : byte) (r : bytes) :
  Byte.to_N b0 < 128 ->
  decode_utf8_with sp (b0 :: r)
  = (s ← decode_utf8_with sp r; Ok (Byte.to_N b0 :: s)).
Proof. intros H. cbn [decode_utf8_with]. by ltb_lia. Qed.

Lemma decode_utf8_2 (b0 b1 : byte) (r : bytes) :
  194 <= Byte.to_N b0 < 224 -> 128 <= Byte.to_N b1 < 192 ->
  decode_utf8_with sp (b0 :: b1 :: r)
  = (s ← decode_utf8_with sp r;
     Ok ((Byte.to_N b0 - 192) * 64 + (Byte.to_N b1 - 128) :: s)).
Proof.
  intros H0 H1. cbn [decode_utf8_with]. unfold is_continuation. by ltb_lia.
Qed.

Lemma decode_utf8_3 (b0 b1 b2 : byte) (r : bytes) :
  let c := (Byte.to_N b0 - 224) * 4096 + (Byte.to_N b1 - 128) * 64
           + (Byte.to_N b2 - 128) in
  224 <= Byte.to_N b0 < 240 -> 128 <= Byte.to_N b1 < 192 ->
  128 <= Byte.to_N b2 < 192 -> 2048 <= c -> is_surrogate c = false ->
  decode_utf8_with sp (b0 :: b1 :: b2 :: r)
  = (s ← decode_utf8_with sp r; Ok (c :: s)).
Proof.
  intros c H0 H1 H2 Hc Hs. cbn [decode_utf8_with]. fold c.
  rewrite Hs. unfold is_continuation. ltb_lia.
  rewrite ?(proj2 (N.leb_le 2048 c)) by done. by rewrite orb_true_r.
Qed.

Lemma decode_utf8_4 (b0 b1 b2 b3 : byte) (r : bytes) :
  let c := (Byte.to_N b0 - 240) * 262144 + (Byte.to_N b1 - 128) * 4096
           + (Byte.to_N b2 - 128) * 64 + (Byte.to_N b3 - 128) in
  240 <= Byte.to_N b0 < 245 -> 128 <= Byte.to_N b1 < 192 ->
  128 <= Byte.to_N b2 < 192 -> 128 <= Byte.to_N b3 < 192 ->
  65536 <= c < 1114112 ->
  decode_utf8_with sp (b0 :: b1 :: b2 :: b3 :: r)
  = (s ← decode_utf8_with sp r; Ok (c :: s)).
Proof.
  intros c H0 H1 H2 H3 Hc. cbn [decode_utf8_with]. fold c.
  unfold is_continuation. ltb_lia.
  rewrite ?(proj2 (N.leb_le 65536 c)), ?(proj2 (N.ltb_lt c 1114112)) by lia.
  done.
Qed.

(** Decoding undoes the encoding of a character. *)
Lemma decode_utf8_encode_char (c : codepoint) (b rest : bytes) :
  encode_utf8_char c = Ok b ->
  decode_utf8_with sp (b ++ rest)
  = (s ← decode_utf8_with sp rest; Ok (c :: s)).
Proof.
  unfold encode_utf8_char.
  destruct (N.ltb_spec c 128) as [H1|H1].
  { intros [= <-]. cbn [Datatypes.app]. rewrite decode_utf8_1;
      rewrite to_N_byte_of_N by lia; [done|lia]. }
  destruct (N.ltb_spec c 2048) as [H2|H2].
  { intros [= <-]. cbn [Datatypes.app].
    rewrite decode_utf8_2; rewrite !to_N_byte_of_N by nlia; [|nlia..].
    by replace ((192 + c / 64 - 192) * 64 + (128 + c mod 64 - 128)) with c
      by nlia. }
  destruct (is_surrogate c) eqn:Hs; [done|].
  destruct (N.ltb_spec c 65536) as [H3|H3].
  { intros [= <-]. cbn [Datatypes.app].
    assert ((224 + c / 4096 - 224) * 4096 + (128 + (c / 64) mod 64 - 128) * 64
            + (128 + c mod 64 - 128) = c) as Hc by nlia.
    rewrite decode_utf8_3; rewrite !to_N_byte_of_N by nlia;
      rewrite ?Hc; try done; nlia. }
  destruct (N.ltb_spec c 1114112) as [H4|H4]; [|done].
  intros [= <-]. cbn [Datatypes.app].
  assert ((240 + c / 262144 - 240) * 262144
          + (128 + (c / 4096) mod 64 - 128) * 4096
          + (128 + (c / 64) mod 64 - 128) * 64 + (128 + c mod 64 - 128) = c)
    as Hc by nlia.
  rewrite decode_utf8_4; rewrite !to_N_byte_of_N by nlia;
    rewrite ?Hc; try done; nlia.
Qed.

(** Decoding undoes encoding. *)
Lemma decode_utf8_encode (s : pystr) (b : bytes) :
  encode_utf8 s = Ok b -> decode_utf8_with sp b = Ok s.
Proof.
  revert b. induction s as [|c s IH]; intros b; simpl.
  - by intros [= <-].
  - destruct (encode_utf8_char c) as [bc|] eqn:Ec; simpl; [|done].
    destruct (encode_utf8 s) as [bs|]; simpl; [|done].
    intros [= <-]. rewrite (decode_utf8_encode_char _ _ _ Ec).
    by rewrite (IH bs).
Qed.
End Utf8.

(** ** Hexadecimal *)

Lemma fromhex_step (c d : codepoint) (top bot : N) (s : pystr) :
  is_ascii_space c = false -> hex_digit c = Some top ->
  hex_digit d = Some bot ->
  fromhex (c :: d :: s)
  = (rest ← fromhex s; Ok (byte_of_N (16 * top + bot) :: rest)).
Proof. intros Hs Hc Hd. cbn [fromhex]. by rewrite Hs, Hc, Hd. Qed.

(** The two digits of an octet. *)
Lemma hex_digits_of_byte (x : byte) :
  is_ascii_space (hex_digit_of (Byte.to_N x / 16)) = false
  /\ hex_digit (hex_digit_of (Byte.to_N x / 16)) = Some (Byte.to_N x / 16)
  /\ hex_digit (hex_digit_of (Byte.to_N x mod 16))
     = Some (Byte.to_N x mod 16)
  /\ byte_of_N (16 * (Byte.to_N x / 16) + Byte.to_N x mod 16) = x.
Proof. destruct x; vm_compute; done. Qed.

(** [bytes.fromhex] undoes [bytes.hex]. *)
Lemma fromhex_hex (b : bytes) : fromhex (hex b) = Ok b.
Proof.
  induction b as [|x b IH]; [done|].
  destruct (hex_digits_of_byte x) as (Hs & Hd1 & Hd2 & Hx).
  change (hex (x :: b))
    with (hex_digit_of (Byte.to_N x / 16)
          :: hex_digit_of (Byte.to_N x mod 16) :: hex b).
  rewrite (fromhex_step _ _ _ _ _ Hs Hd1 Hd2), IH, Hx. done.
Qed.

(** ** Byte arrays read from JSON *)

Lemma byte_of_item_item (x : byte) : byte_of_item (item x) = Ok x.
Proof. destruct x; vm_compute; done. Qed.

Lemma py_bytes_json_of_bytes (b : bytes) : py_bytes (json_of_bytes b) = Ok b.
Proof.
  unfold json_of_bytes, py_bytes. induction b as [|x b IH]; [done|].
  cbn [map bytes_of_items]. by rewrite byte_of_item_item, IH.
Qed.

Lemma components_encrypted_data_value {JM : JsonModule} (serialized : bytes)
    (cipher nonce tag : bytes) :
  json_loads serialized = Ok (encrypted_data_value cipher nonce tag) ->
  components serialized = Ok (cipher, nonce, tag).
Proof.
  intros H. unfold components. rewrite H, bind_Ok.
  change (getitem (encrypted_data_value cipher nonce tag) (py "cipher"))
    with (Ok (json_of_bytes cipher)).
  change (getitem (encrypted_data_value cipher nonce tag) (py "nonce"))
    with (Ok (json_of_bytes nonce)).
  change (getitem (encrypted_data_value cipher nonce tag) (py "tag"))
    with (Ok (json_of_bytes tag)).
  by rewrite !bind_Ok, !py_bytes_json_of_bytes.
Qed.

(** ** Round trip *)

Section RoundTrip.
Context {JM : JsonModule} {AG : AesGcmModule}.
Context {JL : JsonLaws JM} {AL : AesGcmLaws AG}.

(** C9. Round trip: for every text that has a UTF-8 form, every key of
    32 octets and every nonce of 12 octets, the reference encryption
    gives a payload, and [decrypt_secret] gives the text back from it
    under the same key, when the AEAD opens what it sealed and the JSON
    reader reads the serialised structure back. *)
Theorem decrypt_encrypt_roundtrip (plaintext : pystr) (key nonce : bytes)
    (data : bytes) :
  length key = 32%nat -> length nonce = 12%nat ->
  encode_utf8 plaintext = Ok data ->
  exists payload,
    encrypt plaintext key nonce = Ok payload
    /\ decrypt_secret payload key = Ok plaintext.
Proof.
  intros Hkey Hnonce Hdata.
  destruct (aesgcm_new_256 key Hkey) as [a Ha].
  destruct (aesgcm_seals a nonce data Hnonce) as [sealed Hseal].
  unfold encrypt. rewrite Hdata, bind_Ok, Ha, bind_Ok, Hseal, bind_Ok.
  eexists. split; [done|].
  rewrite decrypt_secret_stages, fromhex_hex, bind_Ok.
  rewrite (components_encrypted_data_value _ _ _ _
             (json_loads_encrypted_data _ _ _)), bind_Ok.
  unfold open_sealed. rewrite Ha, bind_Ok, take_drop.
  rewrite (aesgcm_opens _ _ _ _ Hseal), bind_Ok.
  by apply decode_utf8_encode.
Qed.
End RoundTrip.

(** ** Session store *)

Section FileSystemFacts.

Lemma exists_file (fs : filesystem) (p : path) (n : node) :
  fs_lookup fs p = Some n -> exists_ fs p = true.
Proof. unfold exists_. by intros ->. Qed.

Lemma unlink_file (fs : filesystem) (p : path) (c : content)
    (missing_ok : bool) :
  fs_lookup fs p = Some (File c) ->
  unlink fs p missing_ok = Ok (fs_remove fs p).
Proof. unfold unlink. by intros ->. Qed.

Lemma fs_lookup_remove_eq (fs : filesystem) (p : path) :
  fs_lookup (fs_remove fs p) p = None.
Proof.
  induction fs as [|[q n] fs IH]; simpl; [done|].
  unfold path_eqb. destruct (decide (q = p)) as [->|Hne].
  - by rewrite bool_decide_eq_true_2.
  - rewrite bool_decide_eq_false_2 by done. simpl.
    unfold path_eqb. by rewrite bool_decide_eq_false_2.
Qed.

Lemma fs_lookup_remove_ne (fs : filesystem) (p q : path) :
  p <> q -> fs_lookup (fs_remove fs p) q = fs_lookup fs q.
Proof.
  intros Hpq. induction fs as [|[r n] fs IH]; simpl; [done|].
  unfold path_eqb. destruct (decide (r = p)) as [->|Hne].
  - rewrite bool_decide_eq_true_2 by done. simpl.
    by rewrite (bool_decide_eq_false_2 (p = q)).
  - rewrite bool_decide_eq_false_2 by done. simpl.
    unfold path_eqb. by rewrite IH.
Qed.

Lemma exists_remove (fs : filesystem) (p : path) :
  exists_ (fs_remove fs p) p = false.
Proof. unfold exists_. by rewrite fs_lookup_remove_eq. Qed.
End FileSystemFacts.

Section StoreFacts.
Context {JM : JsonModule} (h : host).

(** Loading a project file whose text is a JSON object. *)
Lemma ProjectContext_load_object (fs : filesystem) (content : pystr)
    (kvs : list (pystr * json)) :
  fs_lookup fs (zap_file h) = Some (File (Text content)) ->
  json_load content = Ok (JObj kvs) ->
  ProjectContext_load h fs
  = Ok (match dict_get kvs (py "current_session") with
        | None => None
        | Some v =>
            Some {| app := default (JStr (py "zap")) (dict_get kvs (py "app"));
                    current_session := v;
                    available_secrets :=
                      default (JArr []) (dict_get kvs (py "available_secrets")) |}
        end).
Proof.
  intros Hfile Hjson. unfold ProjectContext_load, exists_, read_text.
  rewrite Hfile. simpl. rewrite Hjson. simpl.
  unfold ProjectContext_init, get, getitem. simpl.
  by destruct (dict_get kvs (py "current_session")).
Qed.

(** An exception that the [except] clause of the listing does not name
    ends the listing: the files after it are not read. *)
Lemma load_each_unhandled (fs : filesystem) (file : path)
    (files : list path) (sessions : list SessionFile) (e : exn) :
  (text ← read_text fs file; data ← json_load text;
   s ← SessionFile_init data; Ok (sessions ++ [s])) = Raise e ->
  existsb (isinstance e) load_errors = false ->
  load_each fs (file :: files) sessions = Raise e.
Proof.
  intros Hfile He. cbn [load_each]. rewrite Hfile. unfold try_except.
  by rewrite He.
Qed.

(** An exception that it names skips the file. *)
Lemma load_each_handled (fs : filesystem) (file : path)
    (files : list path) (sessions : list SessionFile) (e : exn) :
  (text ← read_text fs file; data ← json_load text;
   s ← SessionFile_init data; Ok (sessions ++ [s])) = Raise e ->
  existsb (isinstance e) load_errors = true ->
  load_each fs (file :: files) sessions = load_each fs files sessions.
Proof.
  intros Hfile He. cbn [load_each]. rewrite Hfile. unfold try_except.
  by rewrite He.
Qed.

(** [ValueError], [TypeError] and [UnicodeDecodeError] are not named. *)
Lemma unhandled_errors :
  existsb (isinstance ValueError) load_errors = false
  /\ existsb (isinstance TypeError) load_errors = false
  /\ existsb (isinstance UnicodeDecodeError) load_errors = false
  /\ existsb (isinstance AttributeError) load_errors = false.
Proof. by repeat split. Qed.


Lemma py_eq_JStr (s : pystr) : py_eq (JStr s) (JStr s) = true.
Proof. simpl. unfold str_eqb. by rewrite bool_decide_eq_true_2. Qed.

End StoreFacts.

(** ** Environment materializer *)

Section MaterializerFacts.
Context {UD : UnicodeData} {JM : JsonModule} {AG : AesGcmModule}.
Variables (verbose : bool) (prefix : option pystr).

(** [except Exception] handles every exception. *)
Lemma isinstance_Exception (e : exn) : isinstance e Exception = true.
Proof. by destruct e. Qed.

Lemma inject_secret_Ok (key : bytes) (env : environ) (out : console) (name : pystr)
    (payload : json) (value : pystr) :
  decrypt_secret_of payload key = Ok value ->
  inject_secret key verbose prefix (env, out) (name, payload)
  = Ok (<[secret_name_to_env_var name prefix := value]> env,
        if verbose then out ++ [Loaded (secret_name_to_env_var name prefix)]
        else out).
Proof. unfold inject_secret. by intros ->. Qed.

Lemma inject_secret_Raise (key : bytes) (env : environ) (out : console) (name : pystr)
    (payload : json) (e : exn) :
  decrypt_secret_of payload key = Raise e ->
  inject_secret key verbose prefix (env, out) (name, payload)
  = Ok (env, out ++ [FailedToDecrypt name e]).
Proof.
  unfold inject_secret. intros ->. simpl. by rewrite isinstance_Exception.
Qed.

Lemma inject_loop_spec (key : bytes) (kvs : list (pystr * json)) :
  forall (env : environ) (out : console),
  exists env' out',
    inject_loop key verbose prefix kvs (env, out) = Ok (env', out')
    /\ (forall m, m ∈ out -> m ∈ out')
    /\ (forall name payload e,
          (name, payload) ∈ kvs -> decrypt_secret_of payload key = Raise e ->
          FailedToDecrypt name e ∈ out')
    /\ (forall i name payload value,
          kvs !! i = Some (name, payload) ->
          decrypt_secret_of payload key = Ok value ->
          last_for key prefix kvs i (secret_name_to_env_var name prefix) ->
          env' !! secret_name_to_env_var name prefix = Some value)
    /\ (forall var,
          (forall name payload value,
             (name, payload) ∈ kvs ->
             decrypt_secret_of payload key = Ok value ->
             secret_name_to_env_var name prefix <> var) ->
          env' !! var = env !! var).
Proof.
  induction kvs as [|[name0 payload0] kvs IH]; intros env out.
  - exists env, out. repeat split; try done.
    + intros ??? H. by apply elem_of_nil in H.
  - cbn [inject_loop].
    destruct (decrypt_secret_of payload0 key) as [value0|e0] eqn:E0.
    + rewrite (inject_secret_Ok _ _ _ _ _ _ E0), bind_Ok.
      set (env0 := <[secret_name_to_env_var name0 prefix:=value0]> env).
      set (out0 := if verbose
                  then out ++ [Loaded (secret_name_to_env_var name0 prefix)]
                  else out).
      destruct (IH env0 out0) as (env' & out' & Hrun & Hmono & Hfail & Hok & Hrest).
      exists env', out'. split; [done|]. repeat split.
      * intros m Hm. apply Hmono. subst out0. destruct verbose; [|done].
        apply elem_of_app. by left.
      * intros name payload e [Hhd|Htl]%elem_of_cons He; [|by eapply Hfail].
        simplify_eq; congruence.
      * intros [|i] name payload value Hi Hv Hlast.
        -- simpl in Hi. simplify_eq. assert (value = value0) as -> by congruence.
           rewrite Hrest.
           ++ subst env0. apply lookup_insert_eq.
           ++ intros name' payload' value' [j Hj]%list_elem_of_lookup Hv'.
              apply (Hlast (S j) name' payload' value'); [lia|done|done].
        -- apply (Hok i name payload value); [done|done|].
           intros j name' payload' value' Hij Hj Hv'.
           apply (Hlast (S j) name' payload' value'); [lia|done|done].
      * intros var Hvar. rewrite Hrest.
        -- subst env0. apply lookup_insert_ne.
           apply (Hvar name0 payload0 value0); [|done]. apply elem_of_cons. by left.
        -- intros name payload value Hin. apply Hvar. apply elem_of_cons. by right.
    + rewrite (inject_secret_Raise _ _ _ _ _ _ E0), bind_Ok.
      destruct (IH env (out ++ [FailedToDecrypt name0 e0]))
        as (env' & out' & Hrun & Hmono & Hfail & Hok & Hrest).
      exists env', out'. split; [done|]. repeat split.
      * intros m Hm. apply Hmono, elem_of_app. by left.
      * intros name payload e [Hhd|Htl]%elem_of_cons He; [|by eapply Hfail].
        simplify_eq. apply Hmono, elem_of_app. right. apply list_elem_of_singleton.
        congruence.
      * intros [|i] name payload value Hi Hv Hlast.
        -- simpl in Hi. simplify_eq; congruence.
        -- apply (Hok i name payload value); [done|done|].
           intros j name' payload' value' Hij Hj Hv'.
           apply (Hlast (S j) name' payload' value'); [lia|done|done].
      * intros var Hvar. apply Hrest.
        intros name payload value Hin. apply Hvar. apply elem_of_cons. by right.
Qed.

End MaterializerFacts.

(** * The reference implementations *)

(** ** The reference AES-GCM opens what it seals *)

Section RefAesGcmFacts.
Import RefAesGcm.

Lemma lxor_lt_256 (a b : N) : a < 256 -> b < 256 -> N.lxor a b < 256.
Proof.
  intros Ha Hb. destruct (N.eq_dec (N.lxor a b) 0) as [->|Hne]; [lia|].
  change 256 with (2 ^ 8). apply N.log2_lt_pow2; [lia|].
  eapply N.le_lt_trans; [apply N.log2_lxor|].
  apply N.max_lub_lt.
  - destruct (N.eq_dec a 0) as [->|]; [done|]. apply N.log2_lt_pow2; lia.
  - destruct (N.eq_dec b 0) as [->|]; [done|]. apply N.log2_lt_pow2; lia.
Qed.

Lemma to_N_lt_256 (b : byte) : Byte.to_N b < 256.
Proof. pose proof (Byte.to_N_bounded b). lia. Qed.

Lemma byte_xor_involutive (d k : byte) : byte_xor (byte_xor d k) k = d.
Proof.
  unfold byte_xor.
  rewrite to_N_byte_of_N by (apply lxor_lt_256; apply to_N_lt_256).
  by rewrite N.lxor_assoc, N.lxor_nilpotent, N.lxor_0_r, byte_of_N_to_N.
Qed.

Lemma length_octets_of_N (n : nat) (x : N) : length (octets_of_N n x) = n.
Proof. induction n as [|n IH]; simpl; [done | by rewrite IH]. Qed.

Lemma length_block_bytes (x : N) : length (block_bytes x) = 16%nat.
Proof. unfold block_bytes. by rewrite length_map, length_octets_of_N. Qed.

(** Counter mode is its own inverse. *)
Lemma gctr_involutive (rks : list (list N)) (data : bytes) :
  forall (cb : N) (ks : bytes),
    gctr rks cb ks (gctr rks cb ks data) = data.
Proof.
  induction data as [|d data IH]; intros cb ks; [done|].
  cbn [gctr]. destruct ks as [|k ks].
  - pose proof (length_block_bytes (encrypt_block rks cb)) as Hlen.
    destruct (block_bytes (encrypt_block rks cb)) as [|k ks] eqn:E; [done|].
    cbn [gctr]. by rewrite E, byte_xor_involutive, IH.
  - cbn [gctr]. by rewrite byte_xor_involutive, IH.
Qed.

Lemma length_gcm_tag (rks : list (list N)) (nonce aad ct : bytes) :
  length (gcm_tag rks nonce aad ct) = 16%nat.
Proof. apply length_block_bytes. Qed.

(** A sealed message splits into what was sealed and its tag. *)
Lemma split_sealed (ct tag : bytes) :
  length tag = 16%nat ->
  (length (ct ++ tag) <? 16)%nat = false
  /\ take (length (ct ++ tag) - 16) (ct ++ tag) = ct
  /\ drop (length (ct ++ tag) - 16) (ct ++ tag) = tag.
Proof.
  intros Htag. rewrite length_app, Htag.
  replace (length ct + 16 - 16)%nat with (length ct) by lia.
  rewrite take_app_length, drop_app_length.
  split; [|done]. apply Nat.ltb_ge. lia.
Qed.

Lemma decrypt_encrypt (key nonce data sealed : bytes) :
  RefAesGcm.encrypt key nonce data None = Ok sealed ->
  RefAesGcm.decrypt key nonce sealed None = Ok data.
Proof.
  unfold RefAesGcm.encrypt, RefAesGcm.decrypt.
  destruct (check_nonce nonce) as [[]|]; [|done]. rewrite !bind_Ok.
  intros [= <-]. change (default [] (@None bytes)) with (@nil byte).
  destruct (split_sealed
              (gcm_crypt (key_expansion (octets key)) nonce data)
              (gcm_tag (key_expansion (octets key)) nonce []
                 (gcm_crypt (key_expansion (octets key)) nonce data))
              (length_gcm_tag _ _ _ _)) as (-> & -> & ->).
  rewrite bool_decide_eq_true_2 by done.
  unfold gcm_crypt. by rewrite gctr_involutive.
Qed.

Lemma aesgcm_laws : AesGcmLaws aesgcm_module.
Proof.
  split.
  - intros key Hkey. exists key. cbn. unfold new. by rewrite Hkey.
  - intros a nonce data Hnonce. cbn. unfold RefAesGcm.encrypt, check_nonce.
    rewrite Hnonce. by eexists.
  - intros a nonce data sealed. apply decrypt_encrypt.
Qed.

(** What the failure of the AEAD stage is with this implementation, for
    a tag of 16 octets: a key that is not of 128, 192 or 256 bits, a nonce
    that is not of 8 to 128 octets, or a tag that is not the tag of the
    ciphertext under the key and the nonce. *)
Lemma open_sealed_raises_iff (key nonce cipher tag : bytes) :
  length tag = 16%nat ->
  raises (@open_sealed aesgcm_module key nonce cipher tag)
  <-> length key ∉ [16; 24; 32]%nat
      \/ ~ (8 <= length nonce <= 128)%nat
      \/ gcm_tag (key_expansion (octets key)) nonce [] cipher <> tag.
Proof.
  intros Htag. unfold open_sealed. cbn [AESGCM_new AESGCM_decrypt aesgcm_module].
  unfold new, decrypt, check_nonce.
  destruct (split_sealed cipher tag Htag) as (Hlen & Htake & Hdrop).
  case_bool_decide as Hkey; [|split; [by left | intros _; apply raises_Raise]].
  rewrite bind_Ok.
  destruct ((8 <=? length nonce)%nat && (length nonce <=? 128)%nat) eqn:Hnonce.
  2:{ split; [|intros _; apply raises_Raise]. intros _. right; left.
      intros [H1 H2]. apply Nat.leb_le in H1, H2. by rewrite H1, H2 in Hnonce. }
  apply andb_true_iff in Hnonce as [H1%Nat.leb_le H2%Nat.leb_le].
  rewrite bind_Ok, Hlen, Htake, Hdrop. change (default [] None) with (@nil byte).
  case_bool_decide as Ht.
  - split; [by intros [e He]|]. intros [Hk|[Hn|Hne]]; [done|lia|done].
  - split; [by right; right | intros _; apply raises_Raise].
Qed.
End RefAesGcmFacts.

(** ** The reference JSON decoder reads the serialised structure *)

Section RefJsonFacts.
Import RefJson.

(** *** The text is ASCII, so its octets are its UTF-8 form *)

Lemma decode_utf8_ascii (sp : bool) (s : pystr) :
  is_ascii s = true -> decode_utf8_with sp (map byte_of_N s) = Ok s.
Proof.
  induction s as [|c s IH]; [done|]. cbn [is_ascii forallb map].
  intros [Hc Hs]%andb_true_iff. apply N.ltb_lt in Hc.
  rewrite decode_utf8_1; rewrite to_N_byte_of_N by lia; [|done].
  by rewrite (IH Hs).
Qed.

Lemma is_ascii_app (s t : pystr) :
  is_ascii (s ++ t) = is_ascii s && is_ascii t.
Proof. apply forallb_app. Qed.

Lemma is_ascii_digits (x : byte) : is_ascii (digits x) = true.
Proof. destruct x; reflexivity. Qed.

Lemma join_cons_cons (sep w w' : pystr) (ws : list pystr) :
  join sep (w :: w' :: ws) = w ++ sep ++ join sep (w' :: ws).
Proof. reflexivity. Qed.

Lemma is_ascii_join (xs : list pystr) :
  forallb is_ascii xs = true -> is_ascii (join [44] xs) = true.
Proof.
  induction xs as [|w ws IH]; [done|]. cbn [forallb].
  intros [Hw Hws]%andb_true_iff. destruct ws as [|w' ws']; [done|].
  rewrite join_cons_cons, !is_ascii_app, Hw, (IH Hws). done.
Qed.

Lemma is_ascii_dumps_bytes (b : bytes) : is_ascii (dumps_bytes b) = true.
Proof.
  unfold dumps_bytes. rewrite !is_ascii_app, is_ascii_join; [done|].
  induction b as [|x b IH]; [done|]. cbn [map forallb].
  by rewrite is_ascii_digits, IH.
Qed.

Lemma is_ascii_dumps_encrypted_data (cipher nonce tag : bytes) :
  is_ascii (dumps_encrypted_data cipher nonce tag) = true.
Proof.
  unfold dumps_encrypted_data, dumps_member.
  by rewrite !is_ascii_app, !is_ascii_dumps_bytes.
Qed.

(** *** Scanning a byte array *)

Lemma scan_number_byte (x : byte) (term : N) (tail : pystr) (fuel : nat) :
  term = 44 \/ term = 93 ->
  scan_once (S fuel) (digits x ++ term :: tail) = Ok (item x, term :: tail).
Proof. intros [->| ->]; destruct x; reflexivity. Qed.

Lemma skip_ws_digits (x : byte) (r : pystr) :
  skip_ws (digits x ++ r) = digits x ++ r.
Proof. destruct x; reflexivity. Qed.

(** An array that starts with a number is not the empty array. *)
Lemma scan_once_array_nonempty (x : byte) (r : pystr) (fuel : nat) :
  scan_once (S fuel) (91 :: digits x ++ r) = scan_elements fuel (digits x ++ r) [].
Proof. destruct x; reflexivity. Qed.

Lemma scan_elements_eq (fuel : nat) (s : pystr) (acc : list json) :
  scan_elements (S fuel) s acc
  = ('(v, rest) ← scan_once fuel s;
     match skip_ws rest with
     | 93 :: rest' => Ok (JArr (acc ++ [v]), rest')
     | 44 :: rest' => scan_elements fuel (skip_ws rest') (acc ++ [v])
     | _ => Raise JSONDecodeError
     end).
Proof. reflexivity. Qed.

Lemma scan_elements_bytes (b : bytes) :
  forall (x : byte) (acc : list json) (tail : pystr) (fuel : nat),
    (length b + 1 < fuel)%nat ->
    scan_elements fuel (join [44] (map digits (x :: b)) ++ 93 :: tail) acc
    = Ok (JArr (acc ++ map item (x :: b)), tail).
Proof.
  induction b as [|y b IH]; intros x acc tail [|[|fuel]] Hfuel;
    try (cbn [length] in Hfuel; lia).
  - cbn [map join].
    rewrite scan_elements_eq, scan_number_byte by (by right). done.
  - cbn [map]. rewrite join_cons_cons, <- !app_assoc.
    change ([44] ++ ?r) with (44 :: r).
    rewrite scan_elements_eq.
    rewrite scan_number_byte by (by left). rewrite bind_Ok.
    change (skip_ws (44 :: ?r)) with (44 :: r). cbv beta iota.
    change (join [44] (digits y :: map digits b))
      with (join [44] (map digits (y :: b))).
    assert (forall r, skip_ws (join [44] (map digits (y :: b)) ++ r)
                      = join [44] (map digits (y :: b)) ++ r) as ->.
    { intros r. destruct b as [|z b]; cbn [map].
      - apply skip_ws_digits.
      - rewrite join_cons_cons, <- app_assoc. apply skip_ws_digits. }
    rewrite IH by (cbn [length] in Hfuel; lia).
    by rewrite <- app_assoc.
Qed.

Lemma scan_array_bytes (b : bytes) (tail : pystr) (fuel : nat) :
  (length b + 1 < fuel)%nat ->
  scan_once (S fuel) (dumps_bytes b ++ tail) = Ok (json_of_bytes b, tail).
Proof.
  intros Hfuel. unfold dumps_bytes. rewrite <- !app_assoc.
  change ([91] ++ ?r) with (91 :: r). change ([93] ++ ?r) with (93 :: r).
  destruct b as [|x b]; [cbn; reflexivity|].
  assert (exists r, join [44] (map digits (x :: b)) ++ 93 :: tail
                    = digits x ++ r) as [r Hr].
  { destruct b as [|y b]; cbn [map]; [by eexists|].
    rewrite join_cons_cons, <- app_assoc. by eexists. }
  rewrite Hr, scan_once_array_nonempty, <- Hr.
  rewrite scan_elements_bytes by (cbn [length] in Hfuel; lia). reflexivity.
Qed.

(** *** Scanning the structure *)

Lemma scan_members_step (fuel : nat) (k r : pystr)
    (acc : list (pystr * json)) :
  scanstring (k ++ 34 :: 58 :: r) = Ok (k, 58 :: r) ->
  scan_members (S fuel) (34 :: k ++ 34 :: 58 :: r) acc
  = ('(v, rest) ← scan_once fuel (skip_ws r);
     match skip_ws rest with
     | 125 :: rest3 => Ok (JObj (dict_set acc k v), rest3)
     | 44 :: rest3 => scan_members fuel (skip_ws rest3) (dict_set acc k v)
     | _ => Raise JSONDecodeError
     end).
Proof. intros H. cbn [scan_members]. rewrite H. reflexivity. Qed.

Lemma skip_ws_dumps_bytes (b : bytes) (r : pystr) :
  skip_ws (dumps_bytes b ++ r) = dumps_bytes b ++ r.
Proof. reflexivity. Qed.

Lemma length_dumps_bytes (b : bytes) :
  (length b <= length (dumps_bytes b))%nat.
Proof.
  unfold dumps_bytes. rewrite !length_app. cbn [length].
  enough (length b <= length (join [44%N] (map digits b)))%nat by lia.
  induction b as [|x b IH]; [done|]. destruct b as [|y b].
  - cbn. destruct x; cbn; lia.
  - cbn [map] in *. rewrite join_cons_cons, !length_app.
    cbn [length] in *. lia.
Qed.

Lemma dumps_encrypted_data_shape (cipher nonce tag : bytes) :
  dumps_encrypted_data cipher nonce tag
  = 123 :: 34 :: py "cipher" ++ 34 :: 58 :: dumps_bytes cipher
    ++ 44 :: 34 :: py "nonce" ++ 34 :: 58 :: dumps_bytes nonce
    ++ 44 :: 34 :: py "tag" ++ 34 :: 58 :: dumps_bytes tag ++ [125].
Proof.
  unfold dumps_encrypted_data, dumps_member. by rewrite <- !app_assoc.
Qed.

Lemma scan_encrypted_data (cipher nonce tag : bytes) (fuel : nat) :
  (length cipher + 1 < fuel)%nat -> (length nonce + 1 < fuel)%nat ->
  (length tag + 1 < fuel)%nat ->
  scan_once (S (S (S (S (S fuel))))) (dumps_encrypted_data cipher nonce tag)
  = Ok (encrypted_data_value cipher nonce tag, []).
Proof.
  intros Hc Hn Ht. rewrite dumps_encrypted_data_shape.
  change (scan_once (S ?f) (123 :: 34 :: ?r))
    with (scan_members f (34 :: r) []).
  rewrite scan_members_step by reflexivity.
  rewrite skip_ws_dumps_bytes, scan_array_bytes, bind_Ok by lia.
  cbv beta iota. change (skip_ws (44 :: 34 :: ?r)) with (44 :: 34 :: r).
  cbv beta iota. change (skip_ws (34 :: ?r)) with (34 :: r).
  rewrite scan_members_step by reflexivity.
  rewrite skip_ws_dumps_bytes, scan_array_bytes, bind_Ok by lia.
  cbv beta iota. change (skip_ws (44 :: 34 :: ?r)) with (44 :: 34 :: r).
  cbv beta iota. change (skip_ws (34 :: ?r)) with (34 :: r).
  rewrite scan_members_step by reflexivity.
  rewrite skip_ws_dumps_bytes, scan_array_bytes, bind_Ok by lia.
  reflexivity.
Qed.

Lemma length_dumps_encrypted_data (cipher nonce tag : bytes) :
  (length cipher + length nonce + length tag + 4
   <= length (dumps_encrypted_data cipher nonce tag))%nat.
Proof.
  rewrite dumps_encrypted_data_shape.
  repeat first [rewrite length_app | progress cbn [length]].
  pose proof (length_dumps_bytes cipher). pose proof (length_dumps_bytes nonce).
  pose proof (length_dumps_bytes tag). lia.
Qed.

Lemma decode_encrypted_data (cipher nonce tag : bytes) :
  decode (dumps_encrypted_data cipher nonce tag)
  = Ok (encrypted_data_value cipher nonce tag).
Proof.
  unfold decode.
  pose proof (length_dumps_encrypted_data cipher nonce tag) as Hlen.
  replace (2 * length (dumps_encrypted_data cipher nonce tag) + 2)%nat
    with (S (S (S (S (S (2 * length (dumps_encrypted_data cipher nonce tag)
                           - 3)))))) by lia.
  replace (skip_ws (dumps_encrypted_data cipher nonce tag))
    with (dumps_encrypted_data cipher nonce tag)
    by (by rewrite dumps_encrypted_data_shape).
  by rewrite scan_encrypted_data by lia.
Qed.

Lemma json_laws : JsonLaws json_module.
Proof.
  split. intros cipher nonce tag. cbn [json_loads json_module].
  unfold loads, decode_bytes.
  replace (detect_encoding
             (map byte_of_N (dumps_encrypted_data cipher nonce tag)))
    with utf_8
    by (rewrite dumps_encrypted_data_shape; reflexivity).
  rewrite decode_utf8_ascii by apply is_ascii_dumps_encrypted_data.
  apply decode_encrypted_data.
Qed.
End RefJsonFacts.

(** * The code on concrete inputs *)

Section Evaluation.
Import Examples.
#[local] Existing Instances
  Latin1.unicode_data RefJson.json_module RefAesGcm.aesgcm_module.

(** The payload of ["hunter2"] decrypts under the key, and under no
    other: with the last octet of the key changed the tag is refused. *)
Lemma decrypt_secret_hunter2 :
  decrypt_secret (py payload_hunter2) key = Ok (py "hunter2")
  /\ decrypt_secret (py payload_hunter2) (take 31 key ++ [x00])
     = Raise InvalidTag.
Proof. split; vm_compute; reflexivity. Qed.

(** A session with one corrupt secret among three: the two others are
    in the environment, and the failure is reported between them. *)
Lemma inject_secrets_one_corrupt :
  inject_secrets session_one_corrupt true None (∅, [])
  = Ok ({[py "DB_PASSWORD" := py "hunter2"; py "API_KEY" := py "s3cr3t"]},
        [Loaded (py "DB_PASSWORD"); FailedToDecrypt (py "broken") ValueError;
         Loaded (py "API_KEY")]).
Proof. vm_compute. reflexivity. Qed.



(** C6. A session file whose key is not hexadecimal makes the listing
    raise [ValueError], so that the two well-formed sessions beside it are
    not returned; a file that is not JSON is skipped and the others are
    returned, newest first. *)
Theorem list_all_aborts_on_bad_key :
  SessionFile_list_all linux fs_badkey = Raise ValueError
  /\ map session_name <$> SessionFile_list_all linux fs_garbage
     = Ok [JStr (py "dev"); JStr (py "old")].
Proof. split; vm_compute; reflexivity. Qed.



(** The project file with and without its keys. *)
Lemma ProjectContext_load_examples :
  ProjectContext_load linux (fs_zap "{'app':'zap'}") = Ok None
  /\ ProjectContext_load linux (fs_zap "{'current_session':'dev'}")
     = Ok (Some {| app := JStr (py "zap"); current_session := JStr (py "dev");
                   available_secrets := JArr [] |})
  /\ ProjectContext_load linux (fs_zap "[]") = Raise AttributeError.
Proof. repeat split; vm_compute; reflexivity. Qed.

(** The payload of ["hunter2"] is what the reference encryption gives
    under the key and the nonce [a0 .. ab]. *)
Lemma encrypt_hunter2 :
  encrypt (py "hunter2") key (nonce_from 160) = Ok (py payload_hunter2).
Proof. vm_compute. reflexivity. Qed.

(** The round trip with the reference AES-GCM and JSON decoder. *)
Lemma decrypt_encrypt_roundtrip_witness :
  exists payload,
    encrypt (py "hunter2") key (nonce_from 160) = Ok payload
    /\ decrypt_secret payload key = Ok (py "hunter2").
Proof.
  exact (decrypt_encrypt_roundtrip (JL := json_laws) (AL := aesgcm_laws)
           (py "hunter2") key (nonce_from 160)
           (map byte_of_N (py "hunter2")) eq_refl eq_refl eq_refl).
Defined.
End Evaluation.

(** * Properties of the rest of the module *)

(** ** Name deriver: the words of a name *)

Section SplitJoin.
Variable sep : codepoint.

Lemma split_cons_sep (s : pystr) : split sep (sep :: s) = [] :: split sep s.
Proof. simpl. by rewrite N.eqb_refl. Qed.

Lemma split_cons_other (c : codepoint) (s : pystr) :
  c <> sep ->
  exists w ws, split sep s = w :: ws /\ split sep (c :: s) = (c :: w) :: ws.
Proof.
  intros Hc. cbn [split]. rewrite (proj2 (N.eqb_neq c sep) Hc).
  destruct s as [|d s]; cbn [split].
  - by exists [], [].
  - destruct (d =? sep); [by eexists _, _|].
    destruct (split sep s) as [|w ws]; by eexists _, _.
Qed.

(** [(a + sep + b).split(sep) == a.split(sep) + b.split(sep)] *)
Lemma split_app (a b : pystr) :
  split sep (a ++ sep :: b) = split sep a ++ split sep b.
Proof.
  induction a as [|c a IH].
  - cbn [Datatypes.app]. by rewrite split_cons_sep.
  - cbn [Datatypes.app]. destruct (decide (c = sep)) as [->|Hc].
    + by rewrite !split_cons_sep, IH.
    + destruct (split_cons_other c a Hc) as (w & ws & E & ->).
      destruct (split_cons_other c (a ++ sep :: b) Hc) as (w' & ws' & E' & ->).
      rewrite IH, E in E'. cbn [Datatypes.app] in E'. by simplify_eq.
Qed.

(** No field holds the separator. *)
Lemma split_sep_free (s : pystr) : Forall (fun w => sep ∉ w) (split sep s).
Proof.
  induction s as [|c s IH].
  - constructor; [|done]. apply not_elem_of_nil.
  - destruct (decide (c = sep)) as [->|Hc].
    + rewrite split_cons_sep. constructor; [apply not_elem_of_nil | done].
    + destruct (split_cons_other c s Hc) as (w & ws & E & ->).
      rewrite E in IH. inversion IH; subst.
      constructor; [|done]. intros [->|H]%elem_of_cons; done.
Qed.

Lemma split_word (w : pystr) : sep ∉ w -> split sep w = [w].
Proof.
  induction w as [|c w IH]; intros Hw; [done|].
  assert (c <> sep) as Hc by (intros ->; apply Hw; by left).
  cbn [split]. rewrite (proj2 (N.eqb_neq c sep) Hc).
  rewrite IH; [done|]. intros H. apply Hw. by right.
Qed.

(** Joining words and splitting again gives the words back. *)
Lemma split_join (w : pystr) (ws : list pystr) :
  Forall (fun w => sep ∉ w) (w :: ws) ->
  split sep (join [sep] (w :: ws)) = w :: ws.
Proof.
  revert w. induction ws as [|w' ws IH]; intros w Hws.
  - apply split_word. by inversion Hws.
  - inversion Hws as [|?? Hw Hrest]; subst.
    change (join [sep] (w :: w' :: ws)) with (w ++ sep :: join [sep] (w' :: ws)).
    rewrite split_app, split_word by done. by rewrite IH.
Qed.

Lemma filter_None_id (ws : list pystr) :
  Forall (fun w => w <> []) ws -> filter_None ws = ws.
Proof.
  unfold filter_None. induction 1 as [|w ws Hw Hws IH]; [done|].
  simpl. destruct w; [done|]. by rewrite IH.
Qed.

Lemma filter_None_nonempty (xs : list pystr) :
  Forall (fun w => w <> []) (filter_None xs).
Proof.
  unfold filter_None. induction xs as [|w xs IH]; simpl; [constructor|].
  destruct w; [done|]. by constructor.
Qed.

Lemma filter_None_sep_free (xs : list pystr) :
  Forall (fun w => sep ∉ w) xs -> Forall (fun w => sep ∉ w) (filter_None xs).
Proof. apply filter_None_Forall. Qed.

Lemma filter_None_split_join (ws : list pystr) :
  Forall (fun w => w <> []) ws -> Forall (fun w => sep ∉ w) ws ->
  filter_None (split sep (join [sep] ws)) = ws.
Proof.
  intros Hne Hws. destruct ws as [|w ws]; [done|].
  rewrite split_join by done. by apply filter_None_id.
Qed.

(** A join of non-empty words is empty only without words. *)
Lemma join_nil (ws : list pystr) :
  Forall (fun w => w <> []) ws -> join [sep] ws = [] -> ws = [].
Proof.
  destruct 1 as [|w ws Hw Hws]; [done|].
  destruct ws; simpl; [done|]. by destruct w.
Qed.

(** A join of non-empty words without the separator has no empty field:
    it does not start or end with the separator and does not hold it
    twice in a row. *)
Lemma join_no_empty_field (ws : list pystr) :
  Forall (fun w => w <> []) ws -> Forall (fun w => sep ∉ w) ws ->
  join [sep] ws = [] \/ [] ∉ split sep (join [sep] ws).
Proof.
  intros Hne Hws. destruct ws as [|w ws]; [by left|]. right.
  rewrite split_join by done. intros H.
  by eapply Forall_forall in Hne.
Qed.
End SplitJoin.

Section NameDeriverShape.
Context {UD : UnicodeData}.

Lemma secret_name_to_env_var_words (secret_name : pystr) :
  secret_name_to_env_var secret_name None = join [underscore] (name_words secret_name).
Proof. reflexivity. Qed.

Lemma words_nonempty (secret_name : pystr) :
  Forall (fun w => w <> []) (name_words secret_name).
Proof. apply filter_None_nonempty. Qed.

Lemma words_sep_free (secret_name : pystr) :
  Forall (fun w => underscore ∉ w) (name_words secret_name).
Proof. apply filter_None_Forall, split_sep_free. Qed.

(** X1. Without a prefix the derived name never starts with an underscore,
    never ends with one and never has two in a row. *)
Theorem derived_name_underscores (secret_name : pystr) :
  let name := secret_name_to_env_var secret_name None in
  (forall s, name <> underscore :: s)
  /\ (forall s, name <> s ++ [underscore])
  /\ (forall s t, name <> s ++ [underscore; underscore] ++ t).
Proof.
  intros name. subst name. rewrite secret_name_to_env_var_words.
  destruct (join_no_empty_field underscore (name_words secret_name)
              (words_nonempty _) (words_sep_free _)) as [->|Hno].
  - repeat split; intros; try done; by destruct s.
  - repeat split; intros; intros E; apply Hno; rewrite E.
    + rewrite split_cons_sep. by left.
    + rewrite split_app. apply elem_of_app. right. by left.
    + cbn [Datatypes.app]. rewrite split_app, split_cons_sep.
      apply elem_of_app. right. by left.
Qed.

(** X2. Two names derive the same variable exactly when they have the
    same words. *)
Theorem derived_names_collide_iff (n1 n2 : pystr) (prefix : option pystr) :
  secret_name_to_env_var n1 prefix = secret_name_to_env_var n2 prefix
  <-> name_words n1 = name_words n2.
Proof.
  assert (forall n, filter_None (split underscore (join [underscore] (name_words n)))
                    = name_words n) as Hw.
  { intros n. apply filter_None_split_join;
      [apply words_nonempty | apply words_sep_free]. }
  assert (join [underscore] (name_words n1) = join [underscore] (name_words n2)
          <-> name_words n1 = name_words n2) as Hjoin.
  { split; [|by intros ->]. intros E. by rewrite <- (Hw n1), E, Hw. }
  unfold secret_name_to_env_var. destruct (truthy prefix).
  - fold (name_words n1) (name_words n2). unfold collapse_underscores. cbv zeta.
    fold (name_words n1) (name_words n2). rewrite <- Hjoin.
    split; [|by intros ->]. intros E. by apply app_inv_head, app_inv_head in E.
  - apply Hjoin.
Qed.
End NameDeriverShape.

Section SplitMore.
Variable sep : codepoint.

(** The fields are all empty exactly when the string is made of
    separators. *)
Lemma filter_None_split_nil (s : pystr) :
  filter_None (split sep s) = [] <-> Forall (fun c => c = sep) s.
Proof.
  induction s as [|c s IH]; [done|].
  destruct (decide (c = sep)) as [->|Hc].
  - rewrite split_cons_sep. cbn. rewrite IH. split.
    + by constructor.
    + by inversion 1.
  - destruct (split_cons_other sep c s Hc) as (w & ws & _ & ->). cbn. split.
    + done.
    + by inversion 1.
Qed.
End SplitMore.

Section NameDeriverMore.
Context {UD : UnicodeData}.

Lemma isalnum_underscore : isalnum underscore = false.
Proof. reflexivity. Qed.

(** X3. The derived name is empty exactly when no character of the
    upper-cased name is alphanumeric. *)
Theorem derived_name_empty_iff (secret_name : pystr) :
  secret_name_to_env_var secret_name None = []
  <-> Forall (fun c => isalnum c = false) (upper secret_name).
Proof.
  rewrite secret_name_to_env_var_words.
  transitivity (name_words secret_name = []).
  { split; [|by intros ->]. apply join_nil, words_nonempty. }
  unfold name_words. rewrite filter_None_split_nil. unfold replace_non_alnum.
  rewrite Forall_map. apply Forall_iff. intros c.
  destruct (isalnum c) eqn:E; [|done]. split; [|done].
  cbn. intros ->. by rewrite isalnum_underscore in E.
Qed.

Lemma upper_char_ascii (c : codepoint) :
  c < 128 ->
  exists c', upper_char c = [c'] /\ c' < 128 /\ is_ascii_lower c' = false
             /\ (isalnum c' = true -> is_ascii_capital_or_digit c' = true).
Proof.
  intros Hc. unfold upper_char. rewrite (proj2 (N.ltb_lt _ _) Hc).
  eexists. split; [done|].
  unfold isalnum, is_ascii_alnum, is_ascii_capital_or_digit.
  destruct (is_ascii_lower c) eqn:El.
  - unfold is_ascii_lower in El. apply andb_true_iff in El as [H1 H2].
    apply N.leb_le in H1, H2.
    assert (c - 32 < 128) as H3 by lia. split; [done|].
    assert (is_ascii_lower (c - 32) = false) as ->.
    { unfold is_ascii_lower. apply andb_false_iff. left. apply N.leb_gt. lia. }
    split; [done|]. rewrite (proj2 (N.ltb_lt _ _) H3).
    by rewrite orb_false_r.
  - split; [done|]. split; [done|]. rewrite (proj2 (N.ltb_lt _ _) Hc), El.
    by rewrite orb_false_r.
Qed.

Lemma replace_upper_portable (s : pystr) :
  Forall (fun c => c < 128) s ->
  Forall portable (replace_non_alnum (upper s)).
Proof.
  unfold replace_non_alnum, upper. induction 1 as [|c s Hc Hs IH]; [constructor|].
  cbn [flat_map]. destruct (upper_char_ascii c Hc) as (c' & -> & _ & _ & Hal).
  cbn [Datatypes.app map]. constructor; [|done].
  destruct (isalnum c') eqn:E; [left; by apply Hal | by right].
Qed.

Lemma portable_fixed (c : codepoint) :
  portable c -> upper_char c = [c] /\ (if isalnum c then c else underscore) = c.
Proof.
  unfold portable, is_ascii_capital_or_digit, upper_char, isalnum, is_ascii_alnum,
    is_ascii_upper, is_ascii_digit, is_ascii_lower.
  intros [H| ->]; [|done].
  apply orb_true_iff in H as [H|H]; apply andb_true_iff in H as [H1 H2];
    apply N.leb_le in H1, H2.
  - assert ((c <? 128) = true) as -> by (apply N.ltb_lt; lia).
    assert ((97 <=? c) = false) as -> by (apply N.leb_gt; lia).
    assert ((65 <=? c) = true) as -> by (by apply N.leb_le).
    assert ((c <=? 90) = true) as -> by (by apply N.leb_le). done.
  - assert ((c <? 128) = true) as -> by (apply N.ltb_lt; lia).
    assert ((97 <=? c) = false) as -> by (apply N.leb_gt; lia).
    assert ((48 <=? c) = true) as -> by (by apply N.leb_le).
    assert ((c <=? 57) = true) as -> by (by apply N.leb_le).
    by rewrite orb_true_r.
Qed.

Lemma portable_upper (s : pystr) : Forall portable s -> upper s = s.
Proof.
  unfold upper. induction 1 as [|c s Hc Hs IH]; [done|].
  cbn [flat_map]. destruct (portable_fixed c Hc) as [-> _]. by rewrite IH.
Qed.

Lemma portable_replace (s : pystr) : Forall portable s -> replace_non_alnum s = s.
Proof.
  unfold replace_non_alnum. induction 1 as [|c s Hc Hs IH]; [done|].
  cbn [map]. destruct (portable_fixed c Hc) as [_ ->]. by rewrite IH.
Qed.

(** X4. For a name of ASCII characters the derived name is made of capital
    letters, digits and underscores, and deriving again leaves it as it
    is. *)
Theorem derived_name_ascii_idempotent (secret_name : pystr) :
  Forall (fun c => c < 128) secret_name ->
  let name := secret_name_to_env_var secret_name None in
  Forall portable name /\ secret_name_to_env_var name None = name.
Proof.
  intros Hascii name.
  assert (Forall portable name) as Hname.
  { subst name. rewrite secret_name_to_env_var_words. unfold name_words.
    apply join_Forall; [constructor; [by right|constructor]|].
    by apply filter_None_Forall, split_Forall, replace_upper_portable. }
  split; [done|].
  rewrite (secret_name_to_env_var_words name). unfold name_words.
  rewrite (portable_upper name Hname), (portable_replace name Hname).
  subst name. rewrite secret_name_to_env_var_words.
  by rewrite filter_None_split_join
    by (apply words_nonempty || apply words_sep_free).
Qed.
End NameDeriverMore.

Lemma derived_name_ascii_idempotent_witness :
  Forall (fun c => c < 128) (py "db password")
  /\ secret_name_to_env_var
       (UD := Latin1.unicode_data)
       (secret_name_to_env_var (UD := Latin1.unicode_data) (py "db password") None) None
     = py "DB_PASSWORD".
Proof.
  assert (Forall (fun c => c < 128) (py "db password")) as H.
  { repeat constructor. }
  split; [exact H|].
  exact (proj2 (derived_name_ascii_idempotent (UD := Latin1.unicode_data)
                  (py "db password") H)).
Defined.

(** ** The order of strings *)

Lemma str_ltb_irrefl (s : pystr) : str_ltb s s = false.
Proof.
  induction s as [|c s IH]; [done|]. cbn [str_ltb].
  by rewrite N.ltb_irrefl, N.eqb_refl, IH.
Qed.

Lemma str_ltb_asym (s t : pystr) : str_ltb s t = true -> str_ltb t s = false.
Proof.
  revert t. induction s as [|c s IH]; intros [|d t]; cbn [str_ltb]; try done.
  intros [H|[H1 H2]%andb_true_iff]%orb_true_iff.
  - apply N.ltb_lt in H.
    rewrite (proj2 (N.ltb_ge d c)) by lia.
    rewrite (proj2 (N.eqb_neq d c)) by lia. done.
  - apply N.eqb_eq in H1 as ->. rewrite N.ltb_irrefl, N.eqb_refl. cbn.
    by apply IH.
Qed.

(** Not being less is transitive: the order is total. *)
Lemma str_ltb_false_trans (s t u : pystr) :
  str_ltb s t = false -> str_ltb t u = false -> str_ltb s u = false.
Proof.
  revert t u. induction s as [|c s IH]; intros [|d t] [|e u]; cbn [str_ltb];
    try done.
  intros [H1 H2]%orb_false_iff [H3 H4]%orb_false_iff.
  apply N.ltb_ge in H1, H3. apply orb_false_iff. split.
  - apply N.ltb_ge. lia.
  - apply andb_false_iff. destruct (N.eqb_spec c e) as [->|Hce]; [right|by left].
    assert (d = e) as -> by lia. rewrite N.eqb_refl in H2, H4. cbn in H2, H4.
    by eapply IH.
Qed.

(** ** Sorting *)

Section SortedFacts.
Context {A : Type} (key : A -> json).

Lemma insert_desc_Permutation (x : A) (xs l : list A) :
  insert_desc key x xs = Ok l -> l ≡ₚ x :: xs.
Proof.
  revert l. induction xs as [|y ys IH]; intros l; cbn [insert_desc].
  - by intros [= <-].
  - destruct (py_lt (key x) (key y)) as [[]|]; cbn; [|by intros [= <-]|done].
    destruct (insert_desc key x ys) as [r|]; cbn; [|done].
    intros [= <-]. rewrite (IH r eq_refl). apply Permutation_swap.
Qed.

Lemma sorted_reverse_Permutation (xs l : list A) :
  sorted_reverse key xs = Ok l -> l ≡ₚ xs.
Proof.
  revert l. induction xs as [|x xs IH]; intros l; cbn [sorted_reverse].
  - by intros [= <-].
  - destruct (sorted_reverse key xs) as [r|]; cbn; [|done].
    intros H%insert_desc_Permutation. by rewrite H, (IH r eq_refl).
Qed.

Lemma insert_desc_sorted (x : A) (xs : list A) :
  str_keys key (x :: xs) -> StronglySorted (not_before key) xs ->
  exists l, insert_desc key x xs = Ok l /\ StronglySorted (not_before key) l.
Proof.
  intros Hkeys. apply Forall_cons in Hkeys as [[a Ha] Hkeys].
  induction 1 as [|y ys Hys IH Hy]; cbn [insert_desc].
  - eexists. split; [done|]. by repeat constructor.
  - apply Forall_cons in Hkeys as [[b Hb] Hkeys].
    rewrite Ha, Hb. cbn. destruct (str_ltb a b) eqn:Hab.
    + destruct (IH Hkeys) as (l & Hl & Hsorted). rewrite Hl. cbn.
      eexists. split; [done|]. constructor; [done|].
      rewrite (insert_desc_Permutation _ _ _ Hl). constructor; [|done].
      intros b' a' Hb' Ha'. assert (a' = a) as -> by congruence.
      assert (b' = b) as -> by congruence. by apply str_ltb_asym.
    + eexists. split; [done|]. constructor; [by constructor|].
      constructor.
      * intros a' b' Ha' Hb'. congruence.
      * eapply Forall_impl; [exact Hy|]. intros z Hz a' c Ha' Hc.
        assert (a' = a) as -> by congruence.
        eapply str_ltb_false_trans; [exact Hab|]. by apply Hz.
Qed.

Lemma sorted_reverse_sorted (xs : list A) :
  str_keys key xs ->
  exists l, sorted_reverse key xs = Ok l /\ StronglySorted (not_before key) l.
Proof.
  induction 1 as [|x xs Hx Hxs IH]; cbn [sorted_reverse].
  - eexists. split; [done|]. constructor.
  - destruct IH as (r & Hr & Hsorted). rewrite Hr. cbn.
    apply insert_desc_sorted; [|done].
    constructor; [done|]. unfold str_keys.
    by rewrite (sorted_reverse_Permutation _ _ Hr).
Qed.

Lemma StronglySorted_lookup (R : A -> A -> Prop) (l : list A) (i j : nat)
    (x y : A) :
  StronglySorted R l -> (i < j)%nat -> l !! i = Some x -> l !! j = Some y ->
  R x y.
Proof.
  intros Hl. revert i j. induction Hl as [|z l Hl IH Hz]; intros i j Hij Hi Hj.
  - done.
  - destruct j as [|j]; [lia|]. destruct i as [|i].
    + cbn in Hi, Hj. simplify_eq. eapply Forall_forall in Hz; [done|].
      by eapply list_elem_of_lookup_2.
    + cbn in Hi, Hj. apply (IH i j); [lia|done|done].
Qed.
End SortedFacts.

(** ** Session store: the listing *)

Section ListFacts.
Context {JM : JsonModule} (h : host).

Lemma load_each_cons (fs : filesystem) (file : path) (files : list path)
    (sessions : list SessionFile) :
  load_each fs (file :: files) sessions
  = match read_session fs file with
    | Ok s => load_each fs files (sessions ++ [s])
    | Raise e => if handled e then load_each fs files sessions else Raise e
    end.
Proof.
  cbn [load_each]. unfold read_session, handled.
  destruct (read_text fs file) as [text|e]; cbn; [|by case_match].
  destruct (json_load text) as [data|e]; cbn; [|by case_match].
  destruct (SessionFile_init data) as [s|e]; cbn; [done|by case_match].
Qed.

Lemma readable_sessions_cons (fs : filesystem) (file : path)
    (files : list path) :
  readable_sessions fs (file :: files)
  = match read_session fs file with
    | Ok s => s :: readable_sessions fs files
    | Raise _ => readable_sessions fs files
    end.
Proof. unfold readable_sessions. cbn. by destruct (read_session fs file). Qed.

Lemma load_each_Ok (fs : filesystem) (files : list path) :
  forall sessions l,
  load_each fs files sessions = Ok l ->
  l = sessions ++ readable_sessions fs files /\ all_handled fs files.
Proof.
  induction files as [|file files IH]; intros sessions l.
  - cbn. intros [= <-]. split; [by rewrite app_nil_r | constructor].
  - rewrite load_each_cons, readable_sessions_cons. unfold all_handled.
    destruct (read_session fs file) as [s|e] eqn:E.
    + intros [-> Hall]%IH. split; [by rewrite <- app_assoc|].
      constructor; [|exact Hall]. intros e He. congruence.
    + destruct (handled e) eqn:He; [|done].
      intros [-> Hall]%IH. split; [done|].
      constructor; [|exact Hall]. intros e' He'. congruence.
Qed.

Lemma load_each_all_handled (fs : filesystem) (files : list path) :
  all_handled fs files ->
  forall sessions,
  load_each fs files sessions = Ok (sessions ++ readable_sessions fs files).
Proof.
  induction 1 as [|file files Hfile Hfiles IH]; intros sessions.
  - cbn. by rewrite app_nil_r.
  - rewrite load_each_cons, readable_sessions_cons.
    destruct (read_session fs file) as [s|e] eqn:E.
    + rewrite IH. by rewrite <- app_assoc.
    + rewrite (Hfile e eq_refl). by rewrite IH.
Qed.

(** X5. When the listing returns, it returns the sessions of the files of
    the sessions directory that [read_session] reads, each once, and every
    other file failed with [JSONDecodeError], [KeyError] or [OSError];
    without the directory it returns the empty list. *)
Theorem list_all_exact (fs : filesystem) (l : list SessionFile) :
  SessionFile_list_all h fs = Ok l ->
  let found := glob_json fs (get_sessions_directory h) in
  if exists_ fs (get_sessions_directory h)
  then l ≡ₚ readable_sessions fs found /\ all_handled fs found
  else l = [].
Proof.
  intros H. cbv zeta. unfold SessionFile_list_all in H.
  destruct (exists_ fs (get_sessions_directory h)); cbn in H; [|by simplify_eq].
  destruct (load_each fs _ []) as [sessions|] eqn:E; cbn in H; [|done].
  apply load_each_Ok in E as [-> Hall]. split; [|done].
  by apply sorted_reverse_Permutation in H.
Qed.

(** X6. When every file of the sessions directory is read or fails with an
    exception that the [except] clause names, and the [created_at] of the
    sessions read are strings, the listing returns, and newest first. *)
Theorem list_all_newest_first (fs : filesystem) :
  let found := glob_json fs (get_sessions_directory h) in
  all_handled fs found ->
  str_keys created_at (readable_sessions fs found) ->
  exists l, SessionFile_list_all h fs = Ok l /\ newest_first l.
Proof.
  intros found Hall Hkeys. unfold SessionFile_list_all.
  destruct (exists_ fs (get_sessions_directory h)); cbn.
  - fold found. rewrite (load_each_all_handled fs found Hall). cbn.
    destruct (sorted_reverse_sorted created_at _ Hkeys) as (l & Hl & Hsorted).
    exists l. split; [done|].
    intros i j s t a b Hij Hi Hj Ha Hb.
    by apply (StronglySorted_lookup _ l i j s t Hsorted Hij Hi Hj).
  - exists []. split; [done|]. by intros i j s t a b Hij Hi.
Qed.
End ListFacts.

(** ** Session store: [stop] *)

Section StopFacts.
Context {JM : JsonModule} (h : host).

Lemma ProjectContext_load_lookup (fs fs' : filesystem) :
  fs_lookup fs' (zap_file h) = fs_lookup fs (zap_file h) ->
  ProjectContext_load h fs' = ProjectContext_load h fs.
Proof.
  intros H. unfold ProjectContext_load, exists_, read_text. by rewrite H.
Qed.

Lemma SessionFile_load_missing (fs : filesystem) (name : pystr) :
  fs_lookup fs (get_session_file_path h name) = None ->
  SessionFile_load h fs name = Ok None.
Proof. intros H. unfold SessionFile_load, exists_. by rewrite H. Qed.

(** What [stop] leaves of the files when it returns. *)
Lemma stop_files (name : pystr) (fs fs' : filesystem) (out : console) :
  stop h name fs = Ok (fs', out) ->
  let session_path := get_session_file_path h name in
  (fs_lookup fs session_path = None /\ fs' = fs)
  \/ (fs' = fs_remove fs session_path
      /\ (forall ctx, ProjectContext_load h (fs_remove fs session_path)
                      = Ok (Some ctx) ->
          py_eq (current_session ctx) (JStr name) = false))
  \/ (fs' = fs_remove (fs_remove fs session_path) (zap_file h)
      /\ exists ctx, ProjectContext_load h (fs_remove fs session_path)
                     = Ok (Some ctx)
                     /\ py_eq (current_session ctx) (JStr name) = true).
Proof.
  intros H. cbv zeta. unfold stop in H.
  set (session_path := get_session_file_path h name) in *.
  unfold exists_ in H.
  destruct (fs_lookup fs session_path) as [n|] eqn:Hsession;
    [|left; split; [done|by simplify_eq]].
  right. cbn [negb] in H. destruct n as [|c].
  { assert (unlink fs session_path false = Raise OSError) as Hdir
      by (unfold unlink; by rewrite Hsession).
    by rewrite Hdir in H. }
  rewrite (unlink_file _ _ _ _ Hsession), bind_Ok in H.
  destruct (ProjectContext_load h _) as [[ctx|]|] eqn:Hctx; cbn in H; [| |done].
  - destruct (py_eq (current_session ctx) (JStr name)) eqn:Heq.
    + right. unfold unlink in H.
      destruct (fs_lookup (fs_remove fs session_path) (zap_file h))
        as [[|c']|] eqn:Hzap; cbn in H; simplify_eq.
      * split; [done|]. by exists ctx.
      * (* a context was loaded, so the project file is there *)
        unfold ProjectContext_load, exists_ in Hctx. by rewrite Hzap in Hctx.
    + simplify_eq. left. split; [done|]. intros ctx' Hctx'. by simplify_eq.
  - simplify_eq. left. split; [done|]. intros ctx' Hctx'. by simplify_eq.
Qed.

(** X7. After [stop] has returned, the session does not load any more. *)
Theorem stop_then_load (name : pystr) (fs fs' : filesystem) (out : console) :
  stop h name fs = Ok (fs', out) -> SessionFile_load h fs' name = Ok None.
Proof.
  intros H. apply SessionFile_load_missing.
  destruct (stop_files _ _ _ _ H) as [[Hnone ->]|[[-> _]|[-> _]]].
  - done.
  - apply fs_lookup_remove_eq.
  - destruct (decide (zap_file h = get_session_file_path h name)) as [->|Hne].
    + apply fs_lookup_remove_eq.
    + rewrite fs_lookup_remove_ne by done. apply fs_lookup_remove_eq.
Qed.

End StopFacts.

(** ** The commands *)

Section CmdFacts.

Lemma cmd_bind_eq {A B} (m : cmd A) (k : A -> cmd B) (w : world) :
  (m ≫= k) w
  = match m w with
    | (w', Next a) => k a w'
    | (w', Stop e) => (w', Stop e)
    end.
Proof. reflexivity. Qed.

Lemma cmd_bind_Next {A B} (m : cmd A) (k : A -> cmd B) (w w' : world) (a : A) :
  m w = (w', Next a) -> (m ≫= k) w = k a w'.
Proof. intros H. by rewrite cmd_bind_eq, H. Qed.

Lemma cmd_bind_Stop {A B} (m : cmd A) (k : A -> cmd B) (w w' : world)
    (e : ending) :
  m w = (w', Stop e) -> (m ≫= k) w = (w', Stop e).
Proof. intros H. by rewrite cmd_bind_eq, H. Qed.

Lemma with_files_Ok {A} (f : filesystem -> result A) (w : world) (a : A) :
  f (files w) = Ok a -> with_files f w = (w, Next a).
Proof. unfold with_files, lift. by intros ->. Qed.

Lemma with_files_Raise {A} (f : filesystem -> result A) (w : world) (e : exn) :
  f (files w) = Raise e -> with_files f w = (w, Stop (Uncaught e)).
Proof. unfold with_files, lift. by intros ->. Qed.

(** *** Commands that leave the files as they are *)

Lemma read_only_ret {A} (a : A) : read_only (mret a).
Proof. intros w w' r [= <- _]. done. Qed.

Lemma read_only_bind {A B} (m : cmd A) (k : A -> cmd B) :
  read_only m -> (forall a, read_only (k a)) -> read_only (m ≫= k).
Proof.
  intros Hm Hk w w' r. rewrite cmd_bind_eq.
  destruct (m w) as [w1 [a|e]] eqn:E.
  - intros H%Hk. rewrite H. by eapply Hm.
  - intros [= <- _]. by eapply Hm.
Qed.

Lemma read_only_print (n : notice) : read_only (print n).
Proof. by intros w w' r [= <- _]. Qed.

Lemma read_only_say (text : pystr) : read_only (say text).
Proof. apply read_only_print. Qed.

Lemma read_only_print_each (ns : list notice) : read_only (print_each ns).
Proof.
  induction ns as [|n ns IH]; [apply read_only_ret|].
  apply read_only_bind; [apply read_only_print | done].
Qed.

Lemma read_only_sys_exit {A} (code : Z) : read_only (@sys_exit A code).
Proof. by intros w w' r [= <- _]. Qed.

Lemma read_only_lift {A} (r : result A) : read_only (lift r).
Proof. by intros w w' r' [= <- _]. Qed.

Lemma read_only_with_files {A} (f : filesystem -> result A) :
  read_only (with_files f).
Proof. by intros w w' r' [= <- _]. Qed.

Lemma read_only_catch {A} (m : cmd A) (classes : list exn)
    (handler : exn -> cmd A) :
  read_only m -> (forall e, read_only (handler e)) ->
  read_only (catch m classes handler).
Proof.
  intros Hm Hh w w' r. unfold catch.
  destruct (m w) as [w1 [a|[code|e]]] eqn:E.
  - intros [= <- _]. by eapply Hm.
  - intros [= <- _]. by eapply Hm.
  - destruct (existsb (isinstance e) classes).
    + intros H%Hh. rewrite H. by eapply Hm.
    + intros [= <- _]. by eapply Hm.
Qed.
End CmdFacts.

Create HintDb read_only.
#[local] Hint Resolve read_only_ret read_only_print read_only_say
  read_only_print_each read_only_sys_exit read_only_lift
  read_only_with_files : read_only.

Ltac read_only :=
  repeat first
    [ progress eauto with read_only
    | apply read_only_bind; [|intros ?]
    | apply read_only_catch; [|intros ?]
    | match goal with
      | |- read_only (match ?x with _ => _ end) => destruct x
      | |- read_only (if ?b then _ else _) => destruct b
      | |- read_only (let '(_, _) := ?x in _) => destruct x
      end ].

Section ReadOnlyCommands.
Context {UD : UnicodeData} {JM : JsonModule} {JD : JsonDumpModule}.
Context {AG : AesGcmModule} {FM : Formatting} {SY : System} (h : host).

Lemma read_only_session_not_found (session_name : pystr) :
  read_only (session_not_found session_name).
Proof. unfold session_not_found. read_only. Qed.

Lemma read_only_try_paths (paths : list pystr) : read_only (try_paths paths).
Proof. induction paths as [|path paths IH]; cbn [try_paths]; read_only. Qed.

Lemma read_only_list (session_name : option pystr) :
  read_only (list_ h session_name).
Proof.
  pose proof read_only_session_not_found. unfold list_. read_only.
Qed.

Lemma read_only_status : read_only (status h).
Proof. unfold status. read_only. Qed.

Lemma read_only_run (command : list pystr) (session : option pystr)
    (verbose : bool) (prefix : option pystr) :
  read_only (run h command session verbose prefix).
Proof.
  pose proof read_only_session_not_found.
  unfold run, resolve_session, run_session. read_only.
Qed.

Lemma read_only_start : read_only (start h).
Proof. pose proof read_only_try_paths. unfold start. read_only. Qed.

(** X9. [list], [status], [run] and [start] leave every file as it is,
    however they end. *)
Theorem commands_read_only (w w' : world) :
  (forall session_name r,
     list_ h session_name w = (w', r) -> files w' = files w)
  /\ (forall r, status h w = (w', r) -> files w' = files w)
  /\ (forall command session verbose prefix r,
        run h command session verbose prefix w = (w', r) -> files w' = files w)
  /\ (forall r, start h w = (w', r) -> files w' = files w).
Proof.
  repeat split; intros.
  - by eapply read_only_list.
  - by eapply read_only_status.
  - by eapply read_only_run.
  - by eapply read_only_start.
Qed.
End ReadOnlyCommands.

(** *** Files written *)

Lemma fs_lookup_write_eq (fs : filesystem) (p : path) (text : pystr) :
  fs_lookup fs p <> Some (File Unreadable) ->
  fs_lookup (fs_write fs p text) p = Some (File (Text text)).
Proof.
  induction fs as [|[q n] fs IH]; cbn [fs_write fs_lookup].
  - intros _. unfold path_eqb. by rewrite bool_decide_eq_true_2.
  - destruct (path_eqb q p) eqn:E; cbn [fs_lookup]; rewrite E.
    + intros Hn. by destruct n as [|[]].
    + done.
Qed.

Lemma fs_lookup_write_ne (fs : filesystem) (p q : path) (text : pystr) :
  p <> q -> fs_lookup (fs_write fs p text) q = fs_lookup fs q.
Proof.
  intros Hpq. induction fs as [|[r n] fs IH]; cbn [fs_write fs_lookup].
  - unfold path_eqb. by rewrite bool_decide_eq_false_2.
  - destruct (path_eqb r p) eqn:E; cbn [fs_lookup]; [|by rewrite IH].
    apply bool_decide_eq_true_1 in E as ->. unfold path_eqb.
    by rewrite bool_decide_eq_false_2.
Qed.

(** *** Sorting strings *)

Lemma insert_str_Permutation (x : pystr) (xs : list pystr) :
  insert_str x xs ≡ₚ x :: xs.
Proof.
  induction xs as [|y ys IH]; cbn [insert_str]; [done|].
  destruct (str_ltb y x); [|done]. rewrite IH. apply Permutation_swap.
Qed.

Lemma sort_Permutation (xs : list pystr) : sort xs ≡ₚ xs.
Proof.
  induction xs as [|x xs IH]; [done|]. cbn [sort foldr].
  rewrite insert_str_Permutation. by constructor.
Qed.

Lemma insert_str_ascending (x : pystr) (xs : list pystr) :
  ascending xs -> ascending (insert_str x xs).
Proof.
  unfold ascending. induction 1 as [|y ys Hys IH Hy]; cbn [insert_str].
  - by repeat constructor.
  - destruct (str_ltb y x) eqn:Hyx.
    + constructor; [done|]. rewrite insert_str_Permutation.
      constructor; [|done]. by apply str_ltb_asym.
    + constructor; [by constructor|]. constructor; [done|].
      eapply Forall_impl; [exact Hy|]. intros z Hz. cbn in Hz |- *.
      by eapply str_ltb_false_trans.
Qed.

Lemma sort_ascending (xs : list pystr) : ascending (sort xs).
Proof.
  induction xs as [|x xs IH]; [constructor|].
  by apply insert_str_ascending.
Qed.

(** *** What a command may change *)

Section TouchesOnly.
Context {A B : Type} (P : path -> Prop).

Lemma read_only_touches_only (m : cmd A) : read_only m -> touches_only P m.
Proof. intros Hm w w' r H p _. by rewrite (Hm _ _ _ H). Qed.

Lemma touches_only_bind (m : cmd A) (k : A -> cmd B) :
  touches_only P m -> (forall a, touches_only P (k a)) ->
  touches_only P (m ≫= k).
Proof.
  intros Hm Hk w w' r. rewrite cmd_bind_eq.
  destruct (m w) as [w1 [a|e]] eqn:E.
  - intros H p Hp. rewrite (Hk _ _ _ _ H p Hp). by eapply Hm.
  - intros [= <- _]. by eapply Hm.
Qed.
End TouchesOnly.

Lemma touches_only_write (P : path -> Prop) (p : path) (text : pystr) :
  P p -> touches_only P (change_files (fun fs => Ok (fs_write fs p text))).
Proof.
  intros Hp w w' r [= <- _] q Hq. cbn. apply fs_lookup_write_ne. by intros ->.
Qed.

Lemma touches_only_unlink (P : path -> Prop) (p : path) (missing_ok : bool) :
  P p -> touches_only P (change_files (fun fs => unlink fs p missing_ok)).
Proof.
  intros Hp w w' r. unfold change_files, unlink.
  destruct (fs_lookup (files w) p) as [[|c]|].
  - by intros [= <- _] q Hq.
  - intros [= <- _] q Hq. cbn. apply fs_lookup_remove_ne. by intros ->.
  - destruct missing_ok; by intros [= <- _] q Hq.
Qed.

(** *** [use] *)

Section UseFacts.
Context {UD : UnicodeData} {JM : JsonModule} {JD : JsonDumpModule}.
Context {SY : System} (h : host).

Lemma touches_only_save (P : path -> Prop) (ctx : ProjectContext) :
  P (zap_file h) -> touches_only P (ProjectContext_save h ctx).
Proof.
  intros Hp. unfold ProjectContext_save.
  apply touches_only_bind; [apply read_only_touches_only, read_only_with_files|].
  intros _. destruct (json_dump _ _) as [text error].
  apply touches_only_bind; [by apply touches_only_write|].
  intros _. apply read_only_touches_only. destruct error; read_only.
Qed.

Lemma save_written (ctx : ProjectContext) (w : world) (text : pystr) :
  open_w (files w) (zap_file h) = Ok () ->
  json_dump (JObj [(py "app", app ctx);
                   (py "current_session", current_session ctx);
                   (py "available_secrets", available_secrets ctx)]) 2
  = (text, None) ->
  ProjectContext_save h ctx w
  = ({| files := fs_write (files w) (zap_file h) text; printed := printed w |},
     Next ()).
Proof.
  intros Hopen Hdump. unfold ProjectContext_save.
  rewrite (cmd_bind_Next _ _ _ _ _ (with_files_Ok _ _ _ Hopen)).
  rewrite Hdump. reflexivity.
Qed.

(** What [use] does for a session that loads. *)
Lemma use_loaded (session_name : pystr) (w : world) (session : SessionFile)
    (names : list pystr) (text : pystr) :
  SessionFile_load h (files w) session_name = Ok (Some session) ->
  keys (encrypted_secrets session) = Ok names ->
  open_w (files w) (zap_file h) = Ok () ->
  json_dump (context_object session_name (recorded_names names)) 2
  = (text, None) ->
  exists out,
    use h session_name w
    = ({| files := fs_write (files w) (zap_file h) text; printed := out |},
       Next ()).
Proof.
  intros Hload Hkeys Hopen Hdump. unfold use.
  rewrite (cmd_bind_Next _ _ _ _ _ (with_files_Ok _ _ _ Hload)).
  rewrite Hkeys. rewrite cmd_bind_eq. cbn [lift].
  rewrite cmd_bind_eq.
  change (ProjectContext_init _)
    with (Ok {| app := JStr (py "zap"); current_session := JStr session_name;
                available_secrets := JArr (map JStr (recorded_names names)) |}).
  cbn [lift].
  rewrite (cmd_bind_Next _ _ _ _ _
             (save_written
                {| app := JStr (py "zap"); current_session := JStr session_name;
                   available_secrets := JArr (map JStr (recorded_names names)) |}
                _ text Hopen Hdump)).
  eexists. reflexivity.
Qed.
End UseFacts.

Section UseTheorems.
Context {UD : UnicodeData} {JM : JsonModule} {JD : JsonDumpModule}.
Context {AG : AesGcmModule} {FM : Formatting} {SY : System} (h : host).
Context {JL : JsonDumpLaws JM JD}.

Lemma use_loaded_context (session_name : pystr) (w : world)
    (session : SessionFile) (names : list pystr) :
  SessionFile_load h (files w) session_name = Ok (Some session) ->
  keys (encrypted_secrets session) = Ok names ->
  json_text session_name = true ->
  forallb json_text (recorded_names names) = true ->
  open_w (files w) (zap_file h) = Ok () ->
  fs_lookup (files w) (zap_file h) <> Some (File Unreadable) ->
  exists w' text,
    use h session_name w = (w', Next ())
    /\ files w' = fs_write (files w) (zap_file h) text
    /\ ProjectContext_load h (files w')
       = Ok (Some (recorded_context session_name names)).
Proof.
  intros Hload Hkeys Hname Hnames Hopen Hzap.
  destruct (json_dump_load_context session_name (recorded_names names)
              Hname Hnames) as (text & Hdump & Hread).
  destruct (use_loaded h session_name w session names text
              Hload Hkeys Hopen Hdump) as (out & Huse).
  eexists _, text. split; [exact Huse|]. split; [done|]. cbn [files].
  by rewrite (ProjectContext_load_object h _ text _
                (fs_lookup_write_eq _ _ text Hzap) Hread).
Qed.



Lemma SessionFile_load_Some (fs : filesystem) (session_name : pystr)
    (session : SessionFile) :
  SessionFile_load h fs session_name = Ok (Some session) ->
  exists text,
    fs_lookup fs (get_session_file_path h session_name) = Some (File (Text text))
    /\ read_session fs (get_session_file_path h session_name) = Ok session.
Proof.
  unfold SessionFile_load, exists_, read_session, read_text.
  destruct (fs_lookup fs _) as [[|[text| |]]|]; cbn; try done.
  intros H. exists text. split; [done|].
  destruct (json_load text) as [data|e]; cbn in *; [|by case_match].
  destruct (SessionFile_init data) as [s|e]; cbn in *; [congruence|by case_match].
Qed.


Lemma run_cons (c : pystr) (command : list pystr) (opt prefix : option pystr)
    (verbose : bool) (w : world) :
  run h (c :: command) opt verbose prefix w
  = (session_name ← resolve_session h opt;
     run_session h (c :: command) verbose prefix session_name) w.
Proof. reflexivity. Qed.

End UseTheorems.

(** *** How a command ends *)

Section Endings.

Lemma no_exit_ret {A} (a : A) : no_exit (mret a).
Proof. by intros w w' code. Qed.

Lemma no_exit_print (n : notice) : no_exit (print n).
Proof. by intros w w' code. Qed.

Lemma no_exit_say (text : pystr) : no_exit (say text).
Proof. by intros w w' code. Qed.

Lemma no_exit_lift {A} (r : result A) : no_exit (lift r).
Proof. intros w w' code. unfold lift. by destruct r. Qed.

Lemma no_exit_with_files {A} (f : filesystem -> result A) :
  no_exit (with_files f).
Proof. intros w. apply no_exit_lift. Qed.

Lemma no_exit_bind {A B} (m : cmd A) (k : A -> cmd B) :
  no_exit m -> (forall a, no_exit (k a)) -> no_exit (m ≫= k).
Proof.
  intros Hm Hk w w' code. rewrite cmd_bind_eq.
  destruct (m w) as [w1 [a|e]] eqn:E; [apply Hk|].
  intros [= <- ->]. by eapply Hm.
Qed.

Lemma no_exit_print_each (ns : list notice) : no_exit (print_each ns).
Proof.
  induction ns as [|n ns IH]; [apply no_exit_ret|].
  apply no_exit_bind; [apply no_exit_print | done].
Qed.

(** A [sys.exit] of a sequence is one of its second part when the first
    part has none. *)
Lemma bind_exit {A B} (m : cmd A) (k : A -> cmd B) (w w' : world) (code : Z) :
  no_exit m -> (m ≫= k) w = (w', Stop (SystemExit code)) ->
  exists a w1, m w = (w1, Next a) /\ k a w1 = (w', Stop (SystemExit code)).
Proof.
  intros Hm. rewrite cmd_bind_eq. destruct (m w) as [w1 [a|e]] eqn:E.
  - intros H. by exists a, w1.
  - intros [= <- ->]. by apply Hm in E.
Qed.

Lemma never_returns_sys_exit {A} (code : Z) : never_returns (@sys_exit A code).
Proof. by intros w w' a. Qed.

Lemma never_returns_bind {A B} (m : cmd A) (k : A -> cmd B) :
  (forall a, never_returns (k a)) -> never_returns (m ≫= k).
Proof.
  intros Hk w w' b. rewrite cmd_bind_eq.
  destruct (m w) as [w1 [a|e]]; [apply Hk | done].
Qed.

Lemma never_returns_bind_l {A B} (m : cmd A) (k : A -> cmd B) :
  never_returns m -> never_returns (m ≫= k).
Proof.
  intros Hm w w' b. rewrite cmd_bind_eq.
  destruct (m w) as [w1 [a|e]] eqn:E; [by apply Hm in E | done].
Qed.
End Endings.

Create HintDb no_exit.
#[local] Hint Resolve no_exit_ret no_exit_print no_exit_say no_exit_lift
  no_exit_with_files no_exit_print_each : no_exit.

Ltac no_exit :=
  repeat first
    [ progress eauto with no_exit
    | apply no_exit_bind; [|intros ?]
    | match goal with
      | |- no_exit (match ?x with _ => _ end) => destruct x
      | |- no_exit (if ?b then _ else _) => destruct b
      end ].

(** *** [run] *)

Section RunFacts.
Context {UD : UnicodeData} {JM : JsonModule} {JD : JsonDumpModule}.
Context {AG : AesGcmModule} {FM : Formatting} {SY : System} (h : host).

Lemma never_returns_run_session (command : list pystr) (verbose : bool)
    (prefix : option pystr) (session_name : json) :
  never_returns (run_session h command verbose prefix session_name).
Proof.
  unfold run_session. apply never_returns_bind. intros [session_file|].
  - do 2 (apply never_returns_bind; intros ?). case_match.
    do 3 (apply never_returns_bind; intros ?). apply never_returns_sys_exit.
  - apply never_returns_bind. intros _. apply never_returns_sys_exit.
Qed.

Lemma resolve_session_exit (session : option pystr) (w w' : world) (code : Z) :
  resolve_session h session w = (w', Stop (SystemExit code)) -> code = 1%Z.
Proof.
  unfold resolve_session. destruct (truthy session); [done|].
  rewrite cmd_bind_eq. unfold with_files, lift.
  destruct (ProjectContext_load h (files w)) as [[context|]|e]; [done| |done].
  by intros [= _ <-].
Qed.

Lemma resolve_session_Next (session : option pystr) (w w' : world)
    (session_name : json) :
  resolve_session h session w = (w', Next session_name) ->
  w' = w /\ resolved h session (files w) session_name.
Proof.
  unfold resolve_session, resolved. destruct (truthy session).
  - by intros [= <- <-].
  - rewrite cmd_bind_eq. unfold with_files, lift.
    destruct (ProjectContext_load h (files w)) as [[context|]|e]; [|done|done].
    intros [= <- <-]. split; [done|]. by exists context.
Qed.

Lemma run_session_exit (command : list pystr) (verbose : bool)
    (prefix : option pystr) (session_name : json) (w w' : world) (code : Z) :
  run_session h command verbose prefix session_name w
  = (w', Stop (SystemExit code)) ->
  code = 1%Z
  \/ exists session_file env out,
       SessionFile_load h (files w) (str session_name) = Ok (Some session_file)
       /\ inject_secrets session_file verbose prefix (os_environ, []) = Ok (env, out)
       /\ subprocess_run command (Some env) false = Ok code.
Proof.
  unfold run_session. intros H.
  apply bind_exit in H as ([session_file|] & w1 & Hload & H);
    [| |apply no_exit_with_files].
  - right. exists session_file.
    unfold with_files, lift in Hload.
    destruct (SessionFile_load h (files w) (str session_name))
      as [loaded|] eqn:Hl; [|done].
    injection Hload as <- ->.
    apply bind_exit in H as ([] & w2 & _ & H); [|no_exit].
    apply bind_exit in H as ([env out] & w3 & Hinject & H); [|no_exit].
    unfold lift in Hinject.
    destruct (inject_secrets session_file verbose prefix (os_environ, []))
      as [[env' out']|] eqn:Hi; [|done].
    injection Hinject as <- <- <-. exists env', out'.
    apply bind_exit in H as ([] & w4 & _ & H); [|no_exit].
    apply bind_exit in H as ([] & w5 & _ & H); [|no_exit].
    apply bind_exit in H as (result & w6 & Hrun & H); [|no_exit].
    unfold lift in Hrun.
    destruct (subprocess_run command (Some env') false) as [code'|] eqn:Hs;
      [|done].
    injection Hrun as <- <-. by injection H as _ <-.
  - left. apply bind_exit in H as ([] & w2 & _ & H);
      [|unfold session_not_found; no_exit].
    by injection H as _ <-.
Qed.

(** X14. [run] never returns: it ends by [sys.exit] or by an exception.
    The code of the exit is 1, or it is the return code of the child,
    which then was run in the environment that the loop over the secrets
    of the resolved session made of [os.environ]. *)
Theorem run_exit_code (command : list pystr) (session : option pystr)
    (verbose : bool) (prefix : option pystr) :
  never_returns (run h command session verbose prefix)
  /\ (forall w w' code,
        run h command session verbose prefix w = (w', Stop (SystemExit code)) ->
        code = 1%Z
        \/ exists session_name session_file env out,
             resolved h session (files w) session_name
             /\ SessionFile_load h (files w) (str session_name)
                = Ok (Some session_file)
             /\ inject_secrets session_file verbose prefix (os_environ, [])
                = Ok (env, out)
             /\ subprocess_run command (Some env) false = Ok code).
Proof.
  split.
  - unfold run. apply never_returns_bind. intros _. apply never_returns_bind.
    intros session_name. apply never_returns_run_session.
  - intros w w' code. destruct command as [|c command].
    { intros [= _ <-]. by left. }
    rewrite run_cons, cmd_bind_eq.
    destruct (resolve_session h session w) as [w1 [session_name|e]] eqn:E.
    + apply resolve_session_Next in E as [-> Hresolved].
      intros [->|(session_file & env & out & H)]%run_session_exit; [by left|].
      right. by exists session_name, session_file, env, out.
    + intros [= <- ->]. left. by eapply resolve_session_exit.
Qed.
End RunFacts.

(** *** Files removed *)

Lemma elem_of_List_filter {A} (f : A -> bool) (l : list A) (x : A) :
  x ∈ List.filter f l <-> f x = true /\ x ∈ l.
Proof. rewrite !list_elem_of_In, filter_In. tauto. Qed.

Lemma fs_lookup_None (fs : filesystem) (p : path) :
  fs_lookup fs p = None <-> p ∉ fst <$> fs.
Proof.
  induction fs as [|[q n] fs IH]; cbn [fs_lookup fmap list_fmap fst].
  - split; [intros _; apply not_elem_of_nil | done].
  - unfold path_eqb. destruct (decide (q = p)) as [->|Hne].
    + rewrite bool_decide_eq_true_2 by done. split; [done|].
      intros H. exfalso. apply H. by left.
    + rewrite bool_decide_eq_false_2 by done. rewrite IH.
      rewrite not_elem_of_cons.
      split; [intros H; split; [intros E; by apply Hne | done] | by intros [_ H]].
Qed.

Lemma fs_remove_subseteq (fs : filesystem) (p q : path) :
  q ∈ fst <$> fs_remove fs p -> q ∈ fst <$> fs.
Proof.
  unfold fs_remove. intros ((q' & n) & -> & Hin)%list_elem_of_fmap.
  apply elem_of_List_filter in Hin as [_ Hin].
  apply list_elem_of_fmap. by exists (q', n).
Qed.

Lemma fs_lookup_remove_all (fs : filesystem) (l : list path) (q : path) :
  fs_lookup (remove_all fs l) q = if decide (q ∈ l) then None else fs_lookup fs q.
Proof.
  unfold remove_all. revert fs. induction l as [|p l IH]; intros fs; cbn [foldl].
  - rewrite decide_False; [done | apply not_elem_of_nil].
  - rewrite IH. destruct (decide (q ∈ l)) as [Hin|Hnin].
    + rewrite decide_True; [done | by right].
    + destruct (decide (p = q)) as [->|Hne].
      * rewrite decide_True by (by left). apply fs_lookup_remove_eq.
      * rewrite decide_False by (by intros [->|?]%elem_of_cons).
        by apply fs_lookup_remove_ne.
Qed.

Lemma glob_json_elem (fs : filesystem) (d p : path) :
  p ∈ glob_json fs d -> fs_lookup fs p <> None.
Proof.
  unfold glob_json. intros [_ Hin]%elem_of_List_filter.
  by intros H%fs_lookup_None.
Qed.

Lemma glob_json_mono (fs fs' : filesystem) (d p : path) :
  (forall q, q ∈ fst <$> fs' -> q ∈ fst <$> fs) ->
  p ∈ glob_json fs' d -> p ∈ glob_json fs d.
Proof.
  unfold glob_json. intros Hsub [HP Hin]%elem_of_List_filter.
  apply elem_of_List_filter. split; [done|]. by apply Hsub.
Qed.

Lemma NoDup_List_filter {A} (f : A -> bool) (l : list A) :
  NoDup l -> NoDup (List.filter f l).
Proof.
  induction 1 as [|x l Hx Hl IH]; cbn [List.filter]; [constructor|].
  destruct (f x); [|done]. constructor; [|done].
  by intros [_ H]%elem_of_List_filter.
Qed.

Lemma glob_json_NoDup (fs : filesystem) (d : path) :
  NoDup (fst <$> fs) -> NoDup (glob_json fs d).
Proof. unfold glob_json. apply NoDup_List_filter. Qed.

(** *** [clear] *)

Section ClearFacts.
Context {UD : UnicodeData} {JM : JsonModule} {JD : JsonDumpModule}.
Context {AG : AesGcmModule} {FM : Formatting} {SY : System} (h : host).

Lemma unlink_each_files (l : list path) :
  forall (fs : filesystem) (out : list notice) (cleared : nat),
  NoDup l ->
  (forall p, p ∈ l -> exists c, fs_lookup fs p = Some (File c)) ->
  unlink_each l cleared {| files := fs; printed := out |}
  = ({| files := remove_all fs l; printed := out |},
     Next (cleared + length l)%nat).
Proof.
  induction l as [|p l IH]; intros fs out cleared Hnodup Hfiles.
  - cbn. by rewrite Nat.add_0_r.
  - cbn [unlink_each]. rewrite cmd_bind_eq. unfold change_files. cbn [files].
    destruct (Hfiles p) as [c Hp]; [by left|].
    rewrite (unlink_file _ _ _ _ Hp). cbn [printed].
    apply NoDup_cons in Hnodup as [Hp_l Hnodup].
    rewrite IH; [|done|].
    + cbn [length]. by rewrite Nat.add_succ_r.
    + intros q Hq. destruct (Hfiles q) as [c' Hq']; [by right|].
      exists c'. rewrite fs_lookup_remove_ne; [done|]. by intros ->.
Qed.

(** X15. [clear], when sessions are listed and the user confirms: every
    file [*.json] of the sessions directory is removed, those that the
    listing skipped too, and the project file; nothing else changes, and
    no session is listed afterwards.  This is for a sessions directory
    whose entries [*.json] are files and a project path that is not a
    directory, each path being listed once. *)
Theorem clear_confirmed (w : world) (first : SessionFile)
    (others : list SessionFile) :
  let found := glob_json (files w) (get_sessions_directory h) in
  SessionFile_list_all h (files w) = Ok (first :: others) ->
  click_confirm (clear_prompt (S (length others))) = Ok true ->
  NoDup (fst <$> files w) ->
  (forall p, p ∈ found -> exists c, fs_lookup (files w) p = Some (File c)) ->
  fs_lookup (files w) (zap_file h) <> Some Dir ->
  exists w',
    clear h w = (w', Next ())
    /\ (forall p, p ∈ found -> fs_lookup (files w') p = None)
    /\ fs_lookup (files w') (zap_file h) = None
    /\ (forall p, p ∉ found -> p <> zap_file h ->
                  fs_lookup (files w') p = fs_lookup (files w) p)
    /\ SessionFile_list_all h (files w') = Ok []
    /\ (S (length others) <= length found)%nat.
Proof.
  intros found Hlist Hconfirm Hnodup Hfiles Hzap.
  set (fs1 := remove_all (files w) found).
  assert (forall fs2, (forall p, p ∈ found -> fs_lookup fs2 p = None) ->
                      (forall q, q ∈ fst <$> fs2 -> q ∈ fst <$> files w) ->
                      SessionFile_list_all h fs2 = Ok []) as Hempty.
  { intros fs2 Hnone Hsub. unfold SessionFile_list_all.
    destruct (exists_ fs2 _); [|done]. cbn.
    assert (glob_json fs2 (get_sessions_directory h) = []) as ->; [|done].
    apply elem_of_nil_inv. intros p Hp.
    apply (glob_json_elem _ _ _ Hp), Hnone.
    by apply (glob_json_mono (files w) fs2). }
  assert (forall q, q ∈ fst <$> fs1 -> q ∈ fst <$> files w) as Hsub1.
  { intros q Hq. destruct (decide (q ∈ fst <$> files w)) as [|Hn]; [done|].
    exfalso. apply fs_lookup_None in Hn.
    assert (fs_lookup fs1 q = None) as Hq'.
    { subst fs1. rewrite fs_lookup_remove_all. by destruct (decide (q ∈ found)). }
    by apply fs_lookup_None in Hq'. }
  assert (clear h w
          = (change_files (fun fs => unlink fs (zap_file h) true)
             ≫= fun _ => say (py "  [dim]Cleared from current project[/dim]"))
              {| files := fs1;
                 printed := printed w
                   ++ [Line (py "[green]" ++ check_mark ++ py "[/green] Cleared "
                             ++ str_of_nat (length found) ++ py " session(s)")] |})
    as ->.
  { unfold clear. rewrite (cmd_bind_Next _ _ _ _ _ (with_files_Ok _ _ _ Hlist)).
    cbn [length]. fold (clear_prompt (S (length others))).
    rewrite Hconfirm. rewrite cmd_bind_eq. cbn [lift negb].
    rewrite cmd_bind_eq. unfold with_files at 1. cbn [lift].
    fold found. rewrite cmd_bind_eq. destruct w as [fs out].
    rewrite unlink_each_files; [|by apply glob_json_NoDup|done].
    cbn [files printed]. by rewrite cmd_bind_eq. }
  assert (length (first :: others) <= length found)%nat as Hlen.
  { unfold SessionFile_list_all in Hlist.
    destruct (exists_ _ _); [|done]. cbn in Hlist.
    destruct (load_each _ _ []) as [sessions|] eqn:E; [|done]. cbn in Hlist.
    apply load_each_Ok in E as [-> _].
    apply sorted_reverse_Permutation in Hlist. rewrite Hlist. cbn [Datatypes.app].
    unfold readable_sessions. fold found. clear.
    induction found as [|p l IH]; [done|].
    cbn. destruct (read_session _ p); cbn; lia. }
  assert (fs_lookup fs1 (zap_file h) = fs_lookup (files w) (zap_file h)
          \/ fs_lookup fs1 (zap_file h) = None) as Hzap1.
  { subst fs1. rewrite fs_lookup_remove_all. destruct (decide _); auto. }
  rewrite cmd_bind_eq. unfold change_files, unlink. cbn [files printed].
  destruct (fs_lookup fs1 (zap_file h)) as [[|c]|] eqn:Hz.
  - destruct Hzap1 as [E|E]; [by rewrite <- E in Hzap | done].
  - eexists. split; [reflexivity|]. cbn [files]. repeat split.
    + intros p Hp. destruct (decide (zap_file h = p)) as [<-|Hne].
      * apply fs_lookup_remove_eq.
      * rewrite fs_lookup_remove_ne by done. subst fs1.
        rewrite fs_lookup_remove_all. by rewrite decide_True.
    + apply fs_lookup_remove_eq.
    + intros p Hp Hpz. rewrite fs_lookup_remove_ne by done. subst fs1.
      rewrite fs_lookup_remove_all. by rewrite decide_False.
    + apply Hempty.
      * intros p Hp. destruct (decide (zap_file h = p)) as [<-|Hne].
        -- apply fs_lookup_remove_eq.
        -- rewrite fs_lookup_remove_ne by done. subst fs1.
           rewrite fs_lookup_remove_all. by rewrite decide_True.
      * intros q Hq%fs_remove_subseteq. by apply Hsub1.
    + exact Hlen.
  - eexists. split; [reflexivity|]. cbn [files]. repeat split.
    + intros p Hp. subst fs1. rewrite fs_lookup_remove_all.
      by rewrite decide_True.
    + done.
    + intros p Hp Hpz. subst fs1. rewrite fs_lookup_remove_all.
      by rewrite decide_False.
    + apply Hempty; [|done]. intros p Hp. subst fs1.
      rewrite fs_lookup_remove_all. by rewrite decide_True.
    + exact Hlen.
Qed.

(** X16. [clear] removes nothing when no session is listed, although files
    that the listing skips may be there, and nothing when the user does
    not confirm. *)
Theorem clear_declined (w : world) (sessions : list SessionFile) :
  SessionFile_list_all h (files w) = Ok sessions ->
  sessions = []
  \/ click_confirm (clear_prompt (length sessions)) = Ok false ->
  exists w', clear h w = (w', Next ()) /\ files w' = files w.
Proof.
  intros Hlist Hwhy. unfold clear.
  rewrite (cmd_bind_Next _ _ _ _ _ (with_files_Ok _ _ _ Hlist)).
  destruct sessions as [|first others].
  - eexists. split; [reflexivity|done].
  - destruct Hwhy as [|Hconfirm]; [done|].
    fold (clear_prompt (length (first :: others))). rewrite Hconfirm.
    eexists. split; [reflexivity|done].
Qed.
End ClearFacts.

(** *** [start] *)

Section StartFacts.
Context {SY : System} (h : host).

Lemma no_exit_catch {A} (m : cmd A) (classes : list exn)
    (handler : exn -> cmd A) :
  no_exit m -> (forall e, no_exit (handler e)) ->
  no_exit (catch m classes handler).
Proof.
  intros Hm Hh w w' code. unfold catch.
  destruct (m w) as [w1 [a|[code'|e]]] eqn:E; [done|by apply Hm in E|].
  destruct (existsb (isinstance e) classes); [apply Hh | done].
Qed.

Lemma no_exit_try_paths (paths : list pystr) : no_exit (try_paths paths).
Proof.
  induction paths as [|path paths IH]; cbn [try_paths]; [no_exit|].
  apply no_exit_bind; [apply no_exit_catch; no_exit|].
  intros []; [no_exit | done].
Qed.

(** When the launches fail with [OSError], the loop over the paths ends
    without an exception and without a word. *)
Lemma try_paths_OSError (paths : list pystr) (w : world) :
  (forall path e, subprocess_Popen [path] = Raise e -> isinstance e OSError = true) ->
  try_paths paths w = (w, Next ()).
Proof.
  intros Hfail. induction paths as [|path paths IH]; [done|].
  cbn [try_paths]. rewrite cmd_bind_eq. unfold catch. rewrite cmd_bind_eq.
  unfold lift. destruct (subprocess_Popen [path]) as [[]|e] eqn:E; [done|].
  cbn [existsb]. by rewrite (Hfail _ _ E).
Qed.

(** X17. [start] always returns, whatever the launch does; and on Windows
    it reports that the application was launched also when every launch
    has failed with [OSError]. *)
Theorem start_reports (w : world) :
  (exists w', start h w = (w', Next ()) /\ files w' = files w)
  /\ (sys_platform h = Win32 ->
      (forall path e, subprocess_Popen [path] = Raise e ->
                      isinstance e OSError = true) ->
      exists w', start h w = (w', Next ())
        /\ printed w'
           = printed w
             ++ [Line (py "[cyan bold]Opening Zap desktop app...[/cyan bold]");
                 Line (check_mark_button ++ py " Zap app launched successfully!");
                 Line (py "[dim]Create a new session in the app's Dev Mode[/dim]")]).
Proof.
  split.
  - assert (exists w', start h w = (w', Next ())) as [w' Hw'].
    { unfold start. rewrite cmd_bind_eq. cbn [say print]. unfold catch.
      match goal with
      | |- context [match ?m ?w1 with _ => _ end] =>
          assert (no_exit m) as Hbody;
          [|destruct (m w1) as [w2 [[]|[code|e]]] eqn:E]
      end.
      - apply no_exit_bind.
        + destruct (sys_platform h).
          * apply no_exit_try_paths.
          * apply no_exit_bind; [apply no_exit_lift|intros ?; apply no_exit_ret].
          * apply no_exit_lift.
        + intros _. apply no_exit_bind; [apply no_exit_say|].
          intros _. apply no_exit_say.
      - by eexists.
      - by apply Hbody in E.
      - cbn [existsb]. rewrite isinstance_Exception. cbn [orb].
        eexists. reflexivity. }
    exists w'. split; [done|]. by eapply (read_only_start h).
  - intros Hwin Hfail. unfold start. rewrite Hwin.
    rewrite cmd_bind_eq. cbn [say print]. unfold catch.
    rewrite cmd_bind_eq, (try_paths_OSError _ _ Hfail).
    eexists. split; [reflexivity|]. cbn [printed].
    by rewrite <- !app_assoc.
Qed.
End StartFacts.

(** *** A session that loads is listed *)

Lemma endswith_refl (s : pystr) : endswith s s = true.
Proof.
  destruct s; cbn [endswith]; apply orb_true_iff; left;
    apply bool_decide_eq_true; done.
Qed.

Lemma endswith_app (s suffix : pystr) : endswith (s ++ suffix) suffix = true.
Proof.
  induction s as [|c s IH]; cbn [Datatypes.app]; [apply endswith_refl|].
  cbn [endswith]. rewrite IH. apply orb_true_r.
Qed.

Lemma last_Some_app (d : path) (name : pystr) :
  List.last (Some <$> d ++ [name]) None = Some name.
Proof.
  rewrite fmap_app. cbn [fmap list_fmap].
  induction (Some <$> d) as [|x l IH]; [done|].
  cbn [Datatypes.app]. destruct (l ++ [Some name]) eqn:E; [|done].
  by destruct l.
Qed.

Section LoadAndList.
Context {JM : JsonModule} (h : host).

(** The file of a session that exists is among the files that the
    listing goes through. *)
Lemma session_file_in_glob (fs : filesystem) (name : pystr) :
  fs_lookup fs (get_session_file_path h name) <> None ->
  get_session_file_path h name ∈ glob_json fs (get_sessions_directory h).
Proof.
  intros Hfile. unfold glob_json. apply elem_of_List_filter. split.
  - unfold get_session_file_path. rewrite last_Some_app.
    apply andb_true_iff. split; [by apply bool_decide_eq_true|].
    apply endswith_app.
  - destruct (decide (get_session_file_path h name ∈ fst <$> fs)) as [|Hnin];
      [done|]. by apply fs_lookup_None in Hnin.
Qed.

Lemma readable_sessions_elem (fs : filesystem) (files : list path)
    (file : path) (s : SessionFile) :
  file ∈ files -> read_session fs file = Ok s ->
  s ∈ readable_sessions fs files.
Proof.
  intros Hin Hread. unfold readable_sessions. apply list_elem_of_omap.
  exists file. by rewrite Hread.
Qed.

End LoadAndList.

(** *** Commands that do not call [sys.exit] *)

Section ExitStatus.
Context {UD : UnicodeData} {JM : JsonModule} {JD : JsonDumpModule}.
Context {AG : AesGcmModule} {FM : Formatting} {SY : System} (h : host).

Lemma no_exit_change_files (f : filesystem -> result filesystem) :
  no_exit (change_files f).
Proof. intros w w' code. unfold change_files. by destruct (f (files w)). Qed.

Lemma no_exit_unlink_each (paths : list path) :
  forall cleared, no_exit (unlink_each paths cleared).
Proof.
  induction paths as [|p paths IH]; intros cleared; cbn [unlink_each].
  - apply no_exit_ret.
  - apply no_exit_bind; [apply no_exit_change_files | intros _; apply IH].
Qed.

Lemma no_exit_session_not_found (session_name : pystr) :
  no_exit (session_not_found session_name).
Proof. unfold session_not_found. no_exit. Qed.

Lemma no_exit_list (session_name : option pystr) :
  no_exit (list_ h session_name).
Proof.
  unfold list_. destruct (truthy session_name).
  - apply no_exit_bind; [apply no_exit_with_files|].
    intros [session|]; [|apply no_exit_session_not_found]. no_exit.
  - no_exit.
Qed.

Lemma no_exit_status : no_exit (status h).
Proof. unfold status. no_exit. Qed.

Lemma no_exit_clear : no_exit (clear h).
Proof.
  unfold clear. apply no_exit_bind; [apply no_exit_with_files|].
  intros [|s l]; [apply no_exit_say|].
  apply no_exit_bind; [apply no_exit_lift|]. intros confirmed.
  destruct (negb confirmed); [apply no_exit_say|].
  apply no_exit_bind; [apply no_exit_with_files|]. intros found.
  apply no_exit_bind; [apply no_exit_unlink_each|]. intros cleared.
  apply no_exit_bind; [apply no_exit_say|]. intros _.
  apply no_exit_bind; [apply no_exit_change_files | intros _; apply no_exit_say].
Qed.

Lemma no_exit_start : no_exit (start h).
Proof.
  unfold start. apply no_exit_bind; [apply no_exit_say|]. intros _.
  apply no_exit_catch; [|intros e; no_exit].
  apply no_exit_bind; [|intros _; no_exit].
  destruct (sys_platform h); [apply no_exit_try_paths | no_exit..].
Qed.

End ExitStatus.

(** ** The reference JSON reader reads what the reference encoder writes *)

Section RefJsonDumpFacts.
Import RefJson RefJsonDump.

Lemma hex_digit_hex_digit_of (x : N) :
  x < 16 -> hex_digit (hex_digit_of x) = Some x.
Proof.
  intros Hx. unfold hex_digit_of, hex_digit, is_ascii_digit.
  destruct (N.ltb_spec x 10).
  - ltb_lia. cbn. f_equal. lia.
  - ltb_lia. cbn. f_equal. lia.
Qed.

Lemma hex4_hex4_of (n : N) :
  n < 65536 ->
  exists a b c d, hex4_of n = [a; b; c; d] /\ hex4 a b c d = Some n.
Proof.
  intros Hn. unfold hex4_of. eexists _, _, _, _. split; [done|].
  unfold hex4. rewrite !hex_digit_hex_digit_of by nlia. cbn. f_equal. nlia.
Qed.

Lemma scanstring_u (a b c d : codepoint) (r2 : pystr) :
  scanstring (92 :: 117 :: a :: b :: c :: d :: r2)
  = match hex4 a b c d with
    | None => Raise JSONDecodeError
    | Some u => after_u u r2
    end.
Proof. reflexivity. Qed.

Lemma after_u_cases (u : N) (r2 : pystr) :
  after_u u r2 = cons_read u r2
  \/ exists a b c d r3 u',
       r2 = 92 :: 117 :: a :: b :: c :: d :: r3
       /\ hex4 a b c d = Some u'
       /\ is_high_surrogate u = true /\ is_low_surrogate u' = true.
Proof.
  destruct r2 as [|c0 r2]; [by left|].
  destruct c0 as [|p]; [by left|].
  do 7 (destruct p as [p|p|]; try by left).
  destruct r2 as [|c1 r2]; [by left|].
  destruct c1 as [|p]; [by left|].
  do 7 (destruct p as [p|p|]; try by left).
  destruct r2 as [|a [|b [|c [|d r3]]]]; try by left.
  unfold after_u.
  destruct (hex4 a b c d) as [u'|] eqn:E; [|by left].
  destruct (is_high_surrogate u) eqn:Hh; [|by left].
  destruct (is_low_surrogate u') eqn:Hl; [|by left].
  right. by exists a, b, c, d, r3, u'.
Qed.

Lemma scanstring_u_escape (u : N) (r2 : pystr) :
  u < 65536 -> scanstring (u_escape u ++ r2) = after_u u r2.
Proof.
  intros Hu. destruct (hex4_hex4_of u Hu) as (a & b & c & d & E & Hhex).
  unfold u_escape. rewrite E. cbn [Datatypes.app].
  by rewrite scanstring_u, Hhex.
Qed.

(** The first characters of an escaped character. *)
Lemma escape_u_head (d0 : codepoint) (tail : pystr) (a b c d : codepoint)
    (r3 : pystr) (u' : N) :
  escape d0 ++ tail = 92 :: 117 :: a :: b :: c :: d :: r3 ->
  hex4 a b c d = Some u' ->
  is_low_surrogate u' = true ->
  is_low_surrogate d0 = true.
Proof.
  unfold escape.
  repeat match goal with
    | |- context [if ?x =? ?y then _ else _] =>
        destruct (N.eqb_spec x y); [by intros [=]|]
    end.
  destruct ((32 <=? d0) && (d0 <=? 126)); [intros [=]; congruence|].
  destruct (N.ltb_spec d0 65536) as [Hlt|Hge].
  - destruct (hex4_hex4_of d0 Hlt) as (a0 & b0 & c0 & e0 & E & Hhex).
    unfold u_escape. rewrite E. intros [= -> -> -> -> _] ?. congruence.
  - set (hi := 55296 + (d0 - 65536) / 1024 mod 1024).
    assert (hi < 65536) as Hhi by (subst hi; nlia).
    destruct (hex4_hex4_of hi Hhi) as (a0 & b0 & c0 & e0 & E & Hhex).
    unfold u_escape at 1. rewrite E. cbn [Datatypes.app].
    intros [= -> -> -> -> _] Hu' Hlow.
    assert (u' = hi) as -> by congruence.
    unfold is_low_surrogate in Hlow. apply andb_true_iff in Hlow as [H1 H2].
    apply N.leb_le in H1. subst hi. nlia.
Qed.

(** One character of a text that the reader reads back. *)
Lemma scanstring_escape (c : codepoint) (s : pystr) (rest : pystr) :
  json_text (c :: s) = true ->
  scanstring (escape c ++ flat_map escape s ++ 34 :: rest)
  = cons_read c (flat_map escape s ++ 34 :: rest).
Proof.
  cbn [json_text]. intros [[Hc Hpair]%andb_true_iff _]%andb_true_iff.
  apply N.ltb_lt in Hc. apply negb_true_iff in Hpair.
  set (tail := flat_map escape s ++ 34 :: rest).
  assert (is_high_surrogate c = true -> after_u c tail = cons_read c tail)
    as Hlone.
  { intros Hhigh. destruct (after_u_cases c tail)
      as [E|(a & b & c' & d & r3 & u' & E & Hhex & _ & Hlow)]; [done|].
    exfalso. rewrite Hhigh in Hpair. cbn in Hpair.
    destruct s as [|d0 s]; [by subst tail|].
    subst tail. cbn [flat_map] in E. rewrite <- app_assoc in E.
    rewrite (escape_u_head d0 (flat_map escape s ++ 34 :: rest) _ _ _ _ _ _
               E Hhex Hlow) in Hpair. done. }
  assert (is_high_surrogate c = false -> after_u c tail = cons_read c tail)
    as Hnot.
  { intros Hhigh. destruct (after_u_cases c tail)
      as [E|(a & b & c' & d & r3 & u' & _ & _ & Hhigh' & _)]; [done|].
    congruence. }
  assert (after_u c tail = cons_read c tail) as Hafter
    by (destruct (is_high_surrogate c); auto).
  unfold escape.
  repeat match goal with
    | |- context [if ?x =? ?y then _ else _] =>
        destruct (N.eqb_spec x y) as [->|?]; [reflexivity|]
    end.
  destruct ((32 <=? c) && (c <=? 126)) eqn:Hprint.
  - apply andb_true_iff in Hprint as [H1 H2]. apply N.leb_le in H1, H2.
    cbn [Datatypes.app scanstring].
    rewrite (proj2 (N.eqb_neq c 34)), (proj2 (N.ltb_ge c 32)),
      (proj2 (N.eqb_neq c 92)) by done. reflexivity.
  - destruct (N.ltb_spec c 65536) as [Hlt|Hge].
    + by rewrite scanstring_u_escape.
    + set (v := c - 65536).
      set (hi := 55296 + v / 1024 mod 1024).
      set (lo := 56320 + v mod 1024).
      assert (hi < 65536) as Hhi by (subst hi; nlia).
      assert (lo < 65536) as Hlo by (subst lo; nlia).
      rewrite <- app_assoc, scanstring_u_escape by done.
      destruct (hex4_hex4_of lo Hlo) as (a & b & c' & d & E & Hhex).
      unfold u_escape. rewrite E. cbn [Datatypes.app after_u]. rewrite Hhex.
      assert (is_high_surrogate hi = true) as ->.
      { unfold is_high_surrogate. apply andb_true_iff.
        split; [apply N.leb_le | apply N.ltb_lt]; subst hi; nlia. }
      assert (is_low_surrogate lo = true) as ->.
      { unfold is_low_surrogate. apply andb_true_iff.
        split; [apply N.leb_le | apply N.ltb_lt]; subst lo; nlia. }
      cbn [andb]. unfold cons_read.
      assert (join_surrogates hi lo = c) as ->; [|done].
      unfold join_surrogates. subst hi lo v. nlia.
Qed.

(** The reader reads a written string back. *)
Lemma scanstring_encode (s : pystr) (rest : pystr) :
  json_text s = true ->
  scanstring (flat_map escape s ++ 34 :: rest) = Ok (s, rest).
Proof.
  induction s as [|c s IH]; intros Hs; [done|].
  cbn [flat_map]. rewrite <- app_assoc, scanstring_escape by done.
  unfold cons_read. rewrite IH; [done|].
  cbn [json_text] in Hs. by apply andb_true_iff in Hs as [_ Hs].
Qed.
End RefJsonDumpFacts.

Section RefJsonDumpLaws.
Import RefJson RefJsonDump.

Lemma encode_string_eq (s rest : pystr) :
  encode_string s ++ rest = 34 :: flat_map escape s ++ 34 :: rest.
Proof. unfold encode_string. cbn [Datatypes.app]. by rewrite <- app_assoc. Qed.

Lemma scan_once_string (fuel : nat) (s rest : pystr) :
  json_text s = true ->
  scan_once (S fuel) (encode_string s ++ rest) = Ok (JStr s, rest).
Proof.
  intros Hs. rewrite encode_string_eq. cbn [scan_once].
  change (34 =? 34) with true. cbv iota. by rewrite scanstring_encode.
Qed.

(** White space before a character that is not. *)
Lemma skip_ws_indent (indent level : nat) (x : codepoint) (r : pystr) :
  is_ws x = false ->
  skip_ws (newline_indent indent level ++ x :: r) = x :: r.
Proof.
  intros Hx. unfold newline_indent. cbn [Datatypes.app skip_ws].
  change (is_ws 10) with true. cbv iota.
  induction (indent * level)%nat as [|n IH]; cbn [repeat Datatypes.app skip_ws].
  - by rewrite Hx.
  - done.
Qed.

Lemma join_encode_string_head (sep : pystr) (v : pystr) (vs : list pystr)
    (rest : pystr) :
  exists r, join sep (map encode_string (v :: vs)) ++ rest = 34 :: r.
Proof.
  destruct vs as [|y l].
  - cbn [map join]. rewrite encode_string_eq. by eexists.
  - cbn [map]. rewrite join_cons_cons, <- app_assoc, encode_string_eq.
    by eexists.
Qed.

(** The elements of a list of strings, written one per line at the
    second level. *)
Lemma scan_elements_strings (vs : list pystr) :
  forall (v : pystr) (acc : list json) (fuel : nat) (rest : pystr),
    forallb json_text (v :: vs) = true ->
    (length vs + 1 < fuel)%nat ->
    scan_elements fuel
      (join (44 :: newline_indent 2 2) (map encode_string (v :: vs))
       ++ newline_indent 2 1 ++ 93 :: rest) acc
    = Ok (JArr (acc ++ map JStr (v :: vs)), rest).
Proof.
  induction vs as [|y l IH]; intros v acc fuel rest Htext Hfuel.
  - destruct fuel as [|[|fuel]]; [cbn in Hfuel; lia..|].
    cbn [forallb] in Htext. apply andb_true_iff in Htext as [Hv _].
    rewrite scan_elements_eq. cbn [map join].
    rewrite scan_once_string by done. cbn [mbind result_bind]. cbv beta iota.
    by rewrite (skip_ws_indent 2 1 93).
  - destruct fuel as [|[|fuel]]; [cbn in Hfuel; lia..|].
    cbn [forallb] in Htext. apply andb_true_iff in Htext as [Hv Htext].
    rewrite scan_elements_eq. cbn [map]. rewrite join_cons_cons.
    rewrite <- !app_assoc. rewrite scan_once_string by done.
    cbn [mbind result_bind Datatypes.app skip_ws]. change (is_ws 44) with false.
    cbv iota.
    destruct (join_encode_string_head (44 :: newline_indent 2 2) y l
                (newline_indent 2 1 ++ 93 :: rest)) as [r Hr].
    change (map encode_string (y :: l)) with (encode_string y :: map encode_string l) in Hr.
    rewrite Hr, (skip_ws_indent 2 2 34) by done.
    assert (length l + 1 < S fuel)%nat as Hfuel' by (cbn [length] in Hfuel; lia).
    pose proof (IH y (acc ++ [JStr v]) (S fuel) rest Htext Hfuel') as H.
    cbn [map] in H. rewrite Hr, <- app_assoc in H. exact H.
Qed.

Lemma encode_strings (level : nat) (v : pystr) (vs : list pystr) :
  encode 2 level (JArr (map JStr (v :: vs)))
  = 91 :: newline_indent 2 (S level)
    ++ join (44 :: newline_indent 2 (S level)) (map encode_string (v :: vs))
    ++ newline_indent 2 level ++ [93].
Proof.
  cbn [map encode Datatypes.app]. rewrite map_map. reflexivity.
Qed.

(** A list of strings at the first level. *)
Lemma scan_once_strings (vs : list pystr) (fuel : nat) (rest : pystr) :
  forallb json_text vs = true ->
  (length vs + 1 < fuel)%nat ->
  scan_once fuel (encode 2 1 (JArr (map JStr vs)) ++ rest)
  = Ok (JArr (map JStr vs), rest).
Proof.
  intros Htext Hfuel. destruct fuel as [|fuel]; [lia|].
  destruct vs as [|v vs]; [done|].
  rewrite encode_strings. cbn [Datatypes.app]. rewrite <- ?app_assoc.
  cbn [Datatypes.app].
  cbn [scan_once]. change (91 =? 34) with false. change (91 =? 123) with false.
  change (91 =? 91) with true. cbv iota.
  destruct (join_encode_string_head (44 :: newline_indent 2 2) v vs
              (newline_indent 2 1 ++ [93] ++ rest)) as [r Hr].
  pose proof (scan_elements_strings vs v [] fuel rest Htext) as H.
  cbn [Datatypes.app] in Hr, H. unfold pystr, codepoint in *.
  rewrite Hr in H |- *. rewrite (skip_ws_indent 2 2 34) by done.
  apply H. cbn [length] in Hfuel. lia.
Qed.

(** The object that [ProjectContext.save] writes. *)
Lemma encode_context_object (session_name : pystr)
    (available_secrets : list pystr) :
  encode 2 0 (context_object session_name available_secrets)
  = 123 :: newline_indent 2 1
    ++ encode_string (py "app") ++ [58; 32] ++ encode_string (py "zap")
    ++ 44 :: newline_indent 2 1
    ++ encode_string (py "current_session") ++ [58; 32]
    ++ encode_string session_name
    ++ 44 :: newline_indent 2 1
    ++ encode_string (py "available_secrets") ++ [58; 32]
    ++ encode 2 1 (JArr (map JStr available_secrets))
    ++ newline_indent 2 0 ++ [125].
Proof.
  unfold context_object. cbn [encode map fst snd]. rewrite !join_cons_cons.
  cbn [join]. unfold pystr, codepoint in *. rewrite <- ?app_assoc.
  cbn [Datatypes.app]. rewrite <- ?app_assoc. reflexivity.
Qed.

Lemma scan_members_key (fuel : nat) (key : pystr) (r : pystr)
    (acc : list (pystr * json)) :
  json_text key = true ->
  scan_members (S fuel) (encode_string key ++ 58 :: 32 :: r) acc
  = ('(v, rest) ← scan_once fuel (skip_ws r);
     match skip_ws rest with
     | 125 :: rest3 => Ok (JObj (dict_set acc key v), rest3)
     | 44 :: rest3 => scan_members fuel (skip_ws rest3) (dict_set acc key v)
     | _ => Raise JSONDecodeError
     end).
Proof.
  intros Hkey. rewrite encode_string_eq. cbn [scan_members].
  by rewrite scanstring_encode.
Qed.

(** A member whose value is a string, followed by another member. *)
Lemma scan_members_string (fuel : nat) (key value : pystr) (tail : pystr)
    (acc : list (pystr * json)) :
  json_text key = true -> json_text value = true ->
  scan_members (S (S fuel))
    (encode_string key ++ 58 :: 32 :: encode_string value
     ++ 44 :: newline_indent 2 1 ++ 34 :: tail) acc
  = scan_members (S fuel) (34 :: tail) (dict_set acc key (JStr value)).
Proof.
  intros Hkey Hvalue. rewrite scan_members_key by done.
  rewrite encode_string_eq. cbn [skip_ws]. change (is_ws 34) with false.
  cbv iota. rewrite <- encode_string_eq, scan_once_string by done.
  cbn [mbind result_bind]. cbv beta iota. cbn [skip_ws].
  change (is_ws 44) with false. cbv iota.
  by rewrite (skip_ws_indent 2 1 34).
Qed.

Lemma length_join_encode_string (sep : pystr) (vs : list pystr) :
  (length vs <= length (join sep (map encode_string vs)))%nat.
Proof.
  induction vs as [|v vs IH]; [done|].
  destruct vs as [|y l]; cbn [map] in *.
  - cbn. lia.
  - rewrite join_cons_cons, !length_app. cbn [length] in *.
    assert (1 <= length (encode_string v))%nat; [|lia].
    unfold encode_string. cbn [Datatypes.app length]. lia.
Qed.

Lemma length_encode_strings (vs : list pystr) :
  (length vs <= length (encode 2 1 (JArr (map JStr vs))))%nat.
Proof.
  destruct vs as [|v vs]; [apply Nat.le_0_l|].
  rewrite encode_strings. cbn [length]. rewrite !length_app.
  pose proof (length_join_encode_string (44 :: newline_indent 2 2) (v :: vs))
    as H.
  cbn [length] in H |- *. lia.
Qed.

(** The reader reads the object back. *)
Lemma scan_once_context_object (session_name : pystr)
    (available_secrets : list pystr) (fuel : nat) :
  json_text session_name = true ->
  forallb json_text available_secrets = true ->
  (length available_secrets + 5 < fuel)%nat ->
  scan_once fuel (encode 2 0 (context_object session_name available_secrets))
  = Ok (context_object session_name available_secrets, []).
Proof.
  intros Hname Hnames Hfuel.
  destruct fuel as [|[|[|[|fuel]]]]; [lia..|].
  rewrite encode_context_object. cbn [scan_once].
  change (123 =? 34) with false. change (123 =? 123) with true. cbv iota.
  rewrite (encode_string_eq (py "app")), (skip_ws_indent 2 1 34) by done.
  rewrite <- encode_string_eq.
  rewrite (encode_string_eq (py "current_session")).
  cbn [Datatypes.app].
  rewrite scan_members_string by done.
  rewrite <- encode_string_eq.
  rewrite (encode_string_eq (py "available_secrets")).
  rewrite scan_members_string by done.
  rewrite <- encode_string_eq, scan_members_key by done.
  cbn [skip_ws].
  assert (forall r, skip_ws (encode 2 1 (JArr (map JStr available_secrets)) ++ r)
                    = encode 2 1 (JArr (map JStr available_secrets)) ++ r) as ->.
  { intros r. destruct available_secrets as [|v vs]; [done|].
    by rewrite encode_strings. }
  rewrite scan_once_strings by (done || lia).
  cbn [mbind result_bind]. cbv beta iota.
  change (newline_indent 2 0 ++ [125]) with ([10; 125] : pystr).
  reflexivity.
Qed.

Lemma json_dump_laws : JsonDumpLaws json_module json_dump_module.
Proof.
  constructor. intros session_name available_secrets Hname Hnames.
  eexists. split; [reflexivity|]. cbn [json_load json_module].
  set (text := encode 2 0 (context_object session_name available_secrets)).
  assert (exists r, text = 123 :: r) as [r Hr].
  { subst text. rewrite encode_context_object. by eexists. }
  unfold load. rewrite Hr. rewrite <- Hr. unfold decode.
  assert (skip_ws text = text) as -> by (by rewrite Hr).
  clear Hr. subst text.
  set (text := encode 2 0 (context_object session_name available_secrets)).
  assert (length available_secrets + 4 <= length text)%nat as Hlen; last first.
  { subst text. rewrite scan_once_context_object; [done|done|done|lia]. }
  subst text. rewrite encode_context_object. cbn [length].
  repeat (rewrite !length_app; cbn [length]).
  pose proof (length_encode_strings available_secrets).
  unfold pystr, codepoint in *. lia.
Qed.
End RefJsonDumpLaws.

(** * The commands on concrete inputs *)

Section Runs.
Import Examples Scenario.
#[local] Existing Instances
  Latin1.unicode_data RefJson.json_module RefAesGcm.aesgcm_module
  RefJsonDump.json_dump_module RefStr.formatting.

Ltac each_file tac :=
  repeat (first [apply Forall_nil_2 | apply Forall_cons_2; [tac|]]).

(** [repr] of some numbers, as the interpreter prints them. *)
#[warnings="-inexact-float"]
Lemma repr_float_examples :
  RefFloat.repr 0.5%float = py "0.5"
  /\ RefFloat.repr 0.1%float = py "0.1"
  /\ RefFloat.repr 1e22%float = py "1e+22"
  /\ RefFloat.repr 0.00001%float = py "1e-05"
  /\ RefFloat.repr 123456789012345680%float = py "1.2345678901234568e+17"
  /\ RefFloat.repr (-1536)%float = py "-1536.0".
Proof. repeat split; vm_compute; reflexivity. Qed.

(** What [use] of the session [work] prints and writes to [zap.json]. *)
Lemma use_work :
  use (SY := system true) linux (py "work") (at_start fs_work)
  = ({| files := fs_work ++ [(zap_file linux, File (Text zap_work_json))];
        printed :=
          [Line (py "[green]" ++ check_mark
                 ++ py "[/green] Switched to session '[green bold]work[/green bold]'");
           Line (py "[dim]Now you can run 'zap run -- <command>' in this project[/dim]")] |},
     Next ()).
Proof. vm_compute. reflexivity. Qed.

(** [run] of a command in the project bound to the session [work]: the
    secrets are loaded, and the code of the child is the code of the
    exit. *)
Lemma run_work :
  run (SY := system true) linux [py "npm"; py "start"] None true None
    (at_start (fs_work ++ [(zap_file linux, File (Text zap_work_json))]))
  = ({| files := fs_work ++ [(zap_file linux, File (Text zap_work_json))];
        printed :=
          [Line (py "[cyan bold]Loading secrets into environment...[/cyan bold]"
                 ++ [10]);
           Line (py "  Using session: [green bold]work[/green bold]");
           Line (py "  Loading [yellow]2[/yellow] secrets" ++ [10]);
           Message (Loaded (py "DB_PASSWORD"));
           Message (Loaded (py "API_KEY"));
           Line ([10] ++ py "[cyan bold]Executing:[/cyan bold] npm start"
                 ++ [10])] |},
     Stop (SystemExit 3)).
Proof. vm_compute. reflexivity. Qed.
(** The listing of [fs_garbage]: the two sessions that read, and a file
    whose failure to read is handled. *)
Lemma list_all_exact_witness :
  if exists_ fs_garbage (get_sessions_directory linux)
  then [dev_session; old_session]
       ≡ₚ readable_sessions fs_garbage
            (glob_json fs_garbage (get_sessions_directory linux))
       /\ all_handled fs_garbage
            (glob_json fs_garbage (get_sessions_directory linux))
  else [dev_session; old_session] = [].
Proof.
  apply (list_all_exact linux fs_garbage [dev_session; old_session]).
  vm_compute. reflexivity.
Defined.

Lemma list_all_newest_first_witness :
  exists l, SessionFile_list_all linux fs_garbage = Ok l /\ newest_first l.
Proof.
  apply (list_all_newest_first linux fs_garbage).
  - each_file ltac:(intros e; vm_compute; intros [=]; subst; reflexivity).
  - each_file ltac:(eexists; vm_compute; reflexivity).
Defined.


Lemma stop_then_load_witness :
  SessionFile_load linux fs_stopped (py "dev") = Ok None.
Proof.
  apply (stop_then_load linux (py "dev") fs_garbage fs_stopped
           [Stopped (py "dev"); ClearedFromProject]).
  vm_compute. reflexivity.
Defined.





Lemma clear_confirmed_witness :
  exists w',
    clear (SY := system true) linux (at_start fs_garbage) = (w', Next ())
    /\ (forall p, p ∈ glob_json fs_garbage (get_sessions_directory linux) ->
                  fs_lookup (files w') p = None)
    /\ fs_lookup (files w') (zap_file linux) = None
    /\ (forall p, p ∉ glob_json fs_garbage (get_sessions_directory linux) ->
                  p <> zap_file linux ->
                  fs_lookup (files w') p = fs_lookup fs_garbage p)
    /\ SessionFile_list_all linux (files w') = Ok []
    /\ (2 <= length (glob_json fs_garbage (get_sessions_directory linux)))%nat.
Proof.
  apply (clear_confirmed (SY := system true) linux (at_start fs_garbage)
           dev_session [old_session]).
  - vm_compute. reflexivity.
  - reflexivity.
  - apply (bool_decide_unpack (NoDup (fst <$> fs_garbage))). vm_compute.
    exact I.
  - apply Forall_forall.
    each_file ltac:(eexists; vm_compute; reflexivity).
  - vm_compute. discriminate.
Defined.

Lemma clear_declined_witness :
  exists w',
    clear (SY := system false) linux (at_start fs_garbage) = (w', Next ())
    /\ files w' = fs_garbage.
Proof.
  apply (clear_declined (SY := system false) linux (at_start fs_garbage)
           [dev_session; old_session]).
  - vm_compute. reflexivity.
  - right. reflexivity.
Defined.

(** [start] on the Windows host, where both launches fail. *)
Lemma start_reports_witness :
  exists w',
    start (SY := system_without_app) windows (at_start []) = (w', Next ())
    /\ printed w'
       = printed (at_start [])
         ++ [Line (py "[cyan bold]Opening Zap desktop app...[/cyan bold]");
             Line (check_mark_button ++ py " Zap app launched successfully!");
             Line (py "[dim]Create a new session in the app's Dev Mode[/dim]")].
Proof.
  apply (start_reports (SY := system_without_app) windows (at_start [])).
  - reflexivity.
  - intros path e [= <-]. reflexivity.
Defined.
End Runs.
